(** * Time-stepped particle simulations of the 3d_visualization scripts

    A shallow embedding of

      - [simulate] of [birthday_station.py] (a ball released inside a
        rotating station; explicit Euler steps with a radial stop rule),
      - [simulate_motion] of [two_balls_bounce.py] (two balls reflected by a
        wall at a fixed x), and
      - [simulate_motion] of [two_balls_cross.py] (two balls in straight
        motion),

    and the properties the specification states about them.

    Numbers.  The scripts compute with Python floats and NumPy float64
    arrays.  The embedding is written once over an interface [Arith] that
    lists exactly the literals, operations and comparisons the three
    functions use, and is instantiated twice: [binary64] (the kernel's
    IEEE 754 binary64 floats: the arithmetic the scripts run on) and
    [exact] (the real numbers: the arithmetic the specification idealises
    to).  A statement made for every [Arith] holds in both.

    Objects.  [simulate] works on local Python floats and lists only and is
    embedded as a pure function.  [simulate_motion] receives NumPy arrays
    by reference, copies them and updates the copies in place; it is
    embedded in a state-and-exception monad over a store of array
    objects. *)

From Stdlib Require Import List ZArith Lia Bool Reals Lra Floats.
From stdpp Require Import base list.
Import ListNotations.

Set Warnings "-inexact-float".

(** ** The arithmetic the scripts use *)

Class Arith (F : Type) : Type := {
  lit_zero : F;                 (* 0.0 *)
  lit_minus_one : F;            (* -1.0 *)
  lit_milli : F;                (* 0.001 *)
  lit_two : F;                  (* 2.0 *)
  np_pi : F;                    (* np.pi *)
  fadd : F -> F -> F;
  fmul : F -> F -> F;
  fdiv : F -> F -> F;
  fneg : F -> F;                (* unary minus *)
  fge : F -> F -> bool;         (* a >= b *)
  fle : F -> F -> bool;         (* a <= b *)
  is_zero : F -> bool;          (* a == 0, the test behind ZeroDivisionError *)
  np_hypot : F -> F -> F;       (* np.hypot *)
}.

Declare Scope arith_scope.
Delimit Scope arith_scope with ar.
Infix "+" := fadd : arith_scope.
Infix "*" := fmul : arith_scope.
Infix "/" := fdiv : arith_scope.
Notation "- x" := (fneg x) : arith_scope.
Infix ">=?" := fge (at level 70, no associativity) : arith_scope.
Infix "<=?" := fle (at level 70, no associativity) : arith_scope.

(** [np.hypot] on binary64.  NumPy calls the C library's [hypot], which
    works without intermediate overflow or underflow and follows C99
    Annex F: the result is +infinity when an argument is infinite, even if
    the other is a NaN; otherwise a NaN argument gives NaN; and
    [hypot(x, 0)] is [|x|].  On finite arguments it returns the square root
    of the exact sum of the two squares, rounded once to the nearest
    binary64 value; a C library is allowed to be off by one unit in the
    last place, which the common ones are on rare arguments only.  The
    exact sum is computed on the integer mantissas, aligned to the smaller
    exponent. *)
Definition c_hypot (x y : float) : float :=
  match Prim2SF x, Prim2SF y with
  | S754_infinity _, _ | _, S754_infinity _ => infinity
  | S754_nan, _ | _, S754_nan => nan
  | S754_zero _, _ => abs y
  | _, S754_zero _ => abs x
  | S754_finite _ mx ex, S754_finite _ my ey =>
      let e := Z.min ex ey in
      let ax := Z.shiftl (Zpos mx) (ex - e) in
      let ay := Z.shiftl (Zpos my) (ey - e) in
      match (ax * ax + ay * ay)%Z with
      | Zpos m => SF2Prim (SFsqrt prec emax (S754_finite false m (2 * e)))
      | _ => nan
      end
  end.

(** IEEE 754 binary64, round to nearest even: Python's [float] and NumPy's
    [float64].  Decimal literals are rounded to the nearest binary64 value,
    as Python's parser does.  A comparison with a NaN is [false]. *)
#[export] Instance binary64 : Arith float := {|
  lit_zero := 0%float;
  lit_minus_one := (-1)%float;
  lit_milli := 0.001%float;
  lit_two := 2%float;
  np_pi := 0x1.921fb54442d18p+1%float;
  fadd := PrimFloat.add;
  fmul := PrimFloat.mul;
  fdiv := PrimFloat.div;
  fneg := PrimFloat.opp;
  fge := fun a b => PrimFloat.leb b a;
  fle := PrimFloat.leb;
  is_zero := fun a => PrimFloat.eqb a 0%float;
  np_hypot := c_hypot;
|}.

(** Exact real arithmetic. *)
#[export] Instance exact : Arith R := {|
  lit_zero := 0%R;
  lit_minus_one := (-1)%R;
  lit_milli := (1 / 1000)%R;
  lit_two := 2%R;
  np_pi := PI;
  fadd := Rplus;
  fmul := Rmult;
  fdiv := Rdiv;
  fneg := Ropp;
  fge := fun a b => if Rge_dec a b then true else false;
  fle := fun a b => if Rle_dec a b then true else false;
  is_zero := fun a => if Req_dec_T a 0%R then true else false;
  np_hypot := fun x y => R_sqrt.sqrt (x * x + y * y)%R;
|}.

(** ** Exceptions and results *)

(** The exceptions the modelled statements can raise.  Neither script
    defines an exception of its own or has a [raise] statement. *)
Inductive exn : Type :=
| ZeroDivisionError   (* float division by a zero Python float *)
| IndexError          (* array index out of bounds *)
| ValueError          (* operands could not be broadcast together *)
| BadReference.       (* a reference to no object of the store: not a Python
                         exception, and no Python caller can pass one *)

Inductive result (A : Type) : Type :=
| Ok (a : A)
| Raise (e : exn).
Arguments Ok {A} a.
Arguments Raise {A} e.

(** ** birthday_station.py *)

Module Station.

(** The value [simulate] returns: the arrays under the keys "time",
    "x_inertial" and "y_inertial".  The arrays "x_rotating" and
    "y_rotating" are [rotate_xy] applied to these three and do not feed
    back into them; they are not modelled. *)
Record trajectory (F : Type) : Type := {
  time : list F;
  x_inertial : list F;
  y_inertial : list F;
}.
Arguments time {F} t.
Arguments x_inertial {F} t.
Arguments y_inertial {F} t.

(** The local variables of [simulate] that the loop reads and writes. *)
Record loop_state (F : Type) : Type := {
  x_positions : list F;
  y_positions : list F;
  times : list F;
  current_x : F;
  current_y : F;
  current_time : F;
}.
Arguments x_positions {F} l.
Arguments y_positions {F} l.
Arguments times {F} l.
Arguments current_x {F} l.
Arguments current_y {F} l.
Arguments current_time {F} l.

Section Simulate.
Context {F : Type} `{Arith F}.
Local Open Scope arith_scope.

(** [time_step = 0.001 * 2.0 * np.pi / angular_speed]: operands are Python
    floats, so a zero divisor raises. *)
Definition default_time_step (angular_speed : F) : result F :=
  if is_zero angular_speed then Raise ZeroDivisionError
  else Ok (lit_milli * lit_two * np_pi / angular_speed).

(** [for _ in range(remaining)]: the body, with [break] ending the loop.
    The divisor [radius] is a NumPy scalar: dividing by it never raises. *)
Fixpoint loop (inner_radius velocity_x velocity_y time_step : F)
    (remaining : nat) (st : loop_state F) : loop_state F :=
  match remaining with
  | O => st
  | S remaining' =>
      let current_x := current_x st + velocity_x * time_step in
      let current_y := current_y st + velocity_y * time_step in
      let current_time := current_time st + time_step in
      let radius := np_hypot current_x current_y in
      if radius >=? inner_radius then
        let current_x := inner_radius * current_x / radius in
        let current_y := inner_radius * current_y / radius in
        {| x_positions := x_positions st ++ [current_x];
           y_positions := y_positions st ++ [current_y];
           times := times st ++ [current_time];
           current_x := current_x;
           current_y := current_y;
           current_time := current_time |}
      else
        loop inner_radius velocity_x velocity_y time_step remaining'
          {| x_positions := x_positions st ++ [current_x];
             y_positions := y_positions st ++ [current_y];
             times := times st ++ [current_time];
             current_x := current_x;
             current_y := current_y;
             current_time := current_time |}
  end.

(** [if time_step is None: time_step = ...]. *)
Definition time_step_or_default (angular_speed : F) (time_step : option F) : result F :=
  match time_step with
  | None => default_time_step angular_speed
  | Some time_step => Ok time_step
  end.

Definition simulate (angular_speed inner_radius release_height : F)
    (initial_velocity : F * F) (time_step : option F) (max_steps : Z)
    : result (trajectory F) :=
  match time_step_or_default angular_speed time_step with
  | Raise e => Raise e
  | Ok time_step =>
      let initial_x_position := lit_zero in
      let initial_y_position := - inner_radius + release_height in
      let '(velocity_x, velocity_y) := initial_velocity in
      let st := loop inner_radius velocity_x velocity_y time_step
                  (Z.to_nat max_steps)
                  {| x_positions := [initial_x_position];
                     y_positions := [initial_y_position];
                     times := [lit_zero];
                     current_x := initial_x_position;
                     current_y := initial_y_position;
                     current_time := lit_zero |} in
      Ok {| time := times st;
            x_inertial := x_positions st;
            y_inertial := y_positions st |}
  end.

(** The [i]-th recorded state (x, y, t) of a returned trajectory. *)
Definition entry (tr : trajectory F) (i : nat) : option (F * F * F) :=
  match x_inertial tr !! i, y_inertial tr !! i, time tr !! i with
  | Some x, Some y, Some t => Some (x, y, t)
  | _, _, _ => None
  end.

(** *** The loop body, read as a function on (x, y, t) *)

(** Lines 61-63: the Euler advance. *)
Definition advance (velocity : F * F) (time_step : F) (s : F * F * F) : F * F * F :=
  (s.1.1 + velocity.1 * time_step, s.1.2 + velocity.2 * time_step, s.2 + time_step).

(** Line 65: the radial distance tested against [inner_radius]. *)
Definition radius_of (s : F * F * F) : F := np_hypot s.1.1 s.1.2.

(** Lines 67-68: the projection onto the boundary circle. *)
Definition clamp (inner_radius : F) (s : F * F * F) : F * F * F :=
  (inner_radius * s.1.1 / radius_of s, inner_radius * s.1.2 / radius_of s, s.2).

(** The entries the loop appends after the state [s]. *)
Fixpoint entries (inner_radius : F) (velocity : F * F) (time_step : F)
    (remaining : nat) (s : F * F * F) : list (F * F * F) :=
  match remaining with
  | O => []
  | S remaining' =>
      let a := advance velocity time_step s in
      if radius_of a >=? inner_radius then [clamp inner_radius a]
      else a :: entries inner_radius velocity time_step remaining' a
  end.

(** The recorded states of a run: the initial state, then the loop's
    entries. *)
Definition initial_state (inner_radius release_height : F) : F * F * F :=
  (lit_zero, - inner_radius + release_height, lit_zero).

Definition recorded (inner_radius release_height : F) (initial_velocity : F * F)
    (time_step : F) (max_steps : Z) : list (F * F * F) :=
  initial_state inner_radius release_height
  :: entries inner_radius initial_velocity time_step (Z.to_nat max_steps)
       (initial_state inner_radius release_height).

End Simulate.
End Station.

(** ** NumPy arrays as objects *)

(** The arrays of the two-ball scripts have shape (number_of_balls, 3): a
    row is one ball's (x, y, z). *)
Abbreviation row F := (F * F * F)%type.
Abbreviation ndarray F := (list (row F)).

(** An array is an object: two names may refer to the same array, and an
    in-place update is seen through both.  The store lists the array
    objects in allocation order; a reference is an index into it. *)
Abbreviation ref := nat.
Abbreviation store F := (list (list (row F))).

(** Computations that read and update the store and may raise. *)
Definition M (F A : Type) : Type := store F -> store F * result A.

Definition ret {F A : Type} (a : A) : M F A := fun h => (h, Ok a).

Definition raise {F A : Type} (e : exn) : M F A := fun h => (h, Raise e).

Definition bind {F A B : Type} (m : M F A) (k : A -> M F B) : M F B :=
  fun h =>
    match m h with
    | (h', Ok a) => k a h'
    | (h', Raise e) => (h', Raise e)
    end.

Declare Scope store_scope.
Delimit Scope store_scope with M.
Notation "x <- m ;; k" := (bind m (fun x => k))
  (at level 100, m at next level, right associativity) : store_scope.
Notation "m ;; k" := (bind m (fun _ => k))
  (at level 100, right associativity) : store_scope.

(** How a loop that is run with a bound on its iterations ends: [Done]
    when its condition became false, [More] when the bound was reached with
    the condition still true.  Both carry the value built so far. *)
Inductive run (A : Type) : Type :=
| Done (a : A)
| More (a : A).
Arguments Done {A} a.
Arguments More {A} a.

Section Objects.
Context {F : Type} `{Arith F}.
Local Open Scope arith_scope.
Local Open Scope store_scope.

Definition load (a : ref) : M F (ndarray F) :=
  fun h =>
    match h !! a with
    | Some x => (h, Ok x)
    | None => (h, Raise BadReference)
    end.

(** Replace the contents of the object [a]: what an in-place update does. *)
Definition write (a : ref) (x : ndarray F) : M F unit :=
  fun h =>
    if (a <? length h)%nat then (<[a := x]> h, Ok tt) else (h, Raise BadReference).

(** A new object. *)
Definition alloc (x : ndarray F) : M F ref :=
  fun h => (h ++ [x], Ok (length h)).

(** [a.copy()] *)
Definition np_copy (a : ref) : M F ref :=
  x <- load a ;; alloc x.

(** [len(a)] *)
Definition np_len (a : ref) : M F nat :=
  x <- load a ;; ret (length x).

(** [a[index]] read, for [index >= 0]. *)
Definition getitem (a : ref) (index : nat) : M F (row F) :=
  x <- load a ;;
  match x !! index with
  | Some r => ret r
  | None => raise IndexError
  end.

(** [a[index] = r] *)
Definition setitem (a : ref) (index : nat) (r : row F) : M F unit :=
  x <- load a ;;
  if (index <? length x)%nat then write a (<[index := r]> x) else raise IndexError.

(** Row arithmetic, elementwise. *)
Definition row_add (p q : row F) : row F :=
  (p.1.1 + q.1.1, p.1.2 + q.1.2, p.2 + q.2).

Definition row_scale (v : row F) (c : F) : row F :=
  (v.1.1 * c, v.1.2 * c, v.2 * c).

(** [a * c] for a scalar [c]: a new array. *)
Definition np_mul_scalar (a : ref) (c : F) : M F ref :=
  x <- load a ;; alloc ((fun v => row_scale v c) <$> x).

(** Broadcasting of two arrays of shapes (n, 3) and (m, 3): the row counts
    must be equal, or one of them must be 1. *)
Definition broadcast_add (x y : ndarray F) : result (ndarray F) :=
  if (length x =? length y)%nat then Ok (zip_with row_add x y)
  else match x, y with
       | [p], _ => Ok (row_add p <$> y)
       | _, [q] => Ok ((fun p => row_add p q) <$> x)
       | _, _ => Raise ValueError
       end.

(** [a + b]: a new array. *)
Definition np_add (a b : ref) : M F ref :=
  x <- load a ;;
  y <- load b ;;
  match broadcast_add x y with
  | Ok z => alloc z
  | Raise e => raise e
  end.

(** [for x in l: body(x)] *)
Fixpoint for_each {A : Type} (body : A -> M F unit) (l : list A) : M F unit :=
  match l with
  | [] => ret tt
  | x :: l' => body x ;; for_each body l'
  end.

(** [for index in range(n): body(index)] *)
Definition for_range (n : nat) (body : nat -> M F unit) : M F unit :=
  for_each body (seq 0 n).

(** What a caller sees of a finished call: the arrays behind the returned
    references, read in the store [h]. *)
Definition observe (h : store F) (r : result (run (list ref)))
    : result (run (list (option (ndarray F)))) :=
  match r with
  | Ok (Done l) => Ok (Done ((fun a => h !! a) <$> l))
  | Ok (More l) => Ok (More ((fun a => h !! a) <$> l))
  | Raise e => Raise e
  end.

(** The list a result carries, if any. *)
Definition returned_list (r : result (run (list ref))) : option (list ref) :=
  match r with
  | Ok (Done l) | Ok (More l) => Some l
  | Raise _ => None
  end.

(** The layout [simulate_motion] of two_balls_bounce.py works in: the
    caller's store [h0], then the private copies of the positions and of
    the velocities, then the snapshots taken so far. *)
Definition layout (h0 : store F) (pv : ndarray F * ndarray F)
    (snapshots : list (ndarray F)) : store F :=
  h0 ++ pv.1 :: pv.2 :: snapshots.

(** A computation that leaves the store as it is when it raises, and
    otherwise adds exactly one object and returns a value that [ok]
    relates to the store it started from. *)
Definition allocates_at_most_one {A : Type} (m : M F A) (ok : store F -> A -> Prop) : Prop :=
  forall h h' r, m h = (h', r) ->
    match r with
    | Raise _ => h' = h
    | Ok a => ok h a /\ exists x, h' = h ++ [x]
    end.

End Objects.

(** ** two_balls_bounce.py *)

Module Bounce.
Section SimulateMotion.
Context {F : Type} `{Arith F}.
Local Open Scope arith_scope.
Local Open Scope store_scope.

(** The local variables of [simulate_motion]. *)
Record locals : Type := {
  positions_over_time : list ref;
  positions : ref;
  velocities : ref;
  current_time : F;
}.

(** [velocities[index, 0] *= -1.0], on the row. *)
Definition negate_x (v : row F) : row F := (v.1.1 * lit_minus_one, v.1.2, v.2).

(** Lines 55-58: the body of [for index in range(len(positions))]. *)
Definition body (wall_x_position time_step : F) (positions velocities : ref)
    (index : nat) : M F unit :=
  p <- getitem positions index ;;
  (if p.1.1 >=? wall_x_position then
     v <- getitem velocities index ;;
     setitem velocities index (negate_x v)
   else ret tt) ;;
  p <- getitem positions index ;;
  v <- getitem velocities index ;;
  setitem positions index (row_add p (row_scale v time_step)).

(** Lines 51-60: [while current_time <= stop_time], for at most [fuel]
    iterations. *)
Fixpoint while_loop (wall_x_position time_step stop_time : F) (fuel : nat)
    (st : locals) : M F (run (list ref)) :=
  if current_time st <=? stop_time then
    match fuel with
    | O => ret (More (positions_over_time st))
    | S fuel' =>
        snapshot <- np_copy (positions st) ;;
        n <- np_len (positions st) ;;
        for_range n (body wall_x_position time_step (positions st) (velocities st)) ;;
        while_loop wall_x_position time_step stop_time fuel'
          {| positions_over_time := positions_over_time st ++ [snapshot];
             positions := positions st;
             velocities := velocities st;
             current_time := current_time st + time_step |}
    end
  else ret (Done (positions_over_time st)).

Definition simulate_motion (fuel : nat) (initial_positions initial_velocities : ref)
    (wall_x_position time_step stop_time : F) : M F (run (list ref)) :=
  positions <- np_copy initial_positions ;;
  velocities <- np_copy initial_velocities ;;
  while_loop wall_x_position time_step stop_time fuel
    {| positions_over_time := [];
       positions := positions;
       velocities := velocities;
       current_time := lit_zero |}.

(** *** The same loops on array values

    [simulate_motion] works on its two private copies only.  Its loops are
    restated here on the pair of values of those two arrays;
    [BounceFacts.simulate_motion_values] proves that the program above
    computes exactly this. *)

(** One pass of the body at [index]. *)
Definition body_value (wall_x_position time_step : F) (index : nat)
    (pv : ndarray F * ndarray F) : ndarray F * ndarray F * result unit :=
  match pv.1 !! index with
  | None => (pv, Raise IndexError)
  | Some p =>
      match (if p.1.1 >=? wall_x_position then
               match pv.2 !! index with
               | Some v => Ok (<[index := negate_x v]> pv.2)
               | None => Raise IndexError
               end
             else Ok pv.2) with
      | Raise e => (pv, Raise e)
      | Ok velocities =>
          match velocities !! index with
          | None => (pv.1, velocities, Raise IndexError)
          | Some v =>
              (<[index := row_add p (row_scale v time_step)]> pv.1, velocities, Ok tt)
          end
      end
  end.

Fixpoint for_value (wall_x_position time_step : F) (indices : list nat)
    (pv : ndarray F * ndarray F) : ndarray F * ndarray F * result unit :=
  match indices with
  | [] => (pv, Ok tt)
  | index :: indices' =>
      match body_value wall_x_position time_step index pv with
      | (pv', Ok _) => for_value wall_x_position time_step indices' pv'
      | (pv', Raise e) => (pv', Raise e)
      end
  end.

(** One iteration of the while loop on the two arrays: the for loop over
    [range(len(positions))]. *)
Definition iteration (wall_x_position time_step : F) (pv : ndarray F * ndarray F)
    : ndarray F * ndarray F * result unit :=
  for_value wall_x_position time_step (seq 0 (length pv.1)) pv.

(** The while loop: the snapshots appended to [snapshots], the final
    values of the two arrays, and how the loop ended. *)
Fixpoint while_value (wall_x_position time_step stop_time : F) (fuel : nat)
    (snapshots : list (ndarray F)) (pv : ndarray F * ndarray F) (current_time : F)
    : list (ndarray F) * (ndarray F * ndarray F) * result (run unit) :=
  if current_time <=? stop_time then
    match fuel with
    | O => (snapshots, pv, Ok (More tt))
    | S fuel' =>
        match iteration wall_x_position time_step pv with
        | (pv', Ok _) =>
            while_value wall_x_position time_step stop_time fuel'
              (snapshots ++ [pv.1]) pv' (current_time + time_step)
        | (pv', Raise e) => (snapshots ++ [pv.1], pv', Raise e)
        end
    end
  else (snapshots, pv, Ok (Done tt)).

(** The references a call returns when its snapshots are the [count]
    objects allocated from [first] on. *)
Definition references (first count : nat) (r : result (run unit))
    : result (run (list ref)) :=
  match r with
  | Ok (Done _) => Ok (Done (seq first count))
  | Ok (More _) => Ok (More (seq first count))
  | Raise e => Raise e
  end.

(** What the body does to one ball: the wall test on the position the
    ball has on entry, the sign change, then the advance with the velocity
    as it then is. *)
Definition bounce_ball (wall_x_position time_step : F) (pv : row F * row F)
    : row F * row F :=
  let v := if pv.1.1.1 >=? wall_x_position then negate_x pv.2 else pv.2 in
  (row_add pv.1 (row_scale v time_step), v).

(** Following the spec's words (4.1, steps 2a and 2b): "advance position
    by velocity * time_step", then "evaluate each BoundaryRule against the
    post-advance position", a reflect rule negating the velocity component
    "for subsequent steps only".  Compared with [bounce_ball] below. *)
Definition spec_advance_then_test (wall_x_position time_step : F)
    (pv : row F * row F) : row F * row F :=
  let p := row_add pv.1 (row_scale pv.2 time_step) in
  (p, if p.1.1 >=? wall_x_position then negate_x pv.2 else pv.2).

(** Positions and velocities on entry to iteration [i] of the while loop,
    for arrays of equal length. *)
Fixpoint state_at (wall_x_position time_step : F) (i : nat)
    (pv : ndarray F * ndarray F) : ndarray F * ndarray F :=
  match i with
  | O => pv
  | S i' =>
      let balls := bounce_ball wall_x_position time_step <$> zip pv.1 pv.2 in
      state_at wall_x_position time_step i' (fst <$> balls, snd <$> balls)
  end.

End SimulateMotion.
End Bounce.

(** ** two_balls_cross.py *)

Module Cross.
Section SimulateMotion.
Context {F : Type} `{Arith F}.
Local Open Scope arith_scope.
Local Open Scope store_scope.

Record locals : Type := {
  positions_over_time : list ref;
  positions : ref;
  velocities : ref;
  current_time : F;
}.

(** Lines 54-57.  [positions = positions + velocities * time_step] builds
    two new arrays and rebinds the name [positions]. *)
Fixpoint while_loop (time_step stop_time : F) (fuel : nat) (st : locals)
    : M F (run (list ref)) :=
  if current_time st <=? stop_time then
    match fuel with
    | O => ret (More (positions_over_time st))
    | S fuel' =>
        snapshot <- np_copy (positions st) ;;
        scaled <- np_mul_scalar (velocities st) time_step ;;
        moved <- np_add (positions st) scaled ;;
        while_loop time_step stop_time fuel'
          {| positions_over_time := positions_over_time st ++ [snapshot];
             positions := moved;
             velocities := velocities st;
             current_time := current_time st + time_step |}
    end
  else ret (Done (positions_over_time st)).

Definition simulate_motion (fuel : nat) (initial_positions initial_velocities : ref)
    (time_step stop_time : F) : M F (run (list ref)) :=
  positions <- np_copy initial_positions ;;
  velocities <- np_copy initial_velocities ;;
  while_loop time_step stop_time fuel
    {| positions_over_time := [];
       positions := positions;
       velocities := velocities;
       current_time := lit_zero |}.

End SimulateMotion.
End Cross.

(** ** Notions and inputs used in the statements *)

(** The speed of a ball: the Euclidean norm of its velocity. *)
Definition speed (v : row R) : R :=
  R_sqrt.sqrt (v.1.1 * v.1.1 + v.1.2 * v.1.2 + v.2 * v.2)%R.

(** The sum of the squares of the velocity components, in the arithmetic
    of the code. *)
Definition squared_speed {F : Type} `{Arith F} (v : row F) : F :=
  fadd (fadd (fmul v.1.1 v.1.1) (fmul v.1.2 v.1.2)) (fmul v.2 v.2).

(** In the store [h'] and the returned list [l], ball [k] is recorded at
    [p] in entry [i] and at [p'] in entry [i + 1]; [v] is its velocity on
    entry to iteration [i], [states] giving the arrays on entry to each
    iteration. *)
Definition recorded_ball {F : Type} (h' : store F) (l : list ref)
    (states : nat -> ndarray F * ndarray F) (i k : nat) (p p' v : row F) : Prop :=
  exists a a' Pi Pi',
    l !! i = Some a /\ l !! S i = Some a' /\
    h' !! a = Some Pi /\ h' !! a' = Some Pi' /\
    Pi !! k = Some p /\ Pi' !! k = Some p' /\
    (states i).2 !! k = Some v.

(** The arrays of [main] in two_balls_bounce.py, as the caller's store:
    positions at reference 0, velocities at reference 1. *)
Definition main_store : store float :=
  [ [ ((-10)%float, 0%float, 0%float); ((-8)%float, 1.5%float, 0%float) ];
    [ (25%float, 0%float, 0%float); (18%float, 0%float, 0%float) ] ].

(** The store of an exact run of [simulate_motion]: one ball at x = -1 with velocity +2,
    wall at 0, time step 1, stop time 2. *)
Definition exact_store : store R :=
  [ [ ((-1)%R, 0%R, 0%R) ]; [ (2%R, 0%R, 0%R) ] ].

(** The store of a binary64 run of [simulate_motion] in two_balls_bounce.py:
    one ball at x = 1 with x velocity 0.5, beyond a wall at 0, time step
    1. *)
Definition trapped_store : store float :=
  [ [ (1%float, 0%float, 0%float) ]; [ (0.5%float, 0%float, 0%float) ] ].

(** ** two_balls_cross.py: the loop on array values *)

Module CrossValues.
Section Values.
Context {F : Type} `{Arith F}.
Local Open Scope arith_scope.

(** [positions + velocities * time_step] on the values of the two arrays. *)
Definition moved (P V : ndarray F) (time_step : F) : result (ndarray F) :=
  broadcast_add P ((fun v => row_scale v time_step) <$> V).

(** The while loop of [Cross.simulate_motion]: the snapshots appended to
    [snapshots] and how the loop ended. *)
Fixpoint while_value (time_step stop_time : F) (fuel : nat)
    (snapshots : list (ndarray F)) (P V : ndarray F) (current_time : F)
    : list (ndarray F) * result (run unit) :=
  if current_time <=? stop_time then
    match fuel with
    | O => (snapshots, Ok (More tt))
    | S fuel' =>
        match moved P V time_step with
        | Ok P' =>
            while_value time_step stop_time fuel' (snapshots ++ [P]) P' V
              (current_time + time_step)
        | Raise e => (snapshots ++ [P], Raise e)
        end
    end
  else (snapshots, Ok (Done tt)).

End Values.
End CrossValues.

(** What a caller sees when a call ended as [u] with the arrays
    [snapshots] behind the returned references. *)
Definition observed {F : Type} (snapshots : list (ndarray F)) (u : result (run unit))
    : result (run (list (option (ndarray F)))) :=
  match u with
  | Ok (Done _) => Ok (Done (Some <$> snapshots))
  | Ok (More _) => Ok (More (Some <$> snapshots))
  | Raise e => Raise e
  end.

(** Lines 49 and 60 of two_balls_bounce.py, lines 52 and 57 of
    two_balls_cross.py: the value of [current_time] on entry to iteration
    [i], 0.0 with [time_step] added [i] times. *)
Definition clock {F : Type} `{Arith F} (time_step : F) (i : nat) : F :=
  Nat.iter i (fun current_time => fadd current_time time_step) lit_zero.

(** The result that ends as [u] and carries the list [l]. *)
Definition carrying {A : Type} (l : A) (u : result (run unit)) : result (run A) :=
  match u with
  | Ok (Done _) => Ok (Done l)
  | Ok (More _) => Ok (More l)
  | Raise e => Raise e
  end.

(** Whether, in what a caller sees of a call, every recorded ball is below
    the wall (the test [x >= wall_x_position] fails on it). *)
Definition all_below {F : Type} `{Arith F} (wall_x_position : F)
    (o : result (run (list (option (ndarray F))))) : bool :=
  match o with
  | Ok (Done l) | Ok (More l) =>
      forallb (fun x => match x with
                        | Some P => forallb (fun p => negb (fge p.1.1 wall_x_position)) P
                        | None => true
                        end) l
  | Raise _ => true
  end.

(** The arrays of [main] in two_balls_cross.py, as the caller's store. *)
Definition cross_main_store : store float :=
  [ [ ((-1)%float, 0%float, 0%float); (1%float, 0%float, 0%float) ];
    [ (0.3%float, 0.3%float, 0%float); ((-0.3)%float, 0.3%float, 0%float) ] ].

(** A caller's store whose velocities (reference 1) have one row fewer
    than its positions (reference 0). *)
Definition short_velocities_store : store float :=
  [ [ ((-10)%float, 0%float, 0%float); ((-8)%float, 1.5%float, 0%float) ];
    [ (25%float, 0%float, 0%float) ] ].

(** A caller's store with three position rows and two velocity rows. *)
Definition mismatched_store : store float :=
  [ [ ((-1)%float, 0%float, 0%float); (1%float, 0%float, 0%float);
      (0%float, 1%float, 0%float) ];
    [ (0.3%float, 0.3%float, 0%float); ((-0.3)%float, 0.3%float, 0%float) ] ].

(** ** The drawing code: operations, NumPy values, elementwise arithmetic *)

(** Operations and literals of the drawing code that [Arith] does not
    have. *)
Class Elementary (F : Type) : Type := {
  fsub : F -> F -> F;
  np_sin : F -> F;              (* np.sin *)
  np_cos : F -> F;              (* np.cos *)
  of_int : Z -> F;              (* a Python int used as a float *)
  lit_quarter : F;              (* 0.25 *)
  lit_ten : F;                  (* 10.0 *)
}.

(** Exact real arithmetic. *)
#[export] Instance exact_elementary : Elementary R := {|
  fsub := Rminus;
  np_sin := sin;
  np_cos := cos;
  of_int := IZR;
  lit_quarter := (1 / 4)%R;
  lit_ten := 10%R;
|}.

(** Sequencing of fallible steps. *)
Definition and_then {A B : Type} (r : result A) (k : A -> result B) : result B :=
  match r with
  | Ok a => k a
  | Raise e => Raise e
  end.

Declare Scope result_scope.
Delimit Scope result_scope with res.
Notation "x <- m ;; k" := (and_then m (fun x => k))
  (at level 100, m at next level, right associativity) : result_scope.

(** [for x in l] collecting the results of a fallible body. *)
Fixpoint collect {A B : Type} (body : A -> result B) (l : list A) : result (list B) :=
  match l with
  | [] => Ok []
  | x :: l' =>
      match body x with
      | Raise e => Raise e
      | Ok y => match collect body l' with
                | Raise e => Raise e
                | Ok ys => Ok (y :: ys)
                end
      end
  end.

(** A NumPy operand of [rotate_xy]: a scalar, or an array of one
    dimension. *)
Inductive np_value (F : Type) : Type :=
| Scalar (x : F)
| Array1 (l : list F).
Arguments Scalar {F} x.
Arguments Array1 {F} l.

(** Two-dimensional arrays, as lists of rows. *)
Abbreviation grid F := (list (list F)).

Section Elementwise.
Context {F : Type} `{Arith F} `{Elementary F}.
Local Open Scope arith_scope.

(** A unary ufunc. *)
Definition ufunc1 (f : F -> F) (a : np_value F) : np_value F :=
  match a with
  | Scalar x => Scalar (f x)
  | Array1 l => Array1 (f <$> l)
  end.

(** A binary ufunc, with NumPy's broadcasting: a scalar goes with
    anything; two arrays need equal lengths, or one of them of length 1. *)
Definition ufunc2 (f : F -> F -> F) (a b : np_value F) : result (np_value F) :=
  match a, b with
  | Scalar x, Scalar y => Ok (Scalar (f x y))
  | Scalar x, Array1 m => Ok (Array1 (f x <$> m))
  | Array1 l, Scalar y => Ok (Array1 ((fun x => f x y) <$> l))
  | Array1 l, Array1 m =>
      if (length l =? length m)%nat then Ok (Array1 (zip_with f l m))
      else match l, m with
           | [x], _ => Ok (Array1 (f x <$> m))
           | _, [y] => Ok (Array1 ((fun x => f x y) <$> l))
           | _, _ => Raise ValueError
           end
  end.

(** [a[index]], for [index >= 0]. *)
Definition np_item (a : np_value F) (index : nat) : result F :=
  match a with
  | Scalar _ => Raise IndexError
  | Array1 l => match l !! index with
                | Some x => Ok x
                | None => Raise IndexError
                end
  end.

(** [a[:stop]], for [stop >= 0]. *)
Definition np_prefix (a : np_value F) (stop : nat) : result (list F) :=
  match a with
  | Scalar _ => Raise IndexError
  | Array1 l => Ok (take stop l)
  end.

(** [np.linspace(start, stop, num)] with the end point included: [num]
    evenly spaced samples, the last one set to [stop] itself; a negative
    [num] raises ValueError. *)
Definition np_linspace (start stop : F) (num : Z) : result (list F) :=
  if (num <? 0)%Z then Raise ValueError
  else
    let div := (num - 1)%Z in
    let delta := fsub stop start in
    let y := (fun i => of_int (Z.of_nat i)) <$> seq 0 (Z.to_nat num) in
    let y :=
      if (0 <? div)%Z then
        let step := delta / of_int div in
        if is_zero step then (fun v => v / of_int div * delta) <$> y
        else (fun v => v * step) <$> y
      else (fun v => v * delta) <$> y in
    let y := (fun v => v + start) <$> y in
    Ok (if (1 <? num)%Z then <[(Z.to_nat num - 1)%nat := stop]> y else y).

(** [np.meshgrid(a, b, indexing="ij")]: both grids have one row per
    element of [a] and one column per element of [b]. *)
Definition np_meshgrid (a b : list F) : grid F * grid F :=
  ((fun x => (fun _ => x) <$> b) <$> a, (fun _ => b) <$> a).

Definition grid_map (f : F -> F) (g : grid F) : grid F :=
  (fun r : list F => f <$> r) <$> g.

Definition grid_zip (f : F -> F -> F) (a b : grid F) : grid F :=
  zip_with (zip_with f) a b.

End Elementwise.

(** ** birthday_station.py: [rotate_xy], the rotating frame, the ring *)

Module Rotating.

(** The value [simulate] returns: the three arrays of
    [Station.trajectory], and the arrays under "x_rotating" and
    "y_rotating". *)
Record frames (F : Type) : Type := {
  inertial : Station.trajectory F;
  x_rotating : np_value F;
  y_rotating : np_value F;
}.
Arguments inertial {F} f.
Arguments x_rotating {F} f.
Arguments y_rotating {F} f.

(** The value [station_ring_points] returns. *)
Record ring (F : Type) : Type := {
  inner_x : list F;
  inner_y : list F;
  outer_x : list F;
  outer_y : list F;
  angles : list F;
}.
Arguments inner_x {F} r.
Arguments inner_y {F} r.
Arguments outer_x {F} r.
Arguments outer_y {F} r.
Arguments angles {F} r.

Section RotateXY.
Context {F : Type} `{Arith F} `{Elementary F}.
Local Open Scope arith_scope.
Local Open Scope result_scope.

Definition rotate_xy (x_coordinates y_coordinates angle_radians : np_value F)
    : result (np_value F * np_value F) :=
  let cosine := ufunc1 np_cos angle_radians in
  let sine := ufunc1 np_sin angle_radians in
  cx <- ufunc2 fmul cosine x_coordinates ;;
  sy <- ufunc2 fmul sine y_coordinates ;;
  rotated_x <- ufunc2 fsub cx sy ;;
  sx <- ufunc2 fmul sine x_coordinates ;;
  cy <- ufunc2 fmul cosine y_coordinates ;;
  rotated_y <- ufunc2 fadd sx cy ;;
  Ok (rotated_x, rotated_y).

(** [simulate] in full: the loop of [Station.simulate], then lines 78-94. *)
Definition simulate (angular_speed inner_radius release_height : F)
    (initial_velocity : F * F) (time_step : option F) (max_steps : Z)
    : result (frames F) :=
  tr <- Station.simulate angular_speed inner_radius release_height
          initial_velocity time_step max_steps ;;
  angle <- ufunc2 fmul (Scalar (- angular_speed)) (Array1 (Station.time tr)) ;;
  rotating <- rotate_xy (Array1 (Station.x_inertial tr))
                (Array1 (Station.y_inertial tr)) angle ;;
  Ok {| inertial := tr; x_rotating := rotating.1; y_rotating := rotating.2 |}.

Definition station_ring_points (inner_radius thickness : F) (number_of_points : Z)
    : result (ring F) :=
  angles <- np_linspace lit_zero (lit_two * np_pi) number_of_points ;;
  let inner_x := (fun a => inner_radius * np_cos a) <$> angles in
  let inner_y := (fun a => inner_radius * np_sin a) <$> angles in
  let outer_radius := inner_radius + thickness in
  let outer_x := (fun a => outer_radius * np_cos a) <$> angles in
  let outer_y := (fun a => outer_radius * np_sin a) <$> angles in
  Ok {| inner_x := inner_x; inner_y := inner_y;
        outer_x := outer_x; outer_y := outer_y; angles := angles |}.

End RotateXY.
End Rotating.

(** ** The two-ball scripts: sphere meshes, the wall, the figures *)

Module Figure.

(** The geometry of a [go.Surface]: its x, y and z grids. *)
Record surface (F : Type) : Type := {
  surface_x : grid F;
  surface_y : grid F;
  surface_z : grid F;
}.
Arguments surface_x {F} s.
Arguments surface_y {F} s.
Arguments surface_z {F} s.

(** The geometry of a [go.Mesh3d]: vertex coordinates and, per triangle,
    the indices of its three vertices. *)
Record mesh3d (F : Type) : Type := {
  x_vertices : list F;
  y_vertices : list F;
  z_vertices : list F;
  i_indices : list nat;
  j_indices : list nat;
  k_indices : list nat;
}.
Arguments x_vertices {F} m.
Arguments y_vertices {F} m.
Arguments z_vertices {F} m.
Arguments i_indices {F} m.
Arguments j_indices {F} m.
Arguments k_indices {F} m.

(** A [go.Frame]: its traces, and its name, the decimal string of
    [frame_name]. *)
Record frame (F : Type) : Type := {
  frame_data : list (surface F);
  frame_name : nat;
}.
Arguments frame_data {F} f.
Arguments frame_name {F} f.

Inductive trace (F : Type) : Type :=
| Surface (s : surface F)
| Mesh3d (m : mesh3d F).
Arguments Surface {F} s.
Arguments Mesh3d {F} m.

(** A [go.Figure]: its traces and its frames. *)
Record figure (F : Type) : Type := {
  figure_data : list (trace F);
  figure_frames : list (frame F);
}.
Arguments figure_data {F} f.
Arguments figure_frames {F} f.

Section Build.
Context {F : Type} `{Arith F} `{Elementary F}.
Local Open Scope arith_scope.
Local Open Scope result_scope.

(** The same body in two_balls_bounce.py, two_balls_cross.py and ball.py. *)
Definition generate_sphere_mesh (center_x center_y center_z radius : F)
    (number_of_latitudes number_of_longitudes : Z) : result (surface F) :=
  phi_angles <- np_linspace lit_zero np_pi number_of_latitudes ;;
  theta_angles <- np_linspace lit_zero (lit_two * np_pi) number_of_longitudes ;;
  let '(phi_grid, theta_grid) := np_meshgrid phi_angles theta_angles in
  let x_coordinates :=
    grid_map (fadd center_x)
      (grid_zip fmul (grid_map (fmul radius) (grid_map np_sin phi_grid))
         (grid_map np_cos theta_grid)) in
  let y_coordinates :=
    grid_map (fadd center_y)
      (grid_zip fmul (grid_map (fmul radius) (grid_map np_sin phi_grid))
         (grid_map np_sin theta_grid)) in
  let z_coordinates :=
    grid_map (fadd center_z) (grid_map (fmul radius) (grid_map np_cos phi_grid)) in
  Ok {| surface_x := x_coordinates;
        surface_y := y_coordinates;
        surface_z := z_coordinates |}.

(** two_balls_bounce.py.  The opacity and the colour are passed on to
    Plotly and are not part of the geometry. *)
Definition build_wall_box_trace
    (wall_center_x wall_center_y wall_center_z thickness_x height_y depth_z : F)
    : mesh3d F :=
  let half_thickness_x := thickness_x / lit_two in
  let half_height_y := height_y / lit_two in
  let half_depth_z := depth_z / lit_two in
  let x_min := fsub wall_center_x half_thickness_x in
  let x_max := wall_center_x + half_thickness_x in
  let y_min := fsub wall_center_y half_height_y in
  let y_max := wall_center_y + half_height_y in
  let z_min := fsub wall_center_z half_depth_z in
  let z_max := wall_center_z + half_depth_z in
  {| x_vertices := [x_min; x_max; x_max; x_min; x_min; x_max; x_max; x_min];
     y_vertices := [y_min; y_min; y_max; y_max; y_min; y_min; y_max; y_max];
     z_vertices := [z_min; z_min; z_min; z_min; z_max; z_max; z_max; z_max];
     i_indices := [0; 0; 1; 1; 4; 4; 5; 5; 0; 0; 2; 2]%nat;
     j_indices := [1; 2; 2; 3; 5; 6; 6; 7; 4; 7; 6; 3]%nat;
     k_indices := [2; 3; 3; 0; 6; 7; 7; 4; 7; 3; 3; 6]%nat |}.

(** The frames both [build_animation_figure] build: for every recorded
    array, one sphere per ball, with the default 24 latitudes and 48
    longitudes. *)
Definition frame_traces (ball_radius : F) (positions : ndarray F)
    : result (list (surface F)) :=
  collect (fun p => generate_sphere_mesh p.1.1 p.1.2 p.2 ball_radius 24 48) positions.

Fixpoint build_frames (ball_radius : F) (frame_index : nat)
    (positions_over_time : list (ndarray F)) : result (list (frame F)) :=
  match positions_over_time with
  | [] => Ok []
  | positions :: rest =>
      traces <- frame_traces ball_radius positions ;;
      frames <- build_frames ball_radius (S frame_index) rest ;;
      Ok ({| frame_data := traces; frame_name := frame_index |} :: frames)
  end.

(** [frames[0]] *)
Definition first_frame (frames : list (frame F)) : result (frame F) :=
  match frames with
  | [] => Raise IndexError
  | f :: _ => Ok f
  end.

End Build.
End Figure.

Module BounceFigure.
Section Build.
Context {F : Type} `{Arith F} `{Elementary F}.
Local Open Scope result_scope.

(** two_balls_bounce.py *)
Definition build_animation_figure (positions_over_time : list (ndarray F))
    (ball_radius wall_x_position : F) : result (Figure.figure F) :=
  frames <- Figure.build_frames ball_radius 0 positions_over_time ;;
  initial <- Figure.first_frame frames ;;
  let wall_box_trace :=
    Figure.build_wall_box_trace wall_x_position lit_zero lit_zero
      lit_quarter lit_ten lit_ten in
  Ok {| Figure.figure_data :=
          (Figure.Surface <$> Figure.frame_data initial) ++ [Figure.Mesh3d wall_box_trace];
        Figure.figure_frames := frames |}.

End Build.
End BounceFigure.

Module CrossFigure.
Section Build.
Context {F : Type} `{Arith F} `{Elementary F}.
Local Open Scope result_scope.

(** two_balls_cross.py *)
Definition build_animation_figure (positions_over_time : list (ndarray F))
    (ball_radius : F) : result (Figure.figure F) :=
  frames <- Figure.build_frames ball_radius 0 positions_over_time ;;
  initial <- Figure.first_frame frames ;;
  Ok {| Figure.figure_data := Figure.Surface <$> Figure.frame_data initial;
        Figure.figure_frames := frames |}.

End Build.
End CrossFigure.

(** ** Notions used in the statements about the drawing code *)

(** The angle [rotate_xy] uses for element [i], and whether an angle
    operand goes with arrays of [n] elements. *)
Definition angle_at {F : Type} (angle : np_value F) (i : nat) : option F :=
  match angle with
  | Scalar a => Some a
  | Array1 l => l !! i
  end.

Definition goes_with {F : Type} (n : nat) (angle : np_value F) : Prop :=
  match angle with
  | Scalar _ => True
  | Array1 l => length l = n
  end.

(** Element (i, j) of a grid, and the point (i, j) of a surface. *)
Definition grid_at {F : Type} (g : grid F) (i j : nat) : option F :=
  match g !! i with
  | Some r => r !! j
  | None => None
  end.

Definition surface_point {F : Type} (s : Figure.surface F) (i j : nat) : option (row F) :=
  match grid_at (Figure.surface_x s) i j, grid_at (Figure.surface_y s) i j,
        grid_at (Figure.surface_z s) i j with
  | Some x, Some y, Some z => Some (x, y, z)
  | _, _, _ => None
  end.

(** The shape of a grid: [rows] rows of [columns] elements. *)
Definition has_shape {F : Type} (rows columns : nat) (g : grid F) : Prop :=
  length g = rows /\ Forall (fun r => length r = columns) g.

(** Vertex [n] of a mesh, and its triangles as triples of vertex
    indices. *)
Definition vertex {F : Type} (m : Figure.mesh3d F) (n : nat) : option (row F) :=
  match Figure.x_vertices m !! n, Figure.y_vertices m !! n, Figure.z_vertices m !! n with
  | Some x, Some y, Some z => Some (x, y, z)
  | _, _, _ => None
  end.

Definition triangles {F : Type} (m : Figure.mesh3d F) : list (nat * nat * nat) :=
  zip (zip (Figure.i_indices m) (Figure.j_indices m)) (Figure.k_indices m).

(** The squared distance of two points. *)
Definition squared_distance (p q : row R) : R :=
  ((p.1.1 - q.1.1) * (p.1.1 - q.1.1) + (p.1.2 - q.1.2) * (p.1.2 - q.1.2)
   + (p.2 - q.2) * (p.2 - q.2))%R.

(** The three corners of a triangle of a mesh. *)
Definition triangle_corners {F : Type} (m : Figure.mesh3d F) (t : nat * nat * nat)
    : option (row F * row F * row F) :=
  match vertex m t.1.1, vertex m t.1.2, vertex m t.2 with
  | Some a, Some b, Some c => Some (a, b, c)
  | _, _, _ => None
  end.

(** ** birthday_station.py: [build_figure] *)

Module StationFigure.

(** The data of a [go.Scatter]. *)
Record scatter (F : Type) : Type := {
  scatter_x : np_value F;
  scatter_y : np_value F;
}.
Arguments scatter_x {F} s.
Arguments scatter_y {F} s.

(** A [go.Frame]: its eight traces, and its name, the decimal string of
    [frame_name]. *)
Record frame (F : Type) : Type := {
  frame_data : list (scatter F);
  frame_name : nat;
}.
Arguments frame_data {F} f.
Arguments frame_name {F} f.

(** What [build_figure] puts into the figure: the initial traces, the
    frames, and the frame each slider step names.  Titles, sizes, axis
    ranges and buttons are constants of the layout. *)
Record figure (F : Type) : Type := {
  figure_data : list (scatter F);
  figure_frames : list (frame F);
  slider_steps : list nat;
}.
Arguments figure_data {F} f.
Arguments figure_frames {F} f.
Arguments slider_steps {F} f.

(** [range(start, stop, step)] for [start <= stop] and [step >= 0]. *)
Definition py_range (start stop step : nat) : result (list nat) :=
  match step with
  | O => Raise ValueError
  | S _ => Ok ((fun i => start + i * step)%nat
               <$> seq 0 ((stop - start + step - 1) / step))
  end.

Section BuildFigure.
Context {F : Type} `{Arith F} `{Elementary F}.
Local Open Scope arith_scope.
Local Open Scope result_scope.

(** [a[index]] on the array made of a list. *)
Definition item (a : list F) (index : nat) : result F :=
  np_item (Array1 a) index.

(** The eight traces at [frame_index]: lines 180-196 for a frame.  The
    initial traces of lines 124-174 are these at index 0: their one-point
    trails are written [[x[0]]], the value of [x[:1]]. *)
Definition traces_at (angular_speed : F) (sim : Rotating.frames F)
    (ring : Rotating.ring F) (frame_index : nat) : result (list (scatter F)) :=
  let times := Station.time (Rotating.inertial sim) in
  let x_inertial := Station.x_inertial (Rotating.inertial sim) in
  let y_inertial := Station.y_inertial (Rotating.inertial sim) in
  t <- item times frame_index ;;
  inner <- Rotating.rotate_xy (Array1 (Rotating.inner_x ring))
             (Array1 (Rotating.inner_y ring)) (Scalar (angular_speed * t)) ;;
  t <- item times frame_index ;;
  outer <- Rotating.rotate_xy (Array1 (Rotating.outer_x ring))
             (Array1 (Rotating.outer_y ring)) (Scalar (angular_speed * t)) ;;
  x <- item x_inertial frame_index ;;
  y <- item y_inertial frame_index ;;
  trail_x <- np_prefix (Array1 x_inertial) (frame_index + 1) ;;
  trail_y <- np_prefix (Array1 y_inertial) (frame_index + 1) ;;
  x' <- np_item (Rotating.x_rotating sim) frame_index ;;
  y' <- np_item (Rotating.y_rotating sim) frame_index ;;
  trail_x' <- np_prefix (Rotating.x_rotating sim) (frame_index + 1) ;;
  trail_y' <- np_prefix (Rotating.y_rotating sim) (frame_index + 1) ;;
  Ok [ {| scatter_x := inner.1; scatter_y := inner.2 |};
       {| scatter_x := outer.1; scatter_y := outer.2 |};
       {| scatter_x := Array1 [x]; scatter_y := Array1 [y] |};
       {| scatter_x := Array1 trail_x; scatter_y := Array1 trail_y |};
       {| scatter_x := Array1 (Rotating.inner_x ring);
          scatter_y := Array1 (Rotating.inner_y ring) |};
       {| scatter_x := Array1 (Rotating.outer_x ring);
          scatter_y := Array1 (Rotating.outer_y ring) |};
       {| scatter_x := Array1 [x']; scatter_y := Array1 [y'] |};
       {| scatter_x := Array1 trail_x'; scatter_y := Array1 trail_y' |} ].

Definition build_figure (angular_speed inner_radius release_height thickness : F)
    (v_init : F * F) : result (figure F) :=
  sim <- Rotating.simulate angular_speed inner_radius release_height v_init
           None 20000 ;;
  ring <- Rotating.station_ring_points inner_radius thickness 400 ;;
  let times := Station.time (Rotating.inertial sim) in
  initial <- traces_at angular_speed sim ring 0 ;;
  frames <- collect (fun frame_index =>
                       data <- traces_at angular_speed sim ring frame_index ;;
                       Ok {| frame_data := data; frame_name := frame_index |})
              (seq 0 (length times)) ;;
  steps <- py_range 0 (length times) (Nat.max 1 (length times / 100)) ;;
  Ok {| figure_data := initial; figure_frames := frames; slider_steps := steps |}.

End BuildFigure.
End StationFigure.

(** The points a scatter trace draws, and the points at distance [|c|]
    from the origin. *)
Definition points {F : Type} (s : StationFigure.scatter F) : list (F * F) :=
  match StationFigure.scatter_x s, StationFigure.scatter_y s with
  | Array1 xs, Array1 ys => zip xs ys
  | _, _ => []
  end.

Definition on_circle (c : R) (pts : list (R * R)) : Prop :=
  Forall (fun p => (p.1 * p.1 + p.2 * p.2 = c * c)%R) pts.

(** What the eight traces at index [i] of a run [tr] show: the two
    circles of the ring, 400 points each, in both panels; the ball at the
    [i]-th recorded position in the inertial panel and, at the same
    distance from the axis, in the rotating panel; and the two trails up
    to index [i]. *)
Definition shows_run (inner_radius thickness : R) (tr : Station.trajectory R) (i : nat)
    (data : list (StationFigure.scatter R)) : Prop :=
  exists inner outer ball trail inner' outer' ball' trail',
    data = [inner; outer; ball; trail; inner'; outer'; ball'; trail'] /\
    length (points inner) = 400%nat /\ on_circle inner_radius (points inner) /\
    length (points outer) = 400%nat /\
    on_circle (inner_radius + thickness) (points outer) /\
    length (points inner') = 400%nat /\ on_circle inner_radius (points inner') /\
    length (points outer') = 400%nat /\
    on_circle (inner_radius + thickness) (points outer') /\
    (exists x y t x' y',
       Station.entry tr i = Some (x, y, t) /\
       points ball = [(x, y)] /\ points ball' = [(x', y')] /\
       np_hypot x' y' = np_hypot x y) /\
    points trail = take (S i) (zip (Station.x_inertial tr) (Station.y_inertial tr)) /\
    length (points trail') = S i.

(** The state [i] steps after the release when nothing is in the way: the
    straight line of the free flight, in exact arithmetic. *)
Definition unclamped (inner_radius release_height : R) (velocity : R * R)
    (time_step : R) (i : nat) : R * R * R :=
  ((INR i * (velocity.1 * time_step))%R,
   (- inner_radius + release_height + INR i * (velocity.2 * time_step))%R,
   (INR i * time_step)%R).

(** ** birthday_station.py: [build_velocity_selector_figure] *)

(** [==] on the numbers used as dictionary keys. *)
Class Equality (F : Type) : Type := {
  feq : F -> F -> bool;
}.

#[export] Instance exact_equality : Equality R := {|
  feq := fun a b => if Req_dec_T a b then true else false;
|}.

Module VelocitySelector.

(** How a call ends: the exceptions of [exn], and KeyError. *)
Inductive outcome (A : Type) : Type :=
| Returned (a : A)
| Raised (e : exn)
| RaisedKeyError.
Arguments Returned {A} a.
Arguments Raised {A} e.
Arguments RaisedKeyError {A}.

Section Build.
Context {F : Type} `{Arith F} `{Elementary F} `{Equality F}.

(** The default [-6, -4, -2, 0, 2, 4, 6]. *)
Definition default_values : list F :=
  of_int <$> [-6; -4; -2; 0; 2; 4; 6]%Z.

(** The dictionary [prebuilt]: its items in insertion order; a later item
    with an equal key replaces an earlier one. *)
Definition key_equal (k k' : F * F) : bool := feq k.1 k'.1 && feq k.2 k'.2.

Definition dict_get {A : Type} (d : list (F * F * A)) (k : F * F) : option A :=
  match find (fun item => key_equal item.1 k) (rev d) with
  | Some item => Some item.2
  | None => None
  end.

(** [for vx in vx_values: for vy in vy_values], in order. *)
Definition velocity_pairs (vx_values vy_values : list F) : list (F * F) :=
  vx ← vx_values; (fun vy => (vx, vy)) <$> vy_values.

(** The loop of lines 302-304: one lookup per [vx]. *)
Fixpoint vx_buttons {A : Type} (prebuilt : list (F * F * A)) (vx_values : list F)
    (vy0 : F) : option (list A) :=
  match vx_values with
  | [] => Some []
  | vx :: rest =>
      match dict_get prebuilt (vx, vy0) with
      | None => None
      | Some payload =>
          match vx_buttons prebuilt rest vy0 with
          | None => None
          | Some buttons => Some (payload :: buttons)
          end
      end
  end.

(** The figure returned is the one built first; the annotation added to
    it is a constant of the layout. *)
Definition build_velocity_selector_figure
    (angular_speed inner_radius release_height thickness : F)
    (vx_values vy_values : option (list F)) : outcome (StationFigure.figure F) :=
  let vx_values := match vx_values with None => default_values | Some l => l end in
  let vy_values := match vy_values with None => default_values | Some l => l end in
  match vx_values !! (length vx_values / 2)%nat with
  | None => Raised IndexError
  | Some vx0 =>
      match vy_values !! (length vy_values / 2)%nat with
      | None => Raised IndexError
      | Some vy0 =>
          match StationFigure.build_figure angular_speed inner_radius release_height
                  thickness (vx0, vy0) with
          | Raise e => Raised e
          | Ok fig =>
              match collect (fun v =>
                               and_then
                                 (StationFigure.build_figure angular_speed inner_radius
                                    release_height thickness v)
                                 (fun built => Ok (v, built)))
                      (velocity_pairs vx_values vy_values) with
              | Raise e => Raised e
              | Ok prebuilt =>
                  match vx_buttons prebuilt vx_values vy0 with
                  | None => RaisedKeyError
                  | Some _ => Returned fig
                  end
              end
          end
      end
  end.

End Build.
End VelocitySelector.


(** * Properties *)

(** ** birthday_station.py: the loop and the recorded list *)

Module StationFacts.
Import Station.

Section Generic.
Context {F : Type} `{Arith F}.
Local Open Scope arith_scope.

Lemma loop_entries inner_radius velocity time_step remaining st :
  let es := entries inner_radius velocity time_step remaining
              (current_x st, current_y st, current_time st) in
  let st' := loop inner_radius velocity.1 velocity.2 time_step remaining st in
  x_positions st' = x_positions st ++ ((fun e => e.1.1) <$> es) /\
  y_positions st' = y_positions st ++ ((fun e => e.1.2) <$> es) /\
  times st' = times st ++ ((fun e => e.2) <$> es).
Proof.
  revert st. induction remaining as [|k IH]; intros st; cbn zeta.
  - cbn. rewrite !app_nil_r. auto.
  - cbn [loop entries]. unfold radius_of, advance, clamp. cbn [fst snd].
    destruct (np_hypot _ _ >=? inner_radius).
    + cbn. auto.
    + match goal with |- context [loop _ _ _ _ k ?s] => specialize (IH s) end.
      cbn zeta in IH.
      cbn [x_positions y_positions times current_x current_y current_time] in IH.
      destruct IH as (Hx & Hy & Ht). rewrite Hx, Hy, Ht.
      rewrite !fmap_cons, <- !app_assoc. cbn [app]. auto.
Qed.

Lemma simulate_recorded angular_speed inner_radius release_height initial_velocity
    time_step dt max_steps :
  time_step_or_default angular_speed time_step = Ok dt ->
  let es := recorded inner_radius release_height initial_velocity dt max_steps in
  simulate angular_speed inner_radius release_height initial_velocity
    time_step max_steps
  = Ok {| time := ((fun e => e.2) <$> es);
          x_inertial := ((fun e => e.1.1) <$> es);
          y_inertial := ((fun e => e.1.2) <$> es) |}.
Proof.
  intros Hdt. cbn zeta. unfold simulate, recorded. rewrite Hdt.
  destruct initial_velocity as [vx vy].
  match goal with |- context [loop ?a vx vy ?d ?n ?s] =>
    pose proof (loop_entries a (vx, vy) d n s) as Hl end.
  cbn zeta in Hl.
  cbn [x_positions y_positions times current_x current_y current_time fst snd] in Hl.
  destruct Hl as (Hx & Hy & Ht). rewrite Hx, Hy, Ht. reflexivity.
Qed.

Lemma entry_recorded angular_speed inner_radius release_height initial_velocity
    time_step dt max_steps tr i :
  time_step_or_default angular_speed time_step = Ok dt ->
  simulate angular_speed inner_radius release_height initial_velocity
    time_step max_steps = Ok tr ->
  entry tr i
  = recorded inner_radius release_height initial_velocity dt max_steps !! i.
Proof.
  intros Hdt Hs. rewrite (simulate_recorded _ _ _ _ _ _ _ Hdt) in Hs.
  cbn zeta in Hs. set (es := recorded _ _ _ _ _) in *. clearbody es.
  injection Hs as <-. unfold entry, x_inertial, y_inertial, time.
  rewrite !list_lookup_fmap.
  destruct (es !! i) as [[[x y] t]|]; reflexivity.
Qed.

Lemma time_recorded angular_speed inner_radius release_height initial_velocity
    time_step dt max_steps tr :
  time_step_or_default angular_speed time_step = Ok dt ->
  simulate angular_speed inner_radius release_height initial_velocity
    time_step max_steps = Ok tr ->
  time tr = ((fun e => e.2) <$>
              recorded inner_radius release_height initial_velocity dt max_steps)
  /\ length (x_inertial tr) = length (time tr)
  /\ length (y_inertial tr) = length (time tr).
Proof.
  intros Hdt Hs. rewrite (simulate_recorded _ _ _ _ _ _ _ Hdt) in Hs.
  cbn zeta in Hs. set (es := recorded _ _ _ _ _) in *. clearbody es.
  injection Hs as <-. unfold x_inertial, y_inertial, time.
  rewrite !length_fmap. auto.
Qed.

(** *** Shape of the recorded list *)

Lemma entries_length inner_radius velocity time_step remaining s :
  (length (entries inner_radius velocity time_step remaining s) <= remaining)%nat.
Proof.
  revert s. induction remaining as [|k IH]; intros s; cbn [entries]; [cbn; lia|].
  cbn zeta. destruct (_ >=? _); cbn [length]; [lia|].
  specialize (IH (advance velocity time_step s)). lia.
Qed.

(** Every recorded state but the first comes from its predecessor by one
    loop iteration: the advance, then the radial test on the advanced
    position, then either the plain append or the clamp, append and
    [break]. *)
Lemma entries_step inner_radius velocity time_step remaining s i e e' :
  (s :: entries inner_radius velocity time_step remaining s) !! i = Some e ->
  (s :: entries inner_radius velocity time_step remaining s) !! S i = Some e' ->
  let a := advance velocity time_step e in
  ((radius_of a >=? inner_radius) = false /\ e' = a) \/
  ((radius_of a >=? inner_radius) = true /\ e' = clamp inner_radius a /\
   length (s :: entries inner_radius velocity time_step remaining s) = S (S i)).
Proof.
  revert s i. induction remaining as [|k IH]; intros s i; cbn [entries].
  - intros _ H'. destruct i; discriminate H'.
  - cbn zeta. destruct (radius_of _ >=? inner_radius) eqn:Ht.
    + destruct i as [|i]; cbn.
      * intros [= <-] [= <-]. right. rewrite Ht. auto.
      * intros _ H'. destruct i; discriminate H'.
    + destruct i as [|i].
      * cbn. intros [= <-] [= <-]. left. rewrite Ht. auto.
      * intros He He'.
        change ((advance velocity time_step s
                 :: entries inner_radius velocity time_step k
                      (advance velocity time_step s)) !! i = Some e) in He.
        change ((advance velocity time_step s
                 :: entries inner_radius velocity time_step k
                      (advance velocity time_step s)) !! S i = Some e') in He'.
        destruct (IH _ _ He He') as [?|(? & ? & Hl)]; [left; assumption|].
        right. split; [assumption|]. split; [assumption|].
        cbn [length] in *. lia.
Qed.

Lemma recorded_length inner_radius release_height initial_velocity dt max_steps :
  (1 <= length (recorded inner_radius release_height initial_velocity dt max_steps)
   <= Z.to_nat max_steps + 1)%nat.
Proof.
  unfold recorded. cbn [length].
  pose proof (entries_length inner_radius initial_velocity dt (Z.to_nat max_steps)
                (initial_state inner_radius release_height)).
  lia.
Qed.

Lemma recorded_step inner_radius release_height initial_velocity dt max_steps i e e' :
  recorded inner_radius release_height initial_velocity dt max_steps !! i = Some e ->
  recorded inner_radius release_height initial_velocity dt max_steps !! S i = Some e' ->
  let a := advance initial_velocity dt e in
  ((radius_of a >=? inner_radius) = false /\ e' = a) \/
  ((radius_of a >=? inner_radius) = true /\ e' = clamp inner_radius a /\
   length (recorded inner_radius release_height initial_velocity dt max_steps) = S (S i)).
Proof. apply entries_step. Qed.

Lemma recorded_time_succ inner_radius release_height initial_velocity dt max_steps i e' :
  recorded inner_radius release_height initial_velocity dt max_steps !! S i = Some e' ->
  exists e,
    recorded inner_radius release_height initial_velocity dt max_steps !! i = Some e /\
    e'.2 = e.2 + dt.
Proof.
  intros He'.
  destruct (lookup_lt_is_Some_2
              (recorded inner_radius release_height initial_velocity dt max_steps) i)
    as [e He].
  { apply lookup_lt_Some in He'. lia. }
  exists e. split; [assumption|].
  destruct (recorded_step _ _ _ _ _ _ _ _ He He') as [[_ ->]|(_ & -> & _)]; reflexivity.
Qed.

End Generic.

(** *** Geometry in exact arithmetic *)

Section Exact.
Local Open Scope R_scope.

Lemma exact_fge_true (a b : R) : fge a b = true <-> a >= b.
Proof. cbn. destruct (Rge_dec a b); split; intros; (done || lra). Qed.

Lemma exact_fge_false (a b : R) : fge a b = false <-> a < b.
Proof. cbn. destruct (Rge_dec a b); split; intros; (done || lra). Qed.

Lemma exact_fle_true (a b : R) : fle a b = true <-> a <= b.
Proof. cbn. destruct (Rle_dec a b); split; intros; (done || lra). Qed.

Lemma exact_radius_of (s : R * R * R) :
  radius_of s = R_sqrt.sqrt (s.1.1 * s.1.1 + s.1.2 * s.1.2).
Proof. reflexivity. Qed.

Lemma exact_radius_nonneg (s : R * R * R) : 0 <= radius_of s.
Proof. rewrite exact_radius_of. apply sqrt_pos. Qed.

Lemma exact_radius_sqr (s : R * R * R) :
  radius_of s * radius_of s = s.1.1 * s.1.1 + s.1.2 * s.1.2.
Proof. rewrite exact_radius_of. apply sqrt_sqrt. nra. Qed.

(** The clamped position lies on the circle of radius [inner_radius]. *)
Lemma exact_clamp_radius (inner_radius : R) (a : R * R * R) :
  0 < inner_radius -> radius_of a >= inner_radius ->
  radius_of (clamp inner_radius a) = inner_radius.
Proof.
  intros HR Hge. pose proof (exact_radius_sqr a) as Hsq.
  rewrite exact_radius_of. unfold clamp. cbn [fst snd fmul fdiv exact].
  set (r := radius_of a) in *.
  replace (inner_radius * a.1.1 / r * (inner_radius * a.1.1 / r)
           + inner_radius * a.1.2 / r * (inner_radius * a.1.2 / r))
    with (inner_radius * inner_radius).
  - apply sqrt_square. lra.
  - transitivity (inner_radius * inner_radius * (a.1.1 * a.1.1 + a.1.2 * a.1.2) / (r * r)).
    + rewrite <- Hsq. field. lra.
    + field. lra.
Qed.



End Exact.
End StationFacts.

(** ** The store *)

Module StoreFacts.
Section Store.
Context {F : Type} `{Arith F}.

Lemma bind_ok {A B : Type} (m : M F A) (k : A -> M F B) h h' a :
  m h = (h', Ok a) -> bind m k h = k a h'.
Proof. unfold bind. intros ->. reflexivity. Qed.

Lemma bind_raise {A B : Type} (m : M F A) (k : A -> M F B) h h' e :
  m h = (h', Raise e) -> bind m k h = (h', Raise e).
Proof. unfold bind. intros ->. reflexivity. Qed.

Lemma copy_value (h : store F) a x :
  h !! a = Some x -> np_copy a h = (h ++ [x], Ok (length h)).
Proof. intros Ha. unfold np_copy, bind, load, alloc. rewrite Ha. reflexivity. Qed.


Lemma layout_positions (h0 : store F) pv snapshots :
  layout h0 pv snapshots !! length h0 = Some pv.1.
Proof. unfold layout. apply list_lookup_middle. reflexivity. Qed.

Lemma layout_velocities (h0 : store F) pv snapshots :
  layout h0 pv snapshots !! S (length h0) = Some pv.2.
Proof.
  unfold layout. rewrite (cons_middle pv.1), app_assoc.
  apply list_lookup_middle. rewrite length_app. cbn. lia.
Qed.

Lemma layout_length (h0 : store F) pv snapshots :
  length (layout h0 pv snapshots) = (length h0 + 2 + length snapshots)%nat.
Proof. unfold layout. rewrite length_app. cbn. lia. Qed.

Lemma layout_set_positions (h0 : store F) pv snapshots x :
  <[length h0 := x]> (layout h0 pv snapshots) = layout h0 (x, pv.2) snapshots.
Proof.
  unfold layout. rewrite insert_app_r_alt by lia.
  rewrite Nat.sub_diag. reflexivity.
Qed.

Lemma layout_set_velocities (h0 : store F) pv snapshots x :
  <[S (length h0) := x]> (layout h0 pv snapshots) = layout h0 (pv.1, x) snapshots.
Proof.
  unfold layout. rewrite insert_app_r_alt by lia.
  replace (S (length h0) - length h0)%nat with 1%nat by lia. reflexivity.
Qed.

Lemma getitem_positions (h0 : store F) pv snapshots index :
  getitem (length h0) index (layout h0 pv snapshots)
  = (layout h0 pv snapshots,
     match pv.1 !! index with Some r => Ok r | None => Raise IndexError end).
Proof.
  unfold getitem, bind, load. rewrite layout_positions.
  destruct (pv.1 !! index); reflexivity.
Qed.

Lemma getitem_velocities (h0 : store F) pv snapshots index :
  getitem (S (length h0)) index (layout h0 pv snapshots)
  = (layout h0 pv snapshots,
     match pv.2 !! index with Some r => Ok r | None => Raise IndexError end).
Proof.
  unfold getitem, bind, load. rewrite layout_velocities.
  destruct (pv.2 !! index); reflexivity.
Qed.

Lemma setitem_positions (h0 : store F) pv snapshots index r :
  (index < length pv.1)%nat ->
  setitem (length h0) index r (layout h0 pv snapshots)
  = (layout h0 (<[index := r]> pv.1, pv.2) snapshots, Ok tt).
Proof.
  intros Hi. unfold setitem, bind, load, write. rewrite layout_positions.
  apply Nat.ltb_lt in Hi. rewrite Hi.
  pose proof (layout_length h0 pv snapshots) as Hl.
  destruct (Nat.ltb_spec (length h0) (length (layout h0 pv snapshots))); [|lia].
  rewrite layout_set_positions. reflexivity.
Qed.

Lemma setitem_velocities (h0 : store F) pv snapshots index r :
  (index < length pv.2)%nat ->
  setitem (S (length h0)) index r (layout h0 pv snapshots)
  = (layout h0 (pv.1, <[index := r]> pv.2) snapshots, Ok tt).
Proof.
  intros Hi. unfold setitem, bind, load, write. rewrite layout_velocities.
  apply Nat.ltb_lt in Hi. rewrite Hi.
  pose proof (layout_length h0 pv snapshots) as Hl.
  destruct (Nat.ltb_spec (S (length h0)) (length (layout h0 pv snapshots))); [|lia].
  rewrite layout_set_velocities. reflexivity.
Qed.

Lemma copy_positions (h0 : store F) pv snapshots :
  np_copy (length h0) (layout h0 pv snapshots)
  = (layout h0 pv (snapshots ++ [pv.1]),
     Ok (length h0 + 2 + length snapshots)%nat).
Proof.
  unfold np_copy, bind, load, alloc. rewrite layout_positions, layout_length.
  unfold layout. rewrite <- app_assoc. reflexivity.
Qed.

Lemma len_positions (h0 : store F) pv snapshots :
  np_len (length h0) (layout h0 pv snapshots)
  = (layout h0 pv snapshots, Ok (length pv.1)).
Proof. unfold np_len, bind, load, ret. rewrite layout_positions. reflexivity. Qed.

End Store.
End StoreFacts.

(** ** two_balls_bounce.py: the program computes the value-level loops *)

Module BounceFacts.
Import StoreFacts Bounce.

Section Refinement.
Context {F : Type} `{Arith F}.
Local Open Scope arith_scope.

Lemma body_values wall_x_position time_step h0 pv snapshots index :
  body wall_x_position time_step (length h0) (S (length h0)) index
    (layout h0 pv snapshots)
  = (layout h0 (body_value wall_x_position time_step index pv).1 snapshots,
     (body_value wall_x_position time_step index pv).2).
Proof.
  destruct pv as [P V]. unfold body, body_value, bind, ret. cbn [fst snd].
  rewrite getitem_positions. cbn [fst snd].
  destruct (P !! index) as [p|] eqn:Hp; [|reflexivity].
  destruct (p.1.1 >=? wall_x_position).
  - rewrite getitem_velocities. cbn [fst snd].
    destruct (V !! index) as [v|] eqn:Hv; [|reflexivity].
    rewrite setitem_velocities by (cbn; eapply lookup_lt_Some; eassumption).
    cbn [fst snd]. rewrite getitem_positions. cbn [fst snd]. rewrite Hp.
    rewrite getitem_velocities. cbn [fst snd].
    rewrite list_lookup_insert_eq by (eapply lookup_lt_Some; eassumption).
    rewrite setitem_positions by (cbn; eapply lookup_lt_Some; eassumption).
    reflexivity.
  - rewrite getitem_positions. cbn [fst snd]. rewrite Hp.
    rewrite getitem_velocities. cbn [fst snd].
    destruct (V !! index) as [v|] eqn:Hv; [|reflexivity].
    rewrite setitem_positions by (cbn; eapply lookup_lt_Some; eassumption).
    reflexivity.
Qed.

Lemma for_values wall_x_position time_step h0 snapshots indices pv :
  for_each (body wall_x_position time_step (length h0) (S (length h0))) indices
    (layout h0 pv snapshots)
  = (layout h0 (for_value wall_x_position time_step indices pv).1 snapshots,
     (for_value wall_x_position time_step indices pv).2).
Proof.
  revert pv. induction indices as [|index indices IH]; intros pv.
  - reflexivity.
  - cbn [for_each for_value]. unfold bind. rewrite body_values.
    destruct (body_value wall_x_position time_step index pv) as [pv' [[]|e]]; cbn [fst snd].
    + apply IH.
    + reflexivity.
Qed.

Lemma while_values wall_x_position time_step stop_time h0 fuel snapshots pv t :
  let w := while_value wall_x_position time_step stop_time fuel snapshots pv t in
  while_loop wall_x_position time_step stop_time fuel
    {| positions_over_time := seq (length h0 + 2) (length snapshots);
       positions := length h0;
       velocities := S (length h0);
       current_time := t |}
    (layout h0 pv snapshots)
  = (layout h0 w.1.2 w.1.1, references (length h0 + 2) (length w.1.1) w.2).
Proof.
  revert snapshots pv t. induction fuel as [|fuel IH]; intros snapshots pv t;
    cbn [while_loop while_value positions_over_time positions velocities current_time];
    cbn zeta; destruct (t <=? stop_time); try reflexivity.
  unfold bind. rewrite copy_positions, len_positions.
  unfold for_range. rewrite for_values. fold (iteration wall_x_position time_step pv).
  destruct (iteration wall_x_position time_step pv) as [pv' [[]|e]]; cbn [fst snd].
  - rewrite <- seq_S. specialize (IH (snapshots ++ [pv.1]) pv' (t + time_step)).
    cbn zeta in IH. rewrite length_app, Nat.add_1_r in IH. exact IH.
  - reflexivity.
Qed.

(** The call, from any store in which the two arguments are arrays: the
    store grows by the two private copies and the snapshots, nothing else
    changes, and the snapshots are the value-level loop's. *)
Lemma simulate_motion_values wall_x_position time_step stop_time fuel
    (h : store F) initial_positions initial_velocities P V :
  h !! initial_positions = Some P ->
  h !! initial_velocities = Some V ->
  let w := while_value wall_x_position time_step stop_time fuel [] (P, V) lit_zero in
  simulate_motion fuel initial_positions initial_velocities
    wall_x_position time_step stop_time h
  = (h ++ w.1.2.1 :: w.1.2.2 :: w.1.1,
     references (length h + 2) (length w.1.1) w.2).
Proof.
  intros HP HV. cbn zeta. unfold simulate_motion, bind.
  rewrite (copy_value _ _ _ HP).
  rewrite (copy_value (h ++ [P]) initial_velocities V)
    by (rewrite lookup_app_l by (eapply lookup_lt_Some; eassumption); exact HV).
  rewrite length_app, Nat.add_1_r, <- app_assoc.
  pose proof (while_values wall_x_position time_step stop_time h fuel [] (P, V) lit_zero)
    as Hw.
  cbn zeta in Hw. unfold layout in Hw. cbn [fst snd length seq app] in Hw |- *.
  exact Hw.
Qed.

End Refinement.

(** *** Arrays of equal length: one iteration is [bounce_ball] on every ball *)

Section Balls.
Context {F : Type} `{Arith F}.
Local Open Scope arith_scope.

Lemma body_value_ball wall_x_position time_step index (P V : ndarray F) p v :
  P !! index = Some p -> V !! index = Some v ->
  body_value wall_x_position time_step index (P, V)
  = (<[index := (bounce_ball wall_x_position time_step (p, v)).1]> P,
     <[index := (bounce_ball wall_x_position time_step (p, v)).2]> V, Ok tt).
Proof.
  intros Hp Hv. unfold body_value, bounce_ball. cbn [fst snd]. rewrite Hp.
  destruct (p.1.1 >=? wall_x_position).
  - rewrite Hv. rewrite list_lookup_insert_eq by (eapply lookup_lt_Some; eassumption).
    reflexivity.
  - rewrite Hv. rewrite (list_insert_id V index v Hv). reflexivity.
Qed.

Lemma for_value_seq wall_x_position time_step count :
  forall first (P V : ndarray F),
    length P = length V -> (first + count <= length P)%nat ->
    exists P' V',
      for_value wall_x_position time_step (seq first count) (P, V) = (P', V', Ok tt) /\
      length P' = length P /\ length V' = length V /\
      (forall i p v, (first <= i < first + count)%nat ->
         P !! i = Some p -> V !! i = Some v ->
         P' !! i = Some (bounce_ball wall_x_position time_step (p, v)).1 /\
         V' !! i = Some (bounce_ball wall_x_position time_step (p, v)).2) /\
      (forall i, ~ (first <= i < first + count)%nat ->
         P' !! i = P !! i /\ V' !! i = V !! i).
Proof.
  induction count as [|count IH]; intros first P V Hlen Hfit.
  - exists P, V. cbn. repeat split; intros; lia || reflexivity.
  - destruct (lookup_lt_is_Some_2 P first) as [p Hp]; [lia|].
    destruct (lookup_lt_is_Some_2 V first) as [v Hv]; [lia|].
    cbn [seq for_value]. rewrite (body_value_ball _ _ _ _ _ _ _ Hp Hv).
    set (b := bounce_ball wall_x_position time_step (p, v)).
    destruct (IH (S first) (<[first := b.1]> P) (<[first := b.2]> V))
      as (P' & V' & Hfor & HlP & HlV & Hin & Hout).
    { rewrite !length_insert. exact Hlen. }
    { rewrite length_insert. lia. }
    exists P', V'. rewrite Hfor. rewrite !length_insert in HlP, HlV.
    split; [reflexivity|]. split; [exact HlP|]. split; [exact HlV|]. split.
    + intros i p0 v0 Hi Hp0 Hv0. destruct (decide (i = first)) as [->|Hne].
      * rewrite Hp in Hp0. rewrite Hv in Hv0. injection Hp0 as <-. injection Hv0 as <-.
        destruct (Hout first) as [-> ->]; [lia|].
        rewrite !list_lookup_insert_eq by lia. auto.
      * apply Hin; [lia| |]; rewrite list_lookup_insert_ne by lia; assumption.
    + intros i Hi. destruct (Hout i) as [-> ->]; [lia|].
      rewrite !list_lookup_insert_ne by lia. auto.
Qed.

Lemma iteration_balls wall_x_position time_step (P V : ndarray F) :
  length P = length V ->
  let balls := bounce_ball wall_x_position time_step <$> zip P V in
  iteration wall_x_position time_step (P, V) = (fst <$> balls, snd <$> balls, Ok tt).
Proof.
  intros Hlen. cbn zeta. unfold iteration. cbn [fst].
  destruct (for_value_seq wall_x_position time_step (length P) 0 P V Hlen)
    as (P' & V' & -> & HlP & HlV & Hin & _); [lia|].
  assert (forall i,
    P' !! i = (fst <$> (bounce_ball wall_x_position time_step <$> zip P V)) !! i /\
    V' !! i = (snd <$> (bounce_ball wall_x_position time_step <$> zip P V)) !! i)
    as Heq.
  { intros i. rewrite !list_lookup_fmap, lookup_zip_with.
    destruct (P !! i) as [p|] eqn:Hp.
    - destruct (lookup_lt_is_Some_2 V i) as [v Hv].
      { apply lookup_lt_Some in Hp. lia. }
      rewrite Hv. cbn. apply Hin; [|assumption..].
      apply lookup_lt_Some in Hp. lia.
    - cbn. apply lookup_ge_None in Hp. split; apply lookup_ge_None; lia. }
  f_equal. f_equal; apply list_eq; intros i; apply Heq.
Qed.

Lemma state_at_length wall_x_position time_step i (P V : ndarray F) :
  length P = length V ->
  length (state_at wall_x_position time_step i (P, V)).1 = length P /\
  length (state_at wall_x_position time_step i (P, V)).2 = length P.
Proof.
  revert P V. induction i as [|i IH]; intros P V Hlen; cbn [state_at fst snd].
  - auto.
  - set (balls := bounce_ball wall_x_position time_step <$> zip P V).
    assert (length balls = length P) as Hb.
    { unfold balls. rewrite length_fmap, length_zip_with. lia. }
    destruct (IH (fst <$> balls) (snd <$> balls)) as [H1 H2].
    { rewrite !length_fmap. reflexivity. }
    rewrite H1, H2, length_fmap. auto.
Qed.

Lemma state_at_succ wall_x_position time_step i (pv : ndarray F * ndarray F) :
  state_at wall_x_position time_step (S i) pv
  = let s := state_at wall_x_position time_step i pv in
    let balls := bounce_ball wall_x_position time_step <$> zip s.1 s.2 in
    (fst <$> balls, snd <$> balls).
Proof.
  revert pv. induction i as [|i IH]; intros pv; [reflexivity|].
  change (state_at wall_x_position time_step (S (S i)) pv)
    with (state_at wall_x_position time_step (S i)
            (state_at wall_x_position time_step 1 pv)).
  rewrite IH. reflexivity.
Qed.

(** With arrays of equal length the while loop never raises, and its
    [j]-th new snapshot is the positions on entry to iteration [j]. *)
Lemma while_value_snapshots wall_x_position time_step stop_time fuel :
  forall snapshots (P V : ndarray F) t,
    length P = length V ->
    let w := while_value wall_x_position time_step stop_time fuel snapshots (P, V) t in
    (exists u, w.2 = Ok u) /\
    (length snapshots <= length w.1.1 <= length snapshots + fuel)%nat /\
    (forall j, (j < length snapshots)%nat -> w.1.1 !! j = snapshots !! j) /\
    (forall j, (length snapshots + j < length w.1.1)%nat ->
       w.1.1 !! (length snapshots + j)%nat
       = Some (state_at wall_x_position time_step j (P, V)).1).
Proof.
  induction fuel as [|fuel IH]; intros snapshots P V t Hlen; cbn zeta;
    cbn [while_value]; destruct (t <=? stop_time); cbn [fst snd];
    try (split; [eexists; reflexivity|]; split; [lia|]; split; [reflexivity|];
         intros; lia).
  rewrite (iteration_balls _ _ _ _ Hlen). cbn zeta.
  set (balls := bounce_ball wall_x_position time_step <$> zip P V).
  specialize (IH (snapshots ++ [P]) (fst <$> balls) (snd <$> balls) (t + time_step)).
  cbn zeta in IH. destruct IH as (Hok & Hl & Hold & Hnew).
  { rewrite !length_fmap. reflexivity. }
  rewrite length_app in Hl, Hold, Hnew. cbn [length] in Hl, Hold, Hnew.
  split; [exact Hok|]. split; [lia|]. split.
  - intros j Hj. rewrite Hold by lia. apply lookup_app_l. exact Hj.
  - intros j Hj. destruct j as [|j].
    + rewrite Nat.add_0_r. rewrite Hold by lia.
      rewrite list_lookup_middle by reflexivity. reflexivity.
    + replace (length snapshots + S j)%nat with (length snapshots + 1 + j)%nat by lia.
      rewrite Hnew by lia. reflexivity.
Qed.

End Balls.

(** *** What a caller sees of a call *)

Section Calls.
Context {F : Type} `{Arith F}.


Lemma returned_references first count u :
  returned_list (references first count u)
  = match u with Ok _ => Some (seq first count) | Raise _ => None end.
Proof. destruct u as [[[]|[]]|e]; reflexivity. Qed.

(** The store only grows, by objects the caller has no reference to; the
    returned references are distinct, and each is one of the new objects
    after the two private copies. *)
Lemma simulate_motion_frame wall_x_position time_step stop_time fuel
    (h : store F) initial_positions initial_velocities P V h' r :
  h !! initial_positions = Some P ->
  h !! initial_velocities = Some V ->
  simulate_motion fuel initial_positions initial_velocities
    wall_x_position time_step stop_time h = (h', r) ->
  (exists ext, h' = h ++ ext) /\
  forall l, returned_list r = Some l ->
    NoDup l /\ forall a, a ∈ l -> (length h + 2 <= a < length h')%nat.
Proof.
  intros HP HV Hrun.
  rewrite (simulate_motion_values _ _ _ _ _ _ _ _ _ HP HV) in Hrun.
  cbn zeta in Hrun. injection Hrun as <- <-. split; [eexists; reflexivity|].
  intros l Hl. rewrite returned_references in Hl.
  destruct (while_value _ _ _ _ _ _ _).2 as [u|e]; [|discriminate].
  injection Hl as <-. split; [apply NoDup_seq|].
  intros a Ha. apply elem_of_seq in Ha. rewrite length_app. cbn [length]. lia.
Qed.

(** With arrays of equal length the call does not raise, and the [j]-th
    returned reference holds the positions on entry to iteration [j]. *)
Lemma simulate_motion_states wall_x_position time_step stop_time fuel
    (h : store F) initial_positions initial_velocities P V h' r :
  h !! initial_positions = Some P ->
  h !! initial_velocities = Some V ->
  length P = length V ->
  simulate_motion fuel initial_positions initial_velocities
    wall_x_position time_step stop_time h = (h', r) ->
  exists l, returned_list r = Some l /\ (length l <= fuel)%nat /\
    forall j a, l !! j = Some a ->
      h' !! a = Some (state_at wall_x_position time_step j (P, V)).1.
Proof.
  intros HP HV Hlen Hrun.
  rewrite (simulate_motion_values _ _ _ _ _ _ _ _ _ HP HV) in Hrun.
  cbn zeta in Hrun. injection Hrun as <- <-.
  destruct (while_value_snapshots wall_x_position time_step stop_time fuel
              [] P V lit_zero Hlen) as ([u Hu] & Hl & _ & Hnew).
  cbn zeta in Hu, Hl, Hnew. cbn [length] in Hl, Hnew.
  set (w := while_value wall_x_position time_step stop_time fuel [] (P, V) lit_zero) in *.
  exists (seq (length h + 2) (length w.1.1)).
  rewrite returned_references, Hu. split; [reflexivity|].
  split; [rewrite length_seq; lia|].
  intros j b Hj. apply lookup_seq in Hj as [-> Hj].
  rewrite lookup_app_r by lia.
  replace (length h + 2 + j - length h)%nat with (S (S j)) by lia.
  cbn [lookup list_lookup]. apply (Hnew j). exact Hj.
Qed.

Lemma state_at_ball wall_x_position time_step i (pv : ndarray F * ndarray F) k p v :
  (state_at wall_x_position time_step i pv).1 !! k = Some p ->
  (state_at wall_x_position time_step i pv).2 !! k = Some v ->
  (state_at wall_x_position time_step (S i) pv).1 !! k
  = Some (bounce_ball wall_x_position time_step (p, v)).1 /\
  (state_at wall_x_position time_step (S i) pv).2 !! k
  = Some (bounce_ball wall_x_position time_step (p, v)).2.
Proof.
  intros Hp Hv. rewrite state_at_succ. cbn zeta. cbn [fst snd].
  rewrite !list_lookup_fmap, lookup_zip_with, Hp, Hv. cbn. auto.
Qed.

(** A ball found below the wall on entry to iteration [i] and at or beyond
    it on entry to iteration [i + 1] moved with its velocity unchanged in
    iteration [i], and has its x velocity negated in iteration [i + 1]. *)
Lemma crossing_velocity wall_x_position time_step i (pv : ndarray F * ndarray F)
    k p p' v :
  (state_at wall_x_position time_step i pv).1 !! k = Some p ->
  (state_at wall_x_position time_step (S i) pv).1 !! k = Some p' ->
  (state_at wall_x_position time_step i pv).2 !! k = Some v ->
  fge p.1.1 wall_x_position = false ->
  fge p'.1.1 wall_x_position = true ->
  p' = row_add p (row_scale v time_step) /\
  (state_at wall_x_position time_step (S (S i)) pv).2 !! k = Some (negate_x v).
Proof.
  intros Hp Hp' Hv Hbelow Habove.
  destruct (state_at_ball _ _ _ _ _ _ _ Hp Hv) as [E1 E2].
  unfold bounce_ball in E1, E2. cbn [fst snd] in E1, E2. rewrite Hbelow in E1, E2.
  assert (p' = row_add p (row_scale v time_step)) as -> by congruence.
  split; [reflexivity|].
  destruct (state_at_ball _ _ _ _ _ _ _ E1 E2) as [_ E4].
  unfold bounce_ball in E4. cbn [fst snd] in E4. rewrite Habove in E4. exact E4.
Qed.

Lemma lookup_snapshots (h : store F) x y snapshots rest :
  (fun a => (h ++ x :: y :: snapshots ++ rest) !! a)
    <$> seq (length h + 2) (length snapshots)
  = Some <$> snapshots.
Proof.
  apply list_eq. intros i. rewrite !list_lookup_fmap.
  destruct (decide (i < length snapshots)%nat) as [Hi|Hi].
  - rewrite lookup_seq_lt by exact Hi. cbn.
    rewrite lookup_app_r by lia.
    replace (length h + 2 + i - length h)%nat with (S (S i)) by lia.
    change ((x :: y :: snapshots ++ rest) !! S (S i))
      with ((snapshots ++ rest) !! i).
    rewrite lookup_app_l by exact Hi.
    destruct (lookup_lt_is_Some_2 snapshots i Hi) as [s Hs]. rewrite Hs. reflexivity.
  - rewrite lookup_seq_ge by lia. rewrite (lookup_ge_None_2 snapshots) by lia.
    reflexivity.
Qed.

Lemma observe_references (h : store F) x y snapshots rest u :
  observe (h ++ x :: y :: snapshots ++ rest)
    (references (length h + 2) (length snapshots) u)
  = match u with
    | Ok (Done _) => Ok (Done (Some <$> snapshots))
    | Ok (More _) => Ok (More (Some <$> snapshots))
    | Raise e => Raise e
    end.
Proof.
  destruct u as [[[]|[]]|e]; cbn [references observe];
    rewrite ?lookup_snapshots; reflexivity.
Qed.

(** With a zero time step the clock never leaves 0.0, the loop condition
    stays true, and every iteration records a state. *)
Lemma while_value_zero_step wall_x_position stop_time fuel :
  fadd lit_zero lit_zero = lit_zero ->
  fle lit_zero stop_time = true ->
  forall snapshots (P V : ndarray F),
    length P = length V ->
    let w := while_value wall_x_position lit_zero stop_time fuel snapshots (P, V)
               lit_zero in
    w.2 = Ok (More tt) /\ length w.1.1 = (length snapshots + fuel)%nat.
Proof.
  intros H0 Hle. induction fuel as [|fuel IH]; intros snapshots P V Hlen;
    cbn zeta; cbn [while_value]; rewrite Hle.
  - cbn. split; [reflexivity|lia].
  - rewrite (iteration_balls _ _ _ _ Hlen). cbn zeta. rewrite H0.
    match goal with |- context [while_value _ _ _ fuel ?s (?p, ?v) _] =>
      destruct (IH s p v) as [Hr Hn] end.
    { rewrite !length_fmap. reflexivity. }
    cbn zeta in Hr, Hn. rewrite length_app in Hn. cbn [length] in Hn.
    split; [exact Hr|lia].
Qed.

End Calls.
End BounceFacts.

(** ** two_balls_cross.py: the store only grows *)

Module CrossFacts.
Import StoreFacts Cross.

Section Frame.
Context {F : Type} `{Arith F}.


Lemma np_copy_allocates a :
  allocates_at_most_one (F := F) (np_copy a) (fun h b => b = length h).
Proof.
  intros h h' r. unfold np_copy, bind, load, alloc.
  destruct (h !! a) as [x|]; intros [= <- <-]; eauto.
Qed.

Lemma np_mul_scalar_allocates a c :
  allocates_at_most_one (F := F) (np_mul_scalar a c) (fun h b => b = length h).
Proof.
  intros h h' r. unfold np_mul_scalar, bind, load, alloc.
  destruct (h !! a) as [x|]; intros [= <- <-]; eauto.
Qed.

Lemma np_add_allocates a b :
  allocates_at_most_one (F := F) (np_add a b) (fun h c => c = length h).
Proof.
  intros h h' r. unfold np_add, bind, load, alloc, raise.
  destruct (h !! a) as [x|]; [|intros [= <- <-]; reflexivity].
  destruct (h !! b) as [y|]; [|intros [= <- <-]; reflexivity].
  destruct (broadcast_add x y); intros [= <- <-]; eauto.
Qed.

Lemma cross_while_loop_frame time_step stop_time fuel :
  forall st (h h' : store F) r,
    while_loop time_step stop_time fuel st h = (h', r) ->
    (exists ext, h' = h ++ ext) /\
    forall l, returned_list r = Some l ->
      exists new, l = positions_over_time st ++ new /\ NoDup new /\
        forall a, a ∈ new -> (length h <= a < length h')%nat.
Proof.
  induction fuel as [|fuel IH]; intros st h h' r; cbn [while_loop];
    destruct (fle (current_time st) stop_time).
  1,2,4: intros [= <- <-]; (split; [exists []; symmetry; apply app_nil_r|]);
         intros l [= <-]; exists []; rewrite app_nil_r;
         (split; [reflexivity|]); (split; [constructor|]);
         intros a Ha; apply elem_of_nil in Ha; destruct Ha.
  unfold bind.
  destruct (np_copy (positions st) h) as [h1 [snapshot|e]] eqn:H1;
    pose proof (np_copy_allocates _ _ _ _ H1) as A1; cbn beta iota in A1.
  2: { intros [= <- <-]. subst h1. split; [exists []; symmetry; apply app_nil_r|].
       discriminate. }
  destruct A1 as [-> [x1 ->]].
  destruct (np_mul_scalar (velocities st) time_step (h ++ [x1])) as [h2 [scaled|e]] eqn:H2;
    pose proof (np_mul_scalar_allocates _ _ _ _ _ H2) as A2; cbn beta iota in A2.
  2: { intros [= <- <-]. subst h2. split; [eexists; reflexivity|]. discriminate. }
  destruct A2 as [-> [x2 ->]].
  destruct (np_add (positions st) (length (h ++ [x1])) ((h ++ [x1]) ++ [x2]))
    as [h3 [moved|e]] eqn:H3;
    pose proof (np_add_allocates _ _ _ _ _ H3) as A3; cbn beta iota in A3.
  2: { intros [= <- <-]. subst h3. rewrite <- app_assoc.
       split; [eexists; reflexivity|]. discriminate. }
  destruct A3 as [-> [x3 ->]].
  intros Hrun. apply IH in Hrun as [[ext ->] Hl].
  cbn [positions_over_time] in Hl.
  split; [exists ([x1] ++ [x2] ++ [x3] ++ ext); rewrite <- !app_assoc; reflexivity|].
  intros l Hr. destruct (Hl l Hr) as (new & -> & Hnd & Hnew).
  exists (length h :: new). rewrite <- app_assoc. split; [reflexivity|].
  rewrite !length_app in Hnew |- *. cbn [length] in Hnew |- *.
  split.
  - constructor; [|exact Hnd]. intros Hin. apply Hnew in Hin. lia.
  - intros a Ha. apply elem_of_cons in Ha as [->|Ha]; [lia|].
    apply Hnew in Ha. rewrite !length_app in Ha. cbn [length] in Ha. lia.
Qed.

Lemma cross_simulate_motion_frame time_step stop_time fuel
    (h : store F) initial_positions initial_velocities h' r :
  simulate_motion fuel initial_positions initial_velocities
    time_step stop_time h = (h', r) ->
  (exists ext, h' = h ++ ext) /\
  forall l, returned_list r = Some l ->
    NoDup l /\ forall a, a ∈ l -> (length h + 2 <= a < length h')%nat.
Proof.
  unfold simulate_motion, bind.
  destruct (np_copy initial_positions h) as [h1 [p|e]] eqn:H1;
    pose proof (np_copy_allocates _ _ _ _ H1) as A1; cbn beta iota in A1.
  2: { intros [= <- <-]. subst h1. split; [exists []; symmetry; apply app_nil_r|].
       discriminate. }
  destruct A1 as [-> [x1 ->]].
  destruct (np_copy initial_velocities (h ++ [x1])) as [h2 [v|e]] eqn:H2;
    pose proof (np_copy_allocates _ _ _ _ H2) as A2; cbn beta iota in A2.
  2: { intros [= <- <-]. subst h2. split; [eexists; reflexivity|]. discriminate. }
  destruct A2 as [-> [x2 ->]].
  intros Hrun. apply cross_while_loop_frame in Hrun as [[ext ->] Hl].
  cbn [positions_over_time] in Hl.
  split; [exists ([x1] ++ [x2] ++ ext); rewrite <- !app_assoc; reflexivity|].
  intros l Hr. destruct (Hl l Hr) as (new & -> & Hnd & Hnew).
  split; [exact Hnd|]. intros a Ha. apply Hnew in Ha.
  rewrite !length_app in Ha |- *. cbn [length] in Ha |- *.
  rewrite !length_app in Ha. cbn [length] in Ha. lia.
Qed.

End Frame.
End CrossFacts.

(** ** Binary64 facts *)

Module Binary64Facts.
Import SpecFloat.

Lemma digits_shift (m : positive) :
  Zpos (digits2_pos (Pos.mul m 4503599627370496)) = (Zpos (digits2_pos m) + 52)%Z.
Proof. rewrite !Pos.mul_xO_r, Pos.mul_1_r. cbn [digits2_pos]. lia. Qed.

Lemma shr_shift (m : positive) :
  iter_pos shr_1 52
    {| shr_m := Zpos (Pos.mul m 4503599627370496); shr_r := false; shr_s := false |}
  = {| shr_m := Zpos m; shr_r := false; shr_s := false |}.
Proof. rewrite !Pos.mul_xO_r, Pos.mul_1_r. reflexivity. Qed.

(** Multiplying by -1.0 (mantissa 2^52, exponent -52) is exact: the
    product's mantissa is shifted back by 52 bits with nothing lost. *)
Lemma SFmul_minus_one (x : spec_float) :
  valid_binary prec emax x = true ->
  SFmul prec emax x (S754_finite true 4503599627370496 (-52)) = SFopp x.
Proof.
  destruct x as [s|s| |s m e]; intros Hv; try (destruct s; reflexivity);
    try reflexivity.
  unfold SFmul, SFopp. rewrite xorb_true_r.
  cbn [valid_binary] in Hv. unfold bounded, canonical_mantissa in Hv.
  apply andb_prop in Hv as [Hc Hb]. apply Z.eqb_eq in Hc.
  unfold binary_round_aux.
  unfold shr_fexp at 1. unfold Zdigits2. rewrite digits_shift.
  replace (Z.pos (digits2_pos m) + 52 + (e + -52))%Z
    with (Z.pos (digits2_pos m) + e)%Z by lia.
  rewrite Hc.
  replace (e - (e + -52))%Z with 52%Z by lia.
  unfold shr_record_of_loc, shr. rewrite shr_shift.
  cbn [shr_m loc_of_shr_record round_nearest_even].
  unfold shr_fexp, Zdigits2.
  replace (e + -52 + 52)%Z with e by lia.
  rewrite Hc, Z.sub_diag. cbn [shr shr_record_of_loc shr_m].
  rewrite Hb. reflexivity.
Qed.

Lemma mul_minus_one (x : float) : PrimFloat.mul x (-1)%float = PrimFloat.opp x.
Proof.
  apply Prim2SF_inj. rewrite mul_spec, opp_spec.
  change (Prim2SF (-1)%float) with (S754_finite true 4503599627370496 (-52)).
  apply SFmul_minus_one. apply Prim2SF_valid.
Qed.

Lemma SFmul_opp_opp (x : spec_float) :
  SFmul prec emax (SFopp x) (SFopp x) = SFmul prec emax x x.
Proof. destruct x as [s|s| |s m e]; try destruct s; reflexivity. Qed.

Lemma mul_opp_opp (x : float) :
  PrimFloat.mul (PrimFloat.opp x) (PrimFloat.opp x) = PrimFloat.mul x x.
Proof. apply Prim2SF_inj. rewrite !mul_spec, !opp_spec. apply SFmul_opp_opp. Qed.

Lemma opp_sign (x : float) :
  (PrimFloat.ltb 0%float x = true -> PrimFloat.ltb (PrimFloat.opp x) 0%float = true) /\
  (PrimFloat.ltb x 0%float = true -> PrimFloat.ltb 0%float (PrimFloat.opp x) = true).
Proof.
  rewrite !ltb_spec, opp_spec. change (Prim2SF 0%float) with (S754_zero false).
  destruct (Prim2SF x) as [s|s| |s m e]; try destruct s; cbn; auto.
Qed.

(** If adding [v * dt] takes a value from not at-or-above a threshold to
    at-or-above it, [v] is neither a zero nor a NaN. *)
Lemma SF_step_sign (w p v dt : spec_float) :
  SFleb w p = false ->
  SFleb w (SFadd prec emax p (SFmul prec emax v dt)) = true ->
  SFltb (S754_zero false) v = true \/ SFltb v (S754_zero false) = true.
Proof.
  destruct v as [sv|sv| |sv mv ev].
  - intros H1 H2. exfalso.
    destruct dt as [sd|sd| |sd md ed]; cbn [SFmul] in H2.
    + destruct p as [sp|sp| |sp mp ep], w as [sw|sw| |sw mw ew];
        try destruct sp; try destruct sv; try destruct sd; try destruct sw;
        cbn in *; congruence.
    + destruct p as [sp|sp| |sp mp ep], w as [sw|sw| |sw mw ew]; cbn in *; congruence.
    + destruct p as [sp|sp| |sp mp ep], w as [sw|sw| |sw mw ew]; cbn in *; congruence.
    + destruct p as [sp|sp| |sp mp ep], w as [sw|sw| |sw mw ew];
        try destruct sp; try destruct sv; try destruct sd; try destruct sw;
        cbn in *; congruence.
  - destruct sv; cbn; auto.
  - intros H1 H2. exfalso.
    destruct dt, p as [sp|sp| |sp mp ep], w as [sw|sw| |sw mw ew]; cbn in *; congruence.
  - destruct sv; cbn; auto.
Qed.

Lemma step_sign (w p v dt : float) :
  PrimFloat.leb w p = false ->
  PrimFloat.leb w (PrimFloat.add p (PrimFloat.mul v dt)) = true ->
  PrimFloat.ltb 0%float v = true \/ PrimFloat.ltb v 0%float = true.
Proof.
  rewrite !leb_spec, !ltb_spec, add_spec, mul_spec.
  change (Prim2SF 0%float) with (S754_zero false). apply SF_step_sign.
Qed.

End Binary64Facts.


(** ** Claims about [simulate] of birthday_station.py *)

Import Station StationFacts.

Lemma time_lookup {F : Type} `{Arith F} angular_speed inner_radius release_height
    initial_velocity time_step dt max_steps (tr : trajectory F) i :
  time_step_or_default angular_speed time_step = Ok dt ->
  simulate angular_speed inner_radius release_height initial_velocity
    time_step max_steps = Ok tr ->
  time tr !! i
  = (fun e => e.2) <$>
      (recorded inner_radius release_height initial_velocity dt max_steps !! i).
Proof.
  intros Hdt Hs. destruct (time_recorded _ _ _ _ _ _ _ _ Hdt Hs) as (-> & _).
  apply list_lookup_fmap.
Qed.

Lemma time_recurrence {F : Type} `{Arith F} angular_speed inner_radius release_height
    initial_velocity time_step dt max_steps (tr : trajectory F) :
  time_step_or_default angular_speed time_step = Ok dt ->
  simulate angular_speed inner_radius release_height initial_velocity
    time_step max_steps = Ok tr ->
  time tr !! 0%nat = Some lit_zero /\
  forall i t', time tr !! S i = Some t' ->
    exists t, time tr !! i = Some t /\ t' = fadd t dt.
Proof.
  intros Hdt Hs. split.
  - rewrite (time_lookup _ _ _ _ _ _ _ _ _ Hdt Hs). reflexivity.
  - intros i t'. rewrite !(time_lookup _ _ _ _ _ _ _ _ _ Hdt Hs).
    intros Ht'. apply fmap_Some in Ht' as (e' & He' & ->).
    destruct (recorded_time_succ _ _ _ _ _ _ _ He') as (e & He & Heq).
    exists e.2. rewrite He. split; [reflexivity | exact Heq].
Qed.

Lemma exact_time_closed_form angular_speed inner_radius release_height
    initial_velocity time_step (dt : R) max_steps (tr : trajectory R) i t :
  time_step_or_default angular_speed time_step = Ok dt ->
  simulate angular_speed inner_radius release_height initial_velocity
    time_step max_steps = Ok tr ->
  time tr !! i = Some t -> t = (INR i * dt)%R.
Proof.
  intros Hdt Hs. destruct (time_recurrence _ _ _ _ _ _ _ _ Hdt Hs) as [H0 Hsucc].
  revert t. induction i as [|i IH]; intros t Ht.
  - rewrite H0 in Ht. injection Ht as <-. cbn. lra.
  - destruct (Hsucc _ _ Ht) as (t0 & Ht0 & ->).
    rewrite (IH _ Ht0), S_INR. cbn. lra.
Qed.

(** C2, as the code has it: the recorded times start at 0.0 and each is its
    predecessor plus [time_step], in the arithmetic the code runs on (so
    entry i is the i-fold accumulated sum, not the product i * time_step).
    In exact real arithmetic the accumulated sum is [i * time_step], and
    the times increase strictly as soon as [time_step] is positive. *)
Theorem recorded_times_accumulate :
  (forall (F : Type) (A : Arith F) angular_speed inner_radius release_height
      initial_velocity time_step dt max_steps (tr : trajectory F),
    time_step_or_default angular_speed time_step = Ok dt ->
    simulate angular_speed inner_radius release_height initial_velocity
      time_step max_steps = Ok tr ->
    time tr !! 0%nat = Some lit_zero /\
    forall i t', time tr !! S i = Some t' ->
      exists t, time tr !! i = Some t /\ t' = fadd t dt) /\
  (forall angular_speed inner_radius release_height initial_velocity time_step
      (dt : R) max_steps (tr : trajectory R),
    time_step_or_default angular_speed time_step = Ok dt ->
    simulate angular_speed inner_radius release_height initial_velocity
      time_step max_steps = Ok tr ->
    (forall i t, time tr !! i = Some t -> t = (INR i * dt)%R) /\
    ((0 < dt)%R -> forall i j ti tj, (i < j)%nat ->
       time tr !! i = Some ti -> time tr !! j = Some tj -> (ti < tj)%R)).
Proof.
  split.
  - intros F A. apply time_recurrence.
  - intros w r h v ts dt n tr Hdt Hs. split.
    + intros i t. apply (exact_time_closed_form _ _ _ _ _ _ _ _ _ _ Hdt Hs).
    + intros Hpos i j ti tj Hij Hi Hj.
      rewrite (exact_time_closed_form _ _ _ _ _ _ _ _ _ _ Hdt Hs Hi).
      rewrite (exact_time_closed_form _ _ _ _ _ _ _ _ _ _ Hdt Hs Hj).
      apply Rmult_lt_compat_r; [assumption|]. apply lt_INR. exact Hij.
Qed.

(** C2 fails as stated.  With time_step = 0.1 and a ball at rest, the run
    records 11 states and the time of entry 8 is 0.7999999999999999, while
    8 * 0.1 is 0.8 (Python's [==] on them is False).  With time_step = 0.0,
    which the code accepts, the recorded times are all 0.0 and do not
    increase. *)
Lemma time_is_not_index_times_step :
  (exists tr t,
     simulate 1%float 10%float 2%float (0%float, 0%float) (Some 0.1%float) 10 = Ok tr /\
     length (time tr) = 11%nat /\
     time tr !! 8%nat = Some t /\
     t = 0x1.9999999999999p-1%float /\
     PrimFloat.mul 8%float 0.1%float = 0x1.999999999999ap-1%float /\
     PrimFloat.eqb t (PrimFloat.mul 8%float 0.1%float) = false) /\
  (exists tr,
     simulate 1%float 10%float 2%float (0%float, 0%float) (Some 0%float) 2 = Ok tr /\
     time tr = [0%float; 0%float; 0%float]).
Proof.
  split.
  - do 2 eexists. split; [vm_compute; reflexivity|].
    repeat split; vm_compute; reflexivity.
  - eexists. split; vm_compute; reflexivity.
Qed.

(** The run of scenario A, in binary64: a ball at rest at (0, -8) stays
    there, whatever the time it has reached. *)
Lemma rest_entries (remaining : nat) (t : float) :
  let es := entries 10%float (0%float, 0%float) 0.01%float remaining
              (0%float, (-8)%float, t) in
  length es = remaining /\
  Forall (fun e => e.1 = (0%float, (-8)%float)
                   /\ fge (radius_of e) 10%float = false) es.
Proof.
  revert t. induction remaining as [|k IH]; intros t; cbn zeta.
  - split; [reflexivity | constructor].
  - cbn [entries]. cbn zeta.
    change (advance (0%float, 0%float) 0.01%float (0%float, (-8)%float, t))
      with (0%float, (-8)%float, PrimFloat.add t 0.01%float).
    change (fge (radius_of (0%float, (-8)%float, PrimFloat.add t 0.01%float)) 10%float)
      with false.
    cbn iota. destruct (IH (PrimFloat.add t 0.01%float)) as [Hl Hf].
    split; [cbn [length]; f_equal; exact Hl|].
    constructor; [split; reflexivity | exact Hf].
Qed.

Lemma fmap_constant {A B : Type} (f : A -> B) (c : B) (l : list A) :
  Forall (fun e => f e = c) l -> f <$> l = replicate (length l) c.
Proof.
  induction 1 as [|e l He _ IH]; [reflexivity|].
  cbn [length replicate]. rewrite fmap_cons, He, IH. reflexivity.
Qed.

(** C6, as the code has it (scenario A, evaluated in binary64): for every
    [max_steps] the run returns, the ball never reaches the boundary, every
    recorded position is (0, -8), and the trajectory has one entry for the
    initial state and one per step: [max_steps + 1] entries. *)
Theorem scenario_A_at_rest (angular_speed : float) (max_steps : Z) :
  exists tr,
    simulate angular_speed 10%float 2%float (0%float, 0%float)
      (Some 0.01%float) max_steps = Ok tr /\
    length (time tr) = (Z.to_nat max_steps + 1)%nat /\
    x_inertial tr = replicate (Z.to_nat max_steps + 1) 0%float /\
    y_inertial tr = replicate (Z.to_nat max_steps + 1) (-8)%float /\
    forall i e, entry tr i = Some e -> fge (radius_of e) 10%float = false.
Proof.
  eexists. split.
  { apply (simulate_recorded (F := float)). reflexivity. }
  unfold recorded.
  change (initial_state 10%float 2%float) with (0%float, (-8)%float, 0%float).
  destruct (rest_entries (Z.to_nat max_steps) 0%float) as [Hl Hf]. cbn zeta in Hl, Hf.
  set (es := entries _ _ _ _ _) in *.
  assert (Forall (fun e : float * float * float =>
                    e.1 = (0%float, (-8)%float)
                    /\ fge (radius_of e) 10%float = false)
            ((0%float, (-8)%float, 0%float) :: es)) as Hall.
  { constructor; [split; reflexivity | exact Hf]. }
  assert (length ((0%float, (-8)%float, 0%float) :: es)
          = (Z.to_nat max_steps + 1)%nat) as Hlen.
  { cbn [length]. lia. }
  set (rs := _ :: es) in *. clearbody rs. clear Hf Hl es.
  cbn [time x_inertial y_inertial]. rewrite length_fmap. split; [exact Hlen|].
  split; [|split].
  - rewrite <- Hlen. apply fmap_constant.
    eapply Forall_impl; [exact Hall|]. intros e [-> _]. reflexivity.
  - rewrite <- Hlen. apply fmap_constant.
    eapply Forall_impl; [exact Hall|]. intros e [-> _]. reflexivity.
  - intros i e. unfold entry. cbn [time x_inertial y_inertial].
    rewrite !list_lookup_fmap.
    destruct (rs !! i) as [[[x y] t]|] eqn:Hi; [|discriminate].
    cbn. intros [= <-]. rewrite Forall_lookup in Hall. exact (proj2 (Hall _ _ Hi)).
Qed.

(** C6 fails as stated: with three steps configured the trajectory has
    four entries, not three. *)
Lemma scenario_A_length_is_not_max_steps :
  exists tr,
    simulate 1%float 10%float 2%float (0%float, 0%float) (Some 0.01%float) 3 = Ok tr /\
    length (time tr) = 4%nat /\
    Z.of_nat (length (time tr)) <> 3%Z.
Proof.
  eexists. split; [vm_compute; reflexivity|]. split; [reflexivity|].
  vm_compute. discriminate.
Qed.



(** Binary64 comparisons: a value at least as large as a positive one is
    positive (so it is neither a zero nor a NaN). *)
Lemma binary64_positive_above (a b : float) :
  PrimFloat.ltb 0%float a = true -> PrimFloat.leb a b = true ->
  PrimFloat.ltb 0%float b = true.
Proof.
  rewrite !ltb_spec, leb_spec.
  change (Prim2SF 0%float) with (S754_zero false).
  destruct (Prim2SF a) as [sa|sa| |sa ma ea], (Prim2SF b) as [sb|sb| |sb mb eb];
    try destruct sa; try destruct sb; cbn; congruence.
Qed.

(** C8: with [inner_radius > 0], whenever the clamp runs (the test on the
    advanced position [a] succeeded and the entry recorded is [clamp
    inner_radius a], whose two quotients divide by [radius_of a]), the
    divisor [radius_of a] is positive.  In exact arithmetic, and in
    binary64, where positive means neither zero nor NaN. *)
Theorem clamp_divisor_positive :
  (forall (angular_speed inner_radius release_height : R) (initial_velocity : R * R)
      (time_step : option R) (dt : R) (max_steps : Z) (tr : trajectory R)
      (i : nat) (e e' : R * R * R),
    (0 < inner_radius)%R ->
    time_step_or_default angular_speed time_step = Ok dt ->
    simulate angular_speed inner_radius release_height initial_velocity
      time_step max_steps = Ok tr ->
    entry tr i = Some e ->
    entry tr (S i) = Some e' ->
    fge (radius_of (advance initial_velocity dt e)) inner_radius = true ->
    e' = clamp inner_radius (advance initial_velocity dt e) /\
    (0 < radius_of (advance initial_velocity dt e))%R) /\
  (forall (angular_speed inner_radius release_height : float)
      (initial_velocity : float * float) (time_step : option float) (dt : float)
      (max_steps : Z) (tr : trajectory float) (i : nat) (e e' : float * float * float),
    PrimFloat.ltb 0%float inner_radius = true ->
    time_step_or_default angular_speed time_step = Ok dt ->
    simulate angular_speed inner_radius release_height initial_velocity
      time_step max_steps = Ok tr ->
    entry tr i = Some e ->
    entry tr (S i) = Some e' ->
    fge (radius_of (advance initial_velocity dt e)) inner_radius = true ->
    e' = clamp inner_radius (advance initial_velocity dt e) /\
    PrimFloat.ltb 0%float (radius_of (advance initial_velocity dt e)) = true).
Proof.
  split.
  - intros w r h v ts dt n tr i e e' HR Hdt Hs He He' Htest.
    rewrite (entry_recorded _ _ _ _ _ _ _ _ _ Hdt Hs) in He.
    rewrite (entry_recorded _ _ _ _ _ _ _ _ _ Hdt Hs) in He'.
    destruct (recorded_step _ _ _ _ _ _ _ _ He He') as [[Hf _]|(_ & -> & _)].
    { cbn zeta in Hf. rewrite Hf in Htest. discriminate. }
    split; [reflexivity|]. apply exact_fge_true in Htest. lra.
  - intros w r h v ts dt n tr i e e' HR Hdt Hs He He' Htest.
    rewrite (entry_recorded _ _ _ _ _ _ _ _ _ Hdt Hs) in He.
    rewrite (entry_recorded _ _ _ _ _ _ _ _ _ Hdt Hs) in He'.
    destruct (recorded_step _ _ _ _ _ _ _ _ He He') as [[Hf _]|(_ & -> & _)].
    { cbn zeta in Hf. rewrite Hf in Htest. discriminate. }
    split; [reflexivity|]. exact (binary64_positive_above _ _ HR Htest).
Qed.





(** C10 fails as stated in binary64.  Released at (0, -8) inside the hull
    of radius 10 with velocity (20, 0) and time step 1, the ball is at
    (20, -8) after one step and is clamped.  The two recorded coordinates
    are binary64 values whose exact sum of squares exceeds 100: the
    recorded state lies outside the circle, and [np.hypot] of it is
    10.000000000000002. *)
Lemma clamped_entry_lies_outside :
  exists tr x y t,
    PrimFloat.ltb (PrimFloat.abs (PrimFloat.add (PrimFloat.opp 10%float) 2%float))
      10%float = true /\
    simulate 1%float 10%float 2%float (20%float, 0%float) (Some 1%float) 1 = Ok tr /\
    length (time tr) = 2%nat /\
    entry tr 1 = Some (x, y, t) /\
    Prim2SF x = S754_finite false 5226859098866307 (-49) /\
    Prim2SF y = S754_finite true 8362974558186091 (-51) /\
    (100 * 2 ^ 102 < (5226859098866307 * 2 ^ 2) ^ 2 + 8362974558186091 ^ 2)%Z /\
    radius_of (x, y, t) = 0x1.4000000000001p+3%float /\
    PrimFloat.ltb 10%float (radius_of (x, y, t)) = true.
Proof.
  do 4 eexists. split; [vm_compute; reflexivity|]. split; [vm_compute; reflexivity|].
  split; [reflexivity|]. split; [reflexivity|].
  repeat split; vm_compute; reflexivity.
Qed.

(** ** Claims about [simulate_motion] *)

(** C9: [simulate_motion] (of two_balls_bounce.py and of two_balls_cross.py)
    leaves every array the caller holds as it was, in particular its two
    arguments, whether the call returns, raises or is cut off after [fuel]
    iterations; the arrays it returns are distinct new objects, none of
    them an argument or any other array of the caller. *)
Theorem simulate_motion_leaves_inputs (F : Type) (A : Arith F) (h : store F)
    (initial_positions initial_velocities : ref) (P V : ndarray F) :
  h !! initial_positions = Some P ->
  h !! initial_velocities = Some V ->
  (forall fuel wall_x_position time_step stop_time h' r,
     Bounce.simulate_motion fuel initial_positions initial_velocities
       wall_x_position time_step stop_time h = (h', r) ->
     h' !! initial_positions = Some P /\ h' !! initial_velocities = Some V /\
     (forall a x, h !! a = Some x -> h' !! a = Some x) /\
     forall l, returned_list r = Some l ->
       NoDup l /\
       forall a, a ∈ l ->
         a <> initial_positions /\ a <> initial_velocities /\
         h !! a = None /\ is_Some (h' !! a)) /\
  (forall fuel time_step stop_time h' r,
     Cross.simulate_motion fuel initial_positions initial_velocities
       time_step stop_time h = (h', r) ->
     h' !! initial_positions = Some P /\ h' !! initial_velocities = Some V /\
     (forall a x, h !! a = Some x -> h' !! a = Some x) /\
     forall l, returned_list r = Some l ->
       NoDup l /\
       forall a, a ∈ l ->
         a <> initial_positions /\ a <> initial_velocities /\
         h !! a = None /\ is_Some (h' !! a)).
Proof.
  intros HP HV.
  assert (forall h' r,
    ((exists ext, h' = h ++ ext) /\
     forall l, returned_list r = Some l ->
       NoDup l /\ forall a, a ∈ l -> (length h + 2 <= a < length h')%nat) ->
    h' !! initial_positions = Some P /\ h' !! initial_velocities = Some V /\
    (forall a x, h !! a = Some x -> h' !! a = Some x) /\
    forall l, returned_list r = Some l ->
      NoDup l /\
      forall a, a ∈ l ->
        a <> initial_positions /\ a <> initial_velocities /\
        h !! a = None /\ is_Some (h' !! a)) as Hframe.
  { intros h' r [[ext ->] Hl].
    assert (forall a x, h !! a = Some x -> (h ++ ext) !! a = Some x) as Hkeep.
    { intros a x Ha. rewrite lookup_app_l by (eapply lookup_lt_Some; eassumption).
      exact Ha. }
    split; [auto|]. split; [auto|]. split; [exact Hkeep|].
    intros l Hr. destruct (Hl l Hr) as [Hnd Hnew]. split; [exact Hnd|].
    intros a Ha. apply Hnew in Ha.
    apply lookup_lt_Some in HP. apply lookup_lt_Some in HV.
    split; [lia|]. split; [lia|]. split.
    - apply lookup_ge_None. lia.
    - apply lookup_lt_is_Some. lia. }
  split.
  - intros fuel wall dt stop h' r Hrun. apply Hframe.
    exact (BounceFacts.simulate_motion_frame _ _ _ _ _ _ _ _ _ _ _ HP HV Hrun).
  - intros fuel dt stop h' r Hrun. apply Hframe.
    exact (CrossFacts.cross_simulate_motion_frame _ _ _ _ _ _ _ _ Hrun).
Qed.

(** C7: two successive calls of [simulate_motion] (two_balls_bounce.py)
    with the same arguments, the second in the store the first one left,
    end the same way and return arrays with the same values, and the second
    call does not disturb what the first returned; [simulate] is a function
    of its arguments. *)
Theorem simulators_are_deterministic :
  (forall (F : Type) (A : Arith F) (h : store F)
      (initial_positions initial_velocities : ref) (P V : ndarray F)
      fuel wall_x_position time_step stop_time h1 r1 h2 r2,
    h !! initial_positions = Some P ->
    h !! initial_velocities = Some V ->
    Bounce.simulate_motion fuel initial_positions initial_velocities
      wall_x_position time_step stop_time h = (h1, r1) ->
    Bounce.simulate_motion fuel initial_positions initial_velocities
      wall_x_position time_step stop_time h1 = (h2, r2) ->
    observe h2 r2 = observe h1 r1 /\ observe h2 r1 = observe h1 r1) /\
  (forall (F : Type) (A : Arith F)
      angular_speed inner_radius release_height initial_velocity time_step max_steps
      angular_speed' inner_radius' release_height' initial_velocity' time_step'
      max_steps',
    (angular_speed, inner_radius, release_height, initial_velocity, time_step,
     max_steps)
    = (angular_speed', inner_radius', release_height', initial_velocity',
       time_step', max_steps') ->
    simulate angular_speed inner_radius release_height initial_velocity
      time_step max_steps
    = simulate angular_speed' inner_radius' release_height' initial_velocity'
        time_step' max_steps').
Proof.
  split.
  - intros F A h ip iv P V fuel wall dt stop h1 r1 h2 r2 HP HV Hrun1 Hrun2.
    rewrite (BounceFacts.simulate_motion_values _ _ _ _ _ _ _ _ _ HP HV) in Hrun1.
    cbn zeta in Hrun1. injection Hrun1 as <- <-.
    set (w := Bounce.while_value wall dt stop fuel [] (P, V) lit_zero) in *.
    assert ((h ++ w.1.2.1 :: w.1.2.2 :: w.1.1) !! ip = Some P) as HP1.
    { rewrite lookup_app_l by (eapply lookup_lt_Some; eassumption). exact HP. }
    assert ((h ++ w.1.2.1 :: w.1.2.2 :: w.1.1) !! iv = Some V) as HV1.
    { rewrite lookup_app_l by (eapply lookup_lt_Some; eassumption). exact HV. }
    rewrite (BounceFacts.simulate_motion_values _ _ _ _ _ _ _ _ _ HP1 HV1) in Hrun2.
    cbn zeta in Hrun2. fold w in Hrun2. injection Hrun2 as <- <-.
    pose proof (BounceFacts.observe_references h w.1.2.1 w.1.2.2 w.1.1 [] w.2) as O1.
    rewrite app_nil_r in O1. rewrite O1.
    pose proof (BounceFacts.observe_references (h ++ w.1.2.1 :: w.1.2.2 :: w.1.1)
                  w.1.2.1 w.1.2.2 w.1.1 [] w.2) as O2.
    rewrite app_nil_r in O2. rewrite O2.
    pose proof (BounceFacts.observe_references h w.1.2.1 w.1.2.2 w.1.1
                  (w.1.2.1 :: w.1.2.2 :: w.1.1) w.2) as O3.
    rewrite <- app_assoc. cbn [app]. rewrite O3. auto.
  - intros F A w r h v ts n w' r' h' v' ts' n' [= -> -> -> -> -> ->]. reflexivity.
Qed.

(** C1, as the code has it.  [simulate] advances the position and then
    tests the radial rule on the advanced position.  [simulate_motion]
    (two_balls_bounce.py) tests the wall predicate of an iteration on the
    position recorded at the start of that iteration (for every iteration
    but the first, the position the previous iteration's advance produced;
    for the first, the initial position), changes the sign of the x
    velocity when it holds, and then advances with the velocity as it then
    is: the next recorded position. *)
Theorem boundary_test_order :
  (forall (F : Type) (A : Arith F) angular_speed inner_radius release_height
      initial_velocity time_step dt max_steps (tr : trajectory F) i e e',
    time_step_or_default angular_speed time_step = Ok dt ->
    simulate angular_speed inner_radius release_height initial_velocity
      time_step max_steps = Ok tr ->
    entry tr i = Some e ->
    entry tr (S i) = Some e' ->
    (fge (radius_of (advance initial_velocity dt e)) inner_radius = false /\
     e' = advance initial_velocity dt e) \/
    (fge (radius_of (advance initial_velocity dt e)) inner_radius = true /\
     e' = clamp inner_radius (advance initial_velocity dt e))) /\
  (forall (F : Type) (A : Arith F) (h : store F)
      (initial_positions initial_velocities : ref) (P V : ndarray F)
      fuel wall_x_position time_step stop_time h' r,
    h !! initial_positions = Some P ->
    h !! initial_velocities = Some V ->
    length P = length V ->
    Bounce.simulate_motion fuel initial_positions initial_velocities
      wall_x_position time_step stop_time h = (h', r) ->
    exists l, returned_list r = Some l /\
      forall i a a', l !! i = Some a -> l !! S i = Some a' ->
        let s := Bounce.state_at wall_x_position time_step i (P, V) in
        let s' := Bounce.state_at wall_x_position time_step (S i) (P, V) in
        h' !! a = Some s.1 /\ h' !! a' = Some s'.1 /\
        length s.2 = length s.1 /\ length s'.1 = length s.1 /\
        forall k p v, s.1 !! k = Some p -> s.2 !! k = Some v ->
          let v' := if fge p.1.1 wall_x_position then Bounce.negate_x v else v in
          s'.2 !! k = Some v' /\
          s'.1 !! k = Some (row_add p (row_scale v' time_step))).
Proof.
  split.
  - intros F A w r h v ts dt n tr i e e' Hdt Hs He He'.
    rewrite (entry_recorded _ _ _ _ _ _ _ _ _ Hdt Hs) in He.
    rewrite (entry_recorded _ _ _ _ _ _ _ _ _ Hdt Hs) in He'.
    destruct (recorded_step _ _ _ _ _ _ _ _ He He') as [?|(? & ? & _)]; auto.
  - intros F A h ip iv P V fuel wall dt stop h' r HP HV Hlen Hrun.
    destruct (BounceFacts.simulate_motion_states _ _ _ _ _ _ _ _ _ _ _ HP HV Hlen Hrun)
      as (l & Hl & _ & Hstate).
    exists l. split; [exact Hl|]. intros i a a' Ha Ha'. cbn zeta.
    destruct (BounceFacts.state_at_length wall dt i P V Hlen) as [L1 L2].
    destruct (BounceFacts.state_at_length wall dt (S i) P V Hlen) as [L3 _].
    split; [exact (Hstate _ _ Ha)|]. split; [exact (Hstate _ _ Ha')|].
    split; [lia|]. split; [lia|].
    intros k p v Hp Hv.
    destruct (BounceFacts.state_at_ball wall dt i (P, V) k p v Hp Hv) as [E1 E2].
    split; [exact E2 | exact E1].
Qed.

(** C1 fails as stated for [simulate_motion]: a ball that starts on the
    wall (x = 0) with velocity +1 is recorded at x = 0 and then at x = -1,
    because the test ran on the start position 0 before the advance.
    Advancing first and testing the advanced position, as the spec words
    it, would take it to x = 1. *)
Lemma wall_test_precedes_advance :
  exists h',
    Bounce.simulate_motion 5 0 1 0%float 1%float 1%float
      [ [(0%float, 0%float, 0%float)]; [(1%float, 0%float, 0%float)] ]
    = (h', Ok (Done [4; 5]%nat)) /\
    h' !! 4%nat = Some [(0%float, 0%float, 0%float)] /\
    h' !! 5%nat = Some [((-1)%float, 0%float, 0%float)] /\
    (Bounce.spec_advance_then_test 0%float 1%float
       ((0%float, 0%float, 0%float), (1%float, 0%float, 0%float))).1
    = (1%float, 0%float, 0%float).
Proof.
  eexists. split; [vm_compute; reflexivity|].
  repeat split; vm_compute; reflexivity.
Qed.

(** C3, as the code has it: neither simulator checks [time_step], and
    nothing raises an error for a non-positive one.  [simulate], given any
    explicit [time_step], returns a trajectory that starts with the initial
    state and has between 1 and [max_steps + 1] entries.  [simulate_motion]
    (two_balls_bounce.py) with [time_step = 0.0], a [stop_time >= 0.0] and
    arrays of equal length records a state in every iteration and never
    leaves its loop: after any number [fuel] of iterations it is still
    running and holds [fuel] recorded states. *)
Theorem time_step_is_not_validated :
  (forall (F : Type) (A : Arith F) angular_speed inner_radius release_height
      initial_velocity (time_step : F) max_steps,
    exists tr,
      simulate angular_speed inner_radius release_height initial_velocity
        (Some time_step) max_steps = Ok tr /\
      entry tr 0 = Some (initial_state inner_radius release_height) /\
      (1 <= length (time tr) <= Z.to_nat max_steps + 1)%nat) /\
  (forall (F : Type) (A : Arith F) (h : store F)
      (initial_positions initial_velocities : ref) (P V : ndarray F)
      fuel wall_x_position stop_time,
    fadd lit_zero lit_zero = lit_zero ->
    fle lit_zero stop_time = true ->
    h !! initial_positions = Some P ->
    h !! initial_velocities = Some V ->
    length P = length V ->
    exists h' l,
      Bounce.simulate_motion fuel initial_positions initial_velocities
        wall_x_position lit_zero stop_time h = (h', Ok (More l)) /\
      length l = fuel).
Proof.
  split.
  - intros F A w r h v dt n. eexists. split.
    { apply simulate_recorded. reflexivity. }
    split; [reflexivity|]. cbn [time]. rewrite length_fmap. apply recorded_length.
  - intros F A h ip iv P V fuel wall stop H0 Hle HP HV Hlen.
    rewrite (BounceFacts.simulate_motion_values _ _ _ _ _ _ _ _ _ HP HV). cbn zeta.
    destruct (BounceFacts.while_value_zero_step wall stop fuel H0 Hle [] P V Hlen)
      as [Hr Hn].
    cbn zeta in Hr, Hn. rewrite Hr. cbn [Bounce.references].
    do 2 eexists. split; [reflexivity|]. rewrite length_seq. exact Hn.
Qed.

(** C3 fails as stated: [simulate] called with [time_step = 0.0] raises
    nothing and returns six recorded states. *)
Lemma zero_time_step_is_accepted :
  simulate 1%float 10%float 2%float (3%float, 0%float) (Some 0%float) 5
  = Ok {| time := [0; 0; 0; 0; 0; 0]%float;
          x_inertial := [0; 0; 0; 0; 0; 0]%float;
          y_inertial := [-8; -8; -8; -8; -8; -8]%float |}.
Proof. vm_compute. reflexivity. Qed.



(** The values the two private arrays have when the loop is left: the
    state on entry to the iteration that did not run. *)
Lemma while_value_final {F : Type} `{Arith F} (wall_x_position time_step stop_time : F)
    fuel :
  forall snapshots (P V : ndarray F) t,
    length P = length V ->
    let w := Bounce.while_value wall_x_position time_step stop_time fuel
               snapshots (P, V) t in
    w.1.2 = Bounce.state_at wall_x_position time_step
              (length w.1.1 - length snapshots) (P, V).
Proof.
  induction fuel as [|fuel IH]; intros snapshots P V t Hlen; cbn zeta;
    cbn [Bounce.while_value]; destruct (fle t stop_time); cbn [fst snd];
    try (rewrite Nat.sub_diag; reflexivity).
  rewrite (BounceFacts.iteration_balls _ _ _ _ Hlen). cbn zeta.
  set (balls := Bounce.bounce_ball wall_x_position time_step <$> zip P V).
  assert (length (fst <$> balls) = length (snd <$> balls)) as Hlen'
    by (rewrite !length_fmap; reflexivity).
  pose proof (IH (snapshots ++ [P]) _ _ (fadd t time_step) Hlen') as Hfin.
  destruct (BounceFacts.while_value_snapshots wall_x_position time_step stop_time fuel
              (snapshots ++ [P]) _ _ (fadd t time_step) Hlen')
    as (_ & Hl & _).
  cbv zeta in Hfin, Hl.
  set (w := Bounce.while_value wall_x_position time_step stop_time fuel
              (snapshots ++ [P]) (fst <$> balls, snd <$> balls) (fadd t time_step)) in *.
  rewrite Hfin. rewrite length_app in *. cbn [length] in *.
  replace (length w.1.1 - length snapshots)%nat
    with (S (length w.1.1 - (length snapshots + 1))) by lia.
  reflexivity.
Qed.

(** After a call, the private copy of the velocities (the second object
    the call allocated) holds the velocities on entry to the iteration
    that did not run. *)
Lemma simulate_motion_final {F : Type} `{Arith F}
    (wall_x_position time_step stop_time : F) fuel
    (h : store F) initial_positions initial_velocities P V h' r l :
  h !! initial_positions = Some P ->
  h !! initial_velocities = Some V ->
  length P = length V ->
  Bounce.simulate_motion fuel initial_positions initial_velocities
    wall_x_position time_step stop_time h = (h', r) ->
  returned_list r = Some l ->
  h' !! S (length h)
  = Some (Bounce.state_at wall_x_position time_step (length l) (P, V)).2.
Proof.
  intros HP HV Hlen Hrun Hl.
  rewrite (BounceFacts.simulate_motion_values _ _ _ _ _ _ _ _ _ HP HV) in Hrun.
  cbv zeta in Hrun.
  pose proof (while_value_final wall_x_position time_step stop_time fuel [] P V
                lit_zero Hlen) as Hfin.
  cbv zeta in Hfin. cbn [length] in Hfin. rewrite Nat.sub_0_r in Hfin.
  set (w := Bounce.while_value wall_x_position time_step stop_time fuel []
              (P, V) lit_zero) in *.
  assert (h' = h ++ w.1.2.1 :: w.1.2.2 :: w.1.1) as -> by congruence.
  assert (r = Bounce.references (length h + 2) (length w.1.1) w.2) as -> by congruence.
  rewrite BounceFacts.returned_references in Hl.
  assert (length l = length w.1.1) as ->.
  { destruct w.2; [|discriminate Hl]. injection Hl as <-. apply length_seq. }
  rewrite lookup_app_r by lia.
  replace (S (length h) - length h)%nat with 1%nat by lia.
  cbn. rewrite Hfin. reflexivity.
Qed.

(** C5.  A reflect rule never removes a body: every recorded array has one
    row per ball of the input.  When ball [k] crosses the wall between the
    recorded entries [i] and [i + 1] (the wall test fails on its position
    [p] in entry [i] and holds on its position [p'] in entry [i + 1]), it
    moved there with the velocity [v] it had on entry to iteration [i], and
    the call then negates its x velocity: the next recorded array, when
    there is one, holds the ball at [p'] advanced by [v] with the x
    component multiplied by -1.0, and when the run ends with entry [i + 1]
    the velocity array the call worked on holds that reflected velocity.
    In exact arithmetic the reflected component is the negation, of
    strictly opposite sign, the speed is unchanged and the reflected advance
    takes the ball back below the wall; in binary64 it is the negation, of
    strictly opposite sign (neither zero nor NaN), and the sum of the
    squared components is unchanged. *)
Theorem reflection_reverses_velocity :
  (forall (F : Type) (A : Arith F) (h : store F)
      (initial_positions initial_velocities : ref) (P V : ndarray F)
      fuel (wall_x_position time_step stop_time : F) h' r,
    h !! initial_positions = Some P ->
    h !! initial_velocities = Some V ->
    length P = length V ->
    Bounce.simulate_motion fuel initial_positions initial_velocities
      wall_x_position time_step stop_time h = (h', r) ->
    exists l, returned_list r = Some l /\
      (forall j a, l !! j = Some a ->
         exists Pj, h' !! a = Some Pj /\ length Pj = length P) /\
      (forall i k p p' v,
         recorded_ball h' l
           (fun j => Bounce.state_at wall_x_position time_step j (P, V)) i k p p' v ->
         fge p.1.1 wall_x_position = false ->
         fge p'.1.1 wall_x_position = true ->
         p' = row_add p (row_scale v time_step) /\
         (Bounce.state_at wall_x_position time_step (S (S i)) (P, V)).2 !! k
         = Some (Bounce.negate_x v) /\
         (forall a'', l !! S (S i) = Some a'' ->
            exists P'', h' !! a'' = Some P'' /\
              P'' !! k = Some (row_add p' (row_scale (Bounce.negate_x v) time_step))) /\
         (length l = S (S i) ->
            exists Vf, h' !! S (length h) = Some Vf /\
              Vf !! k = Some (Bounce.negate_x v)))) /\
  (forall (p v : row R) (wall_x_position time_step : R),
    fge p.1.1 wall_x_position = false ->
    fge (row_add p (row_scale v time_step)).1.1 wall_x_position = true ->
    let v' := Bounce.negate_x v in
    v'.1.1 = (- v.1.1)%R /\ (v'.1.1 * v.1.1 < 0)%R /\
    v'.1.2 = v.1.2 /\ v'.2 = v.2 /\
    speed v' = speed v /\
    (row_add (row_add p (row_scale v time_step)) (row_scale v' time_step)).1.1
    = p.1.1) /\
  (forall (p v : row float) (wall_x_position time_step : float),
    fge p.1.1 wall_x_position = false ->
    fge (row_add p (row_scale v time_step)).1.1 wall_x_position = true ->
    let v' := Bounce.negate_x v in
    v'.1.1 = PrimFloat.opp v.1.1 /\
    ((PrimFloat.ltb 0%float v.1.1 = true /\ PrimFloat.ltb v'.1.1 0%float = true) \/
     (PrimFloat.ltb v.1.1 0%float = true /\ PrimFloat.ltb 0%float v'.1.1 = true)) /\
    v'.1.2 = v.1.2 /\ v'.2 = v.2 /\
    squared_speed v' = squared_speed v).
Proof.
  split; [|split].
  - intros F A h ip iv P V fuel wall dt stop h' r HP HV Hlen Hrun.
    destruct (BounceFacts.simulate_motion_states _ _ _ _ _ _ _ _ _ _ _ HP HV Hlen Hrun)
      as (l & Hl & _ & Hstate).
    exists l. split; [exact Hl|]. split.
    + intros j a Ha. eexists. split; [exact (Hstate _ _ Ha)|].
      apply BounceFacts.state_at_length. exact Hlen.
    + intros i k p p' v (a & a' & Pi & Pi' & Ha & Ha' & HPi & HPi' & Hp & Hp' & Hv).
      pose proof (Hstate _ _ Ha) as Hs. pose proof (Hstate _ _ Ha') as Hs'.
      assert (Pi = (Bounce.state_at wall dt i (P, V)).1) as -> by congruence.
      assert (Pi' = (Bounce.state_at wall dt (S i) (P, V)).1) as -> by congruence.
      intros Hbelow Habove.
      destruct (BounceFacts.crossing_velocity _ _ _ _ _ _ _ _ Hp Hp' Hv Hbelow Habove)
        as [Hmove Hv''].
      destruct (BounceFacts.state_at_ball _ _ _ _ _ _ _ Hp Hv) as [_ Hv'].
      unfold Bounce.bounce_ball in Hv'. cbn [fst snd] in Hv'. rewrite Hbelow in Hv'.
      destruct (BounceFacts.state_at_ball _ _ _ _ _ _ _ Hp' Hv') as [Hp'' _].
      unfold Bounce.bounce_ball in Hp''. cbn [fst snd] in Hp''. rewrite Habove in Hp''.
      split; [exact Hmove|]. split; [exact Hv''|]. split.
      * intros a'' Ha''. eexists. split; [exact (Hstate _ _ Ha'')|exact Hp''].
      * intros Hlast. eexists. split.
        -- exact (simulate_motion_final _ _ _ _ _ _ _ _ _ _ _ _ HP HV Hlen Hrun Hl).
        -- rewrite Hlast. exact Hv''.
  - intros [[px py] pz] [[vx vy] vz] wall dt Hbelow Habove.
    apply exact_fge_false in Hbelow. apply exact_fge_true in Habove.
    unfold row_add, row_scale, Bounce.negate_x in *.
    cbn [fst snd fadd fmul lit_minus_one exact] in *. cbn zeta.
    split; [lra|]. split; [nra|]. split; [reflexivity|]. split; [reflexivity|].
    split; [|lra]. unfold speed. cbn [fst snd]. f_equal. ring.
  - intros [[px py] pz] [[vx vy] vz] wall dt Hbelow Habove.
    unfold row_add, row_scale, Bounce.negate_x, squared_speed in *.
    cbn [fst snd fadd fmul fge lit_minus_one binary64] in *. cbn zeta.
    rewrite Binary64Facts.mul_minus_one.
    split; [reflexivity|]. split.
    + destruct (Binary64Facts.step_sign _ _ _ _ Hbelow Habove) as [Hpos|Hneg].
      * left. split; [exact Hpos|]. apply Binary64Facts.opp_sign. exact Hpos.
      * right. split; [exact Hneg|]. apply Binary64Facts.opp_sign. exact Hneg.
    + split; [reflexivity|]. split; [reflexivity|].
      rewrite Binary64Facts.mul_opp_opp. reflexivity.
Qed.

(** ** Concrete runs *)


(** [main] of two_balls_bounce.py (wall at 0, time step 0.01, stop time
    1.0) returns: the loop ends after 100 iterations, the clock having
    reached 1.0000000000000007. *)
Lemma main_returns :
  exists h' l,
    Bounce.simulate_motion 200 0 1 0%float 0.01%float 1%float main_store
    = (h', Ok (Done l)) /\
    length l = 100%nat /\
    h' !! 0%nat = main_store !! 0%nat /\ h' !! 1%nat = main_store !! 1%nat.
Proof.
  do 2 eexists. split; [vm_compute; reflexivity|].
  repeat split; vm_compute; reflexivity.
Qed.

(** An exact run of [simulate]: released at (0, -8) with velocity (6, 0)
    and time step 1, the first advance reaches (6, -8), at distance 10. *)
Lemma exact_station_example :
  fge (radius_of (advance (6, 0)%R 1%R (initial_state 10%R 2%R))) 10%R = true /\
  recorded 10%R 2%R (6, 0)%R 1%R 1
  = [ initial_state 10%R 2%R;
      clamp 10%R (advance (6, 0)%R 1%R (initial_state 10%R 2%R)) ].
Proof.
  assert (fge (radius_of (advance (6, 0)%R 1%R (initial_state 10%R 2%R))) 10%R = true)
    as Ht.
  { apply exact_fge_true. rewrite exact_radius_of.
    unfold advance, initial_state. cbn [fst snd fadd fmul fneg lit_zero exact].
    replace ((0 + 6 * 1) * (0 + 6 * 1) + (- (10) + 2 + 0 * 1) * (- (10) + 2 + 0 * 1))%R
      with (10 * 10)%R by lra.
    rewrite sqrt_square by lra. lra. }
  split; [exact Ht|].
  unfold recorded. change (Z.to_nat 1) with 1%nat. cbn [entries]. cbn zeta.
  rewrite Ht. reflexivity.
Qed.

(** A longer exact run of [simulate]: released at (0, -8) with velocity
    (3, 0) and time step 1, the first advance reaches (3, -8), inside the
    hull, the second reaches (6, -8), at distance 10, and ends the run
    with three of the six entries that [max_steps = 5] allows. *)
Lemma exact_station_flight :
  recorded 10%R 2%R (3, 0)%R 1%R 5
  = [ initial_state 10%R 2%R;
      advance (3, 0)%R 1%R (initial_state 10%R 2%R);
      clamp 10%R (advance (3, 0)%R 1%R
                    (advance (3, 0)%R 1%R (initial_state 10%R 2%R))) ].
Proof.
  assert (fge (radius_of (advance (3, 0)%R 1%R (initial_state 10%R 2%R))) 10%R = false)
    as Ht1.
  { apply exact_fge_false. rewrite exact_radius_of.
    unfold advance, initial_state. cbn [fst snd fadd fmul fneg lit_zero exact].
    apply Rlt_le_trans with (R_sqrt.sqrt (10 * 10)); [|rewrite sqrt_square; lra].
    apply sqrt_lt_1_alt. lra. }
  assert (fge (radius_of (advance (3, 0)%R 1%R
                            (advance (3, 0)%R 1%R (initial_state 10%R 2%R)))) 10%R = true)
    as Ht2.
  { apply exact_fge_true. rewrite exact_radius_of.
    unfold advance, initial_state. cbn [fst snd fadd fmul fneg lit_zero exact].
    match goal with |- (R_sqrt.sqrt ?a >= _)%R => replace a with (10 * 10)%R by lra end.
    rewrite sqrt_square by lra. lra. }
  unfold recorded. change (Z.to_nat 5) with 5%nat. cbn [entries]. cbn zeta.
  rewrite Ht1, Ht2. reflexivity.
Qed.

Lemma exact_station_flight_run :
  exists tr,
    Station.simulate 1%R 10%R 2%R (3, 0)%R (Some 1%R) 5 = Ok tr /\
    length (Station.time tr) = 3%nat /\
    Station.entry tr 1 = Some ((0 + 3 * 1)%R, (- (10) + 2 + 0 * 1)%R, (0 + 1)%R).
Proof.
  eexists. split.
  - exact (simulate_recorded (F := R) 1%R 10%R 2%R (3, 0)%R (Some 1%R) 1%R 5 eq_refl).
  - cbn zeta. rewrite exact_station_flight. split; reflexivity.
Qed.

Lemma exact_bounce_example :
  Bounce.simulate_motion 3 0 1 0%R 1%R 2%R exact_store
  = (exact_store
     ++ [ [ ((-1 + 2 * 1 + 2 * -1 * 1 + 2 * -1 * 1)%R, (0 + 0 * 1 + 0 * 1 + 0 * 1)%R,
            (0 + 0 * 1 + 0 * 1 + 0 * 1)%R) ];
          [ ((2 * -1)%R, 0%R, 0%R) ];
          [ ((-1)%R, 0%R, 0%R) ];
          [ ((-1 + 2 * 1)%R, (0 + 0 * 1)%R, (0 + 0 * 1)%R) ];
          [ ((-1 + 2 * 1 + 2 * -1 * 1)%R, (0 + 0 * 1 + 0 * 1)%R,
             (0 + 0 * 1 + 0 * 1)%R) ] ],
     Ok (Done [4; 5; 6]%nat)).
Proof.
  rewrite (BounceFacts.simulate_motion_values 0%R 1%R 2%R 3 exact_store 0 1
             [ ((-1)%R, 0%R, 0%R) ] [ (2%R, 0%R, 0%R) ] eq_refl eq_refl).
  cbn zeta.
  assert (Bounce.while_value 0%R 1%R 2%R 3 [] ([ ((-1)%R, 0%R, 0%R) ], [ (2%R, 0%R, 0%R) ])
            lit_zero
          = ([ [ ((-1)%R, 0%R, 0%R) ];
               [ ((-1 + 2 * 1)%R, (0 + 0 * 1)%R, (0 + 0 * 1)%R) ];
               [ ((-1 + 2 * 1 + 2 * -1 * 1)%R, (0 + 0 * 1 + 0 * 1)%R,
                  (0 + 0 * 1 + 0 * 1)%R) ] ],
             ([ ((-1 + 2 * 1 + 2 * -1 * 1 + 2 * -1 * 1)%R, (0 + 0 * 1 + 0 * 1 + 0 * 1)%R,
                 (0 + 0 * 1 + 0 * 1 + 0 * 1)%R) ],
              [ ((2 * -1)%R, 0%R, 0%R) ]),
             Ok (Done tt))) as ->.
  { repeat first
      [ progress cbn
      | match goal with
        | |- context [Rle_dec ?a ?b] => destruct (Rle_dec a b); try lra
        | |- context [Rge_dec ?a ?b] => destruct (Rge_dec a b); try lra
        end ].
    reflexivity. }
  reflexivity.
Qed.

(** The same ball with stop time 1: the loop runs twice, and the call ends
    with entry 1, in which the ball is beyond the wall. *)
Lemma exact_bounce_short :
  Bounce.simulate_motion 3 0 1 0%R 1%R 1%R exact_store
  = (exact_store
     ++ [ [ ((-1 + 2 * 1 + 2 * -1 * 1)%R, (0 + 0 * 1 + 0 * 1)%R, (0 + 0 * 1 + 0 * 1)%R) ];
          [ ((2 * -1)%R, 0%R, 0%R) ];
          [ ((-1)%R, 0%R, 0%R) ];
          [ ((-1 + 2 * 1)%R, (0 + 0 * 1)%R, (0 + 0 * 1)%R) ] ],
     Ok (Done [4; 5]%nat)).
Proof.
  rewrite (BounceFacts.simulate_motion_values 0%R 1%R 1%R 3 exact_store 0 1
             [ ((-1)%R, 0%R, 0%R) ] [ (2%R, 0%R, 0%R) ] eq_refl eq_refl).
  cbn zeta.
  assert (Bounce.while_value 0%R 1%R 1%R 3 [] ([ ((-1)%R, 0%R, 0%R) ], [ (2%R, 0%R, 0%R) ])
            lit_zero
          = ([ [ ((-1)%R, 0%R, 0%R) ];
               [ ((-1 + 2 * 1)%R, (0 + 0 * 1)%R, (0 + 0 * 1)%R) ] ],
             ([ ((-1 + 2 * 1 + 2 * -1 * 1)%R, (0 + 0 * 1 + 0 * 1)%R,
                 (0 + 0 * 1 + 0 * 1)%R) ],
              [ ((2 * -1)%R, 0%R, 0%R) ]),
             Ok (Done tt))) as ->.
  { repeat first
      [ progress cbn
      | match goal with
        | |- context [Rle_dec ?a ?b] => destruct (Rle_dec a b); try lra
        | |- context [Rge_dec ?a ?b] => destruct (Rge_dec a b); try lra
        end ].
    reflexivity. }
  reflexivity.
Qed.

(** ** Instances of the theorems above at concrete inputs *)

Lemma recorded_times_accumulate_witness :
  (exists tr : trajectory float,
     simulate 1%float 10%float 2%float (0%float, 0%float) (Some 0.5%float) 2 = Ok tr /\
     time tr !! 0%nat = Some 0%float /\
     forall i t', time tr !! S i = Some t' ->
       exists t, time tr !! i = Some t /\ t' = PrimFloat.add t 0.5%float) /\
  (exists tr : trajectory R,
     simulate 1%R 10%R 2%R (6, 0)%R (Some 1%R) 1 = Ok tr /\
     (0 < 1)%R /\
     (forall i t, time tr !! i = Some t -> t = (INR i * 1)%R) /\
     forall i j ti tj, (i < j)%nat ->
       time tr !! i = Some ti -> time tr !! j = Some tj -> (ti < tj)%R).
Proof.
  split.
  - eexists. split; [vm_compute; reflexivity|].
    exact (proj1 recorded_times_accumulate float binary64 1%float 10%float 2%float
             (0%float, 0%float) (Some 0.5%float) 0.5%float 2%Z _ eq_refl eq_refl).
  - eexists. split; [apply (simulate_recorded (F := R)); reflexivity|].
    split; [lra|].
    pose proof (proj2 recorded_times_accumulate 1%R 10%R 2%R (6, 0)%R (Some 1%R) 1%R 1%Z _
                  eq_refl (simulate_recorded (F := R) 1%R 10%R 2%R (6, 0)%R (Some 1%R) 1%R 1%Z eq_refl)) as [H1 H2].
    split; [exact H1 | apply H2; lra].
Defined.


Lemma clamp_divisor_positive_witness :
  (exists tr : trajectory R,
     simulate 1%R 10%R 2%R (6, 0)%R (Some 1%R) 1 = Ok tr /\
     (0 < 10)%R /\
     entry tr 1 = Some (clamp 10%R (advance (6, 0)%R 1%R (initial_state 10%R 2%R))) /\
     (0 < radius_of (advance (6, 0)%R 1%R (initial_state 10%R 2%R)))%R) /\
  (exists tr : trajectory float,
     simulate 1%float 10%float 2%float (6%float, 0%float) (Some 1%float) 1 = Ok tr /\
     PrimFloat.ltb 0%float 10%float = true /\
     entry tr 1 = Some (6%float, (-8)%float, 1%float) /\
     PrimFloat.ltb 0%float
       (radius_of (advance (6%float, 0%float) 1%float (initial_state 10%float 2%float)))
     = true).
Proof.
  split.
  - destruct exact_station_example as [Ht Hrec].
    pose proof (simulate_recorded (F := R) 1%R 10%R 2%R (6, 0)%R (Some 1%R) 1%R 1%Z eq_refl)
      as Hs.
    cbn zeta in Hs. rewrite Hrec in Hs.
    eexists. split; [exact Hs|].
    assert (0 < 10)%R as Hpos by lra.
    split; [exact Hpos|]. split; [reflexivity|].
    exact (proj2 (proj1 clamp_divisor_positive 1%R 10%R 2%R (6, 0)%R (Some 1%R) 1%R 1%Z _ 0
                    _ _ Hpos eq_refl Hs eq_refl eq_refl Ht)).
  - eexists. split; [vm_compute; reflexivity|].
    split; [reflexivity|]. split; [reflexivity|].
    exact (proj2 (proj2 clamp_divisor_positive 1%float 10%float 2%float
                    (6%float, 0%float) (Some 1%float) 1%float 1%Z _ 0
                    (0%float, (-8)%float, 0%float) (6%float, (-8)%float, 1%float)
                    eq_refl eq_refl eq_refl eq_refl eq_refl eq_refl)).
Defined.


Lemma boundary_test_order_witness :
  (exists tr : trajectory float,
     simulate 1%float 10%float 2%float (6%float, 0%float) (Some 1%float) 1 = Ok tr /\
     entry tr 0 = Some (0%float, (-8)%float, 0%float) /\
     entry tr 1 = Some (6%float, (-8)%float, 1%float) /\
     ((fge (radius_of (advance (6%float, 0%float) 1%float (0%float, (-8)%float, 0%float)))
         10%float = false /\
       (6%float, (-8)%float, 1%float)
       = advance (6%float, 0%float) 1%float (0%float, (-8)%float, 0%float)) \/
      (fge (radius_of (advance (6%float, 0%float) 1%float (0%float, (-8)%float, 0%float)))
         10%float = true /\
       (6%float, (-8)%float, 1%float)
       = clamp 10%float
           (advance (6%float, 0%float) 1%float (0%float, (-8)%float, 0%float))))) /\
  (exists h' r,
     Bounce.simulate_motion 3 0 1 0%float 1%float 1%float main_store = (h', r) /\
     main_store !! 0%nat
     = Some [ ((-10)%float, 0%float, 0%float); ((-8)%float, 1.5%float, 0%float) ] /\
     main_store !! 1%nat
     = Some [ (25%float, 0%float, 0%float); (18%float, 0%float, 0%float) ] /\
     exists l, returned_list r = Some l /\
       forall i a a', l !! i = Some a -> l !! S i = Some a' ->
         let s := Bounce.state_at 0%float 1%float i
                    ([ ((-10)%float, 0%float, 0%float); ((-8)%float, 1.5%float, 0%float) ],
                     [ (25%float, 0%float, 0%float); (18%float, 0%float, 0%float) ]) in
         let s' := Bounce.state_at 0%float 1%float (S i)
                    ([ ((-10)%float, 0%float, 0%float); ((-8)%float, 1.5%float, 0%float) ],
                     [ (25%float, 0%float, 0%float); (18%float, 0%float, 0%float) ]) in
         h' !! a = Some s.1 /\ h' !! a' = Some s'.1 /\
         length s.2 = length s.1 /\ length s'.1 = length s.1 /\
         forall k p v, s.1 !! k = Some p -> s.2 !! k = Some v ->
           let v' := if fge p.1.1 0%float then Bounce.negate_x v else v in
           s'.2 !! k = Some v' /\
           s'.1 !! k = Some (row_add p (row_scale v' 1%float))).
Proof.
  split.
  - eexists. split; [vm_compute; reflexivity|].
    split; [reflexivity|]. split; [reflexivity|].
    exact (proj1 boundary_test_order float binary64 1%float 10%float 2%float
             (6%float, 0%float) (Some 1%float) 1%float 1%Z _ 0
             (0%float, (-8)%float, 0%float) (6%float, (-8)%float, 1%float)
             eq_refl eq_refl eq_refl eq_refl).
  - do 2 eexists. split; [vm_compute; reflexivity|].
    split; [reflexivity|]. split; [reflexivity|].
    exact (proj2 boundary_test_order float binary64 main_store 0 1 _ _ 3
             0%float 1%float 1%float _ _ eq_refl eq_refl eq_refl eq_refl).
Defined.

Lemma time_step_is_not_validated_witness :
  (exists tr : trajectory float,
     simulate 1%float 10%float 2%float (3%float, 0%float) (Some 0%float) 5 = Ok tr /\
     entry tr 0 = Some (initial_state 10%float 2%float) /\
     (1 <= length (time tr) <= Z.to_nat 5 + 1)%nat) /\
  (PrimFloat.add 0%float 0%float = 0%float /\
   PrimFloat.leb 0%float 1%float = true /\
   exists h' l,
     Bounce.simulate_motion 7 0 1 0%float 0%float 1%float main_store
     = (h', Ok (More l)) /\
     length l = 7%nat).
Proof.
  split.
  - exact (proj1 time_step_is_not_validated float binary64 1%float 10%float 2%float
             (3%float, 0%float) 0%float 5%Z).
  - split; [reflexivity|]. split; [reflexivity|].
    exact (proj2 time_step_is_not_validated float binary64 main_store 0 1 _ _ 7
             0%float 1%float eq_refl eq_refl eq_refl eq_refl eq_refl).
Defined.


Lemma reflection_reverses_velocity_witness :
  (exists h' l,
     Bounce.simulate_motion 3 0 1 0%R 1%R 2%R exact_store = (h', Ok (Done l)) /\
     recorded_ball h' l
       (fun j => Bounce.state_at 0%R 1%R j ([ ((-1)%R, 0%R, 0%R) ], [ (2%R, 0%R, 0%R) ]))
       0 0 ((-1)%R, 0%R, 0%R) ((-1 + 2 * 1)%R, (0 + 0 * 1)%R, (0 + 0 * 1)%R)
       (2%R, 0%R, 0%R) /\
     fge (-1)%R 0%R = false /\ fge (-1 + 2 * 1)%R 0%R = true /\
     (Bounce.state_at 0%R 1%R 2 ([ ((-1)%R, 0%R, 0%R) ], [ (2%R, 0%R, 0%R) ])).2 !! 0%nat
     = Some ((2 * -1)%R, 0%R, 0%R) /\
     (exists P'', h' !! 6%nat = Some P'' /\
        P'' !! 0%nat
        = Some (row_add ((-1 + 2 * 1)%R, (0 + 0 * 1)%R, (0 + 0 * 1)%R)
                  (row_scale (Bounce.negate_x (2%R, 0%R, 0%R)) 1%R))) /\
     ((2 * -1) * 2 < 0)%R /\
     speed ((2 * -1)%R, 0%R, 0%R) = speed (2%R, 0%R, 0%R)) /\
  (exists h' l,
     Bounce.simulate_motion 3 0 1 0%R 1%R 1%R exact_store = (h', Ok (Done l)) /\
     length l = 2%nat /\
     exists Vf, h' !! S (length exact_store) = Some Vf /\
       Vf !! 0%nat = Some (Bounce.negate_x (2%R, 0%R, 0%R))) /\
  (let v' := Bounce.negate_x (25%float, 0%float, 0%float) in
   fge (-0.25)%float 0%float = false /\
   fge (row_add ((-0.25)%float, 0%float, 0%float)
          (row_scale (25%float, 0%float, 0%float) 0.01%float)).1.1 0%float = true /\
   v'.1.1 = (-25)%float /\
   PrimFloat.ltb v'.1.1 0%float = true /\
   squared_speed v' = squared_speed (25%float, 0%float, 0%float)).
Proof.
  assert (fge (-1)%R 0%R = false) as Hbelow by (apply exact_fge_false; lra).
  assert (fge (-1 + 2 * 1)%R 0%R = true) as Habove by (apply exact_fge_true; lra).
  split; [|split].
  - do 2 eexists. split; [exact exact_bounce_example|].
    assert (recorded_ball
              (exact_store
               ++ [ [ ((-1 + 2 * 1 + 2 * -1 * 1 + 2 * -1 * 1)%R,
                       (0 + 0 * 1 + 0 * 1 + 0 * 1)%R, (0 + 0 * 1 + 0 * 1 + 0 * 1)%R) ];
                    [ ((2 * -1)%R, 0%R, 0%R) ];
                    [ ((-1)%R, 0%R, 0%R) ];
                    [ ((-1 + 2 * 1)%R, (0 + 0 * 1)%R, (0 + 0 * 1)%R) ];
                    [ ((-1 + 2 * 1 + 2 * -1 * 1)%R, (0 + 0 * 1 + 0 * 1)%R,
                       (0 + 0 * 1 + 0 * 1)%R) ] ])
              [4; 5; 6]%nat
              (fun j => Bounce.state_at 0%R 1%R j
                          ([ ((-1)%R, 0%R, 0%R) ], [ (2%R, 0%R, 0%R) ]))
              0 0 ((-1)%R, 0%R, 0%R) ((-1 + 2 * 1)%R, (0 + 0 * 1)%R, (0 + 0 * 1)%R)
              (2%R, 0%R, 0%R)) as Hball.
    { exists 4%nat, 5%nat. do 2 eexists. repeat split; reflexivity. }
    split; [exact Hball|]. split; [exact Hbelow|]. split; [exact Habove|].
    destruct (proj1 reflection_reverses_velocity R exact exact_store 0%nat 1%nat
                [ ((-1)%R, 0%R, 0%R) ] [ (2%R, 0%R, 0%R) ] 3%nat 0%R 1%R 2%R _ _
                eq_refl eq_refl eq_refl exact_bounce_example)
      as (l' & Hl' & _ & Hcross).
    injection Hl' as <-.
    destruct (Hcross 0%nat 0%nat _ _ _ Hball Hbelow Habove) as (_ & Hv' & Hnext & _).
    split; [exact Hv'|]. split; [exact (Hnext 6%nat eq_refl)|].
    destruct (proj1 (proj2 reflection_reverses_velocity)
                ((-1)%R, 0%R, 0%R) (2%R, 0%R, 0%R) 0%R 1%R Hbelow Habove)
      as (_ & Hsign & _ & _ & Hspeed & _).
    split; [exact Hsign | exact Hspeed].
  - do 2 eexists. split; [exact exact_bounce_short|]. split; [reflexivity|].
    assert (recorded_ball
              (exact_store
               ++ [ [ ((-1 + 2 * 1 + 2 * -1 * 1)%R, (0 + 0 * 1 + 0 * 1)%R,
                       (0 + 0 * 1 + 0 * 1)%R) ];
                    [ ((2 * -1)%R, 0%R, 0%R) ];
                    [ ((-1)%R, 0%R, 0%R) ];
                    [ ((-1 + 2 * 1)%R, (0 + 0 * 1)%R, (0 + 0 * 1)%R) ] ])
              [4; 5]%nat
              (fun j => Bounce.state_at 0%R 1%R j
                          ([ ((-1)%R, 0%R, 0%R) ], [ (2%R, 0%R, 0%R) ]))
              0 0 ((-1)%R, 0%R, 0%R) ((-1 + 2 * 1)%R, (0 + 0 * 1)%R, (0 + 0 * 1)%R)
              (2%R, 0%R, 0%R)) as Hball.
    { exists 4%nat, 5%nat. do 2 eexists. repeat split; reflexivity. }
    destruct (proj1 reflection_reverses_velocity R exact exact_store 0%nat 1%nat
                [ ((-1)%R, 0%R, 0%R) ] [ (2%R, 0%R, 0%R) ] 3%nat 0%R 1%R 1%R _ _
                eq_refl eq_refl eq_refl exact_bounce_short)
      as (l' & Hl' & _ & Hcross).
    injection Hl' as <-.
    destruct (Hcross 0%nat 0%nat _ _ _ Hball Hbelow Habove) as (_ & _ & _ & Hlast).
    exact (Hlast eq_refl).
  - cbn zeta. split; [reflexivity|]. split; [reflexivity|].
    destruct (proj2 (proj2 reflection_reverses_velocity)
                ((-0.25)%float, 0%float, 0%float) (25%float, 0%float, 0%float)
                0%float 0.01%float eq_refl eq_refl)
      as (_ & _ & _ & _ & Hspeed).
    split; [reflexivity|]. split; [reflexivity|]. exact Hspeed.
Defined.

Lemma simulators_are_deterministic_witness :
  exists h1 r1 h2 r2,
    main_store !! 0%nat
    = Some [ ((-10)%float, 0%float, 0%float); ((-8)%float, 1.5%float, 0%float) ] /\
    main_store !! 1%nat
    = Some [ (25%float, 0%float, 0%float); (18%float, 0%float, 0%float) ] /\
    Bounce.simulate_motion 5 0 1 0%float 0.5%float 1%float main_store = (h1, r1) /\
    Bounce.simulate_motion 5 0 1 0%float 0.5%float 1%float h1 = (h2, r2) /\
    observe h2 r2 = observe h1 r1 /\ observe h2 r1 = observe h1 r1.
Proof.
  do 4 eexists. split; [reflexivity|]. split; [reflexivity|].
  split; [vm_compute; reflexivity|]. split; [vm_compute; reflexivity|].
  exact (proj1 simulators_are_deterministic float binary64 main_store 0 1 _ _ 5
           0%float 0.5%float 1%float _ _ _ _ eq_refl eq_refl eq_refl eq_refl).
Defined.

Lemma simulate_motion_leaves_inputs_witness :
  main_store !! 0%nat
  = Some [ ((-10)%float, 0%float, 0%float); ((-8)%float, 1.5%float, 0%float) ] /\
  main_store !! 1%nat
  = Some [ (25%float, 0%float, 0%float); (18%float, 0%float, 0%float) ] /\
  exists h' l,
    Bounce.simulate_motion 5 0 1 0%float 0.5%float 1%float main_store
    = (h', Ok (Done l)) /\
    h' !! 0%nat = main_store !! 0%nat /\ h' !! 1%nat = main_store !! 1%nat /\
    NoDup l /\
    forall a, a ∈ l -> a <> 0%nat /\ a <> 1%nat /\
      main_store !! a = None /\ is_Some (h' !! a).
Proof.
  split; [reflexivity|]. split; [reflexivity|].
  do 2 eexists. split; [vm_compute; reflexivity|].
  destruct (proj1 (simulate_motion_leaves_inputs float binary64 main_store 0 1 _ _
                     eq_refl eq_refl)
              5 0%float 0.5%float 1%float _ _ eq_refl)
    as (H0 & H1 & _ & Hl).
  split; [exact H0|]. split; [exact H1|]. exact (Hl _ eq_refl).
Defined.

(** * Further properties of the scripts *)

(** ** two_balls_cross.py: the program computes the value-level loop *)

Module CrossValueFacts.
Import StoreFacts Cross.

Section Refinement.
Context {F : Type} `{Arith F}.
Local Open Scope arith_scope.

Lemma cross_while_value_app time_step stop_time fuel :
  forall snapshots (P V : ndarray F) t,
    CrossValues.while_value time_step stop_time fuel snapshots P V t
    = (snapshots ++ (CrossValues.while_value time_step stop_time fuel [] P V t).1,
       (CrossValues.while_value time_step stop_time fuel [] P V t).2).
Proof.
  induction fuel as [|fuel IH]; intros snapshots P V t; cbn [CrossValues.while_value];
    destruct (t <=? stop_time); cbn [fst snd]; rewrite ?app_nil_r; try reflexivity.
  destruct (CrossValues.moved P V time_step) as [P'|e]; cbn [fst snd app].
  - rewrite (IH (snapshots ++ [P])), (IH [P]). cbn [fst snd].
    rewrite <- app_assoc. reflexivity.
  - reflexivity.
Qed.

Lemma mul_scalar_value (h : store F) a x c :
  h !! a = Some x ->
  np_mul_scalar a c h = (h ++ [(fun v => row_scale v c) <$> x], Ok (length h)).
Proof. intros Ha. unfold np_mul_scalar, bind, load, alloc. rewrite Ha. reflexivity. Qed.

Lemma add_value (h : store F) a b x y :
  h !! a = Some x -> h !! b = Some y ->
  np_add a b h
  = match broadcast_add x y with
    | Ok z => (h ++ [z], Ok (length h))
    | Raise e => (h, Raise e)
    end.
Proof.
  intros Ha Hb. unfold np_add, bind, load, alloc, raise. rewrite Ha, Hb.
  destruct (broadcast_add x y); reflexivity.
Qed.

(** The loop, from a store in which its two working references are
    arrays: the store grows, the references added to the list are new
    objects, and they hold the snapshots of the value-level loop. *)
Lemma cross_while_values time_step stop_time fuel :
  forall st (h : store F) P V,
    h !! positions st = Some P ->
    h !! velocities st = Some V ->
    let w := CrossValues.while_value time_step stop_time fuel [] P V (current_time st) in
    exists ext new,
      while_loop time_step stop_time fuel st h
      = (h ++ ext, carrying (positions_over_time st ++ new) w.2) /\
      (fun a => (h ++ ext) !! a) <$> new = Some <$> w.1.
Proof.
  induction fuel as [|fuel IH]; intros st h P V HP HV; cbn zeta;
    cbn [while_loop CrossValues.while_value]; destruct (current_time st <=? stop_time);
    try (exists [], []; rewrite !app_nil_r; split; reflexivity).
  unfold bind. rewrite (copy_value _ _ _ HP).
  assert ((h ++ [P]) !! velocities st = Some V) as HV1.
  { rewrite lookup_app_l by (eapply lookup_lt_Some; eassumption). exact HV. }
  rewrite (mul_scalar_value _ _ _ _ HV1).
  set (scaled := (fun v => row_scale v time_step) <$> V).
  assert (((h ++ [P]) ++ [scaled]) !! positions st = Some P) as HP2.
  { rewrite <- app_assoc. rewrite lookup_app_l by (eapply lookup_lt_Some; eassumption).
    exact HP. }
  assert (((h ++ [P]) ++ [scaled]) !! length (h ++ [P]) = Some scaled) as HS2.
  { apply list_lookup_middle. reflexivity. }
  rewrite (add_value _ _ _ _ _ HP2 HS2).
  unfold CrossValues.moved. fold scaled.
  destruct (broadcast_add P scaled) as [P'|e].
  - match goal with |- context [while_loop _ _ fuel ?s ?h1] =>
      destruct (IH s h1 P' V) as (ext & new & Hrun & Hval) end.
    { cbn [positions]. apply list_lookup_middle. reflexivity. }
    { cbn [velocities]. rewrite <- !app_assoc.
      rewrite lookup_app_l by (eapply lookup_lt_Some; eassumption). exact HV. }
    rewrite Hrun. cbn zeta in Hval. cbn [positions_over_time current_time] in Hval |- *.
    rewrite (cross_while_value_app _ _ _ [P]). cbn [fst snd].
    exists ([P] ++ [scaled] ++ [P'] ++ ext), (length h :: new).
    rewrite <- !app_assoc. cbn [app]. split; [reflexivity|].
    rewrite !fmap_cons. f_equal.
    + apply list_lookup_middle. reflexivity.
    + rewrite <- Hval. rewrite <- !app_assoc. reflexivity.
  - exists [P; scaled], [length h]. rewrite <- app_assoc. cbn [app fst snd carrying].
    split; [reflexivity|]. rewrite !fmap_cons. f_equal.
    apply list_lookup_middle. reflexivity.
Qed.

(** The call: what the caller sees is what the value-level loop computes
    from the values of the two arguments. *)
Lemma cross_simulate_motion_values time_step stop_time fuel
    (h : store F) initial_positions initial_velocities P V h' r :
  h !! initial_positions = Some P ->
  h !! initial_velocities = Some V ->
  simulate_motion fuel initial_positions initial_velocities time_step stop_time h
  = (h', r) ->
  observe h' r
  = observed (CrossValues.while_value time_step stop_time fuel [] P V lit_zero).1
      (CrossValues.while_value time_step stop_time fuel [] P V lit_zero).2.
Proof.
  intros HP HV. unfold simulate_motion, bind.
  rewrite (copy_value _ _ _ HP).
  rewrite (copy_value (h ++ [P]) initial_velocities V)
    by (rewrite lookup_app_l by (eapply lookup_lt_Some; eassumption); exact HV).
  match goal with |- while_loop _ _ _ ?s ?h1 = _ -> _ =>
    destruct (cross_while_values time_step stop_time fuel s h1 P V)
      as (ext & new & Hrun & Hval) end.
  { cbn [positions]. rewrite <- app_assoc. apply list_lookup_middle. reflexivity. }
  { cbn [velocities]. apply list_lookup_middle. reflexivity. }
  cbn zeta in Hrun, Hval. cbn [current_time positions_over_time app] in Hrun, Hval.
  rewrite Hrun. intros [= <- <-].
  destruct (CrossValues.while_value time_step stop_time fuel [] P V lit_zero)
    as [snaps [[[]|[]]|e]]; cbn [fst snd carrying observe observed] in *;
    rewrite ?Hval; reflexivity.
Qed.

End Refinement.
End CrossValueFacts.

(** ** What the caller sees of the two [simulate_motion] *)

Section Observed.
Context {F : Type} `{Arith F}.
Local Open Scope arith_scope.

Lemma bounce_observed wall_x_position time_step stop_time fuel
    (h : store F) initial_positions initial_velocities P V h' r :
  h !! initial_positions = Some P ->
  h !! initial_velocities = Some V ->
  Bounce.simulate_motion fuel initial_positions initial_velocities
    wall_x_position time_step stop_time h = (h', r) ->
  observe h' r
  = observed
      (Bounce.while_value wall_x_position time_step stop_time fuel [] (P, V) lit_zero).1.1
      (Bounce.while_value wall_x_position time_step stop_time fuel [] (P, V) lit_zero).2.
Proof.
  intros HP HV Hrun.
  rewrite (BounceFacts.simulate_motion_values _ _ _ _ _ _ _ _ _ HP HV) in Hrun.
  cbn zeta in Hrun. injection Hrun as <- <-.
  set (w := Bounce.while_value _ _ _ _ _ _ _).
  pose proof (BounceFacts.observe_references h w.1.2.1 w.1.2.2 w.1.1 [] w.2) as O.
  rewrite app_nil_r in O. rewrite O. reflexivity.
Qed.

(** Reading an observation: when the call did not raise, the [j]-th
    returned reference holds the [j]-th snapshot. *)
Lemma observed_lookup (h' : store F) r snapshots u :
  observe h' r = observed snapshots (Ok u) ->
  exists l, returned_list r = Some l /\ length l = length snapshots /\
    forall j a, l !! j = Some a -> exists x, h' !! a = Some x /\ snapshots !! j = Some x.
Proof.
  intros Ho.
  assert (exists l, returned_list r = Some l /\
            (fun a => h' !! a) <$> l = Some <$> snapshots) as (l & Hl & Hval).
  { destruct r as [[l|l]|e], u as [[]|[]]; cbn in Ho; try discriminate;
      injection Ho as Ho; exists l; split; try reflexivity; exact Ho. }
  exists l. split; [exact Hl|]. split.
  { apply (f_equal length) in Hval. rewrite !length_fmap in Hval. exact Hval. }
  intros j a Ha. apply (f_equal (fun s => s !! j)) in Hval.
  rewrite !list_lookup_fmap, Ha in Hval. cbn in Hval.
  destruct (snapshots !! j) as [x|]; [|discriminate].
  cbn in Hval. injection Hval as Hval. exists x. auto.
Qed.

(** *** Free motion *)

(** One step of every ball at constant velocity. *)
Lemma moved_equal_length (P V : ndarray F) time_step :
  length P = length V ->
  CrossValues.moved P V time_step
  = Ok (zip_with row_add P ((fun v => row_scale v time_step) <$> V)).
Proof.
  intros Hlen. unfold CrossValues.moved, broadcast_add.
  rewrite length_fmap. rewrite (proj2 (Nat.eqb_eq _ _) Hlen). reflexivity.
Qed.

Lemma cross_snapshots time_step stop_time fuel :
  forall (P V : ndarray F) t,
    length P = length V ->
    let step := fun Q => zip_with row_add Q ((fun v => row_scale v time_step) <$> V) in
    let w := CrossValues.while_value time_step stop_time fuel [] P V t in
    (exists u, w.2 = Ok u) /\ (length w.1 <= fuel)%nat /\
    forall j, (j < length w.1)%nat -> w.1 !! j = Some (Nat.iter j step P).
Proof.
  induction fuel as [|fuel IH]; intros P V t Hlen; cbn zeta;
    cbn [CrossValues.while_value]; destruct (t <=? stop_time); cbn [fst snd length];
    try (split; [eexists; reflexivity|]; split; [lia|]; intros; lia).
  rewrite (moved_equal_length _ _ _ Hlen).
  set (P' := zip_with row_add P ((fun v => row_scale v time_step) <$> V)).
  rewrite CrossValueFacts.cross_while_value_app. cbn [fst snd app].
  destruct (IH P' V (t + time_step)) as (Hok & Hl & Hsnap).
  { unfold P'. rewrite length_zip_with, length_fmap. lia. }
  cbn zeta in Hok, Hl, Hsnap.
  split; [exact Hok|]. cbn [length]. split; [lia|].
  intros [|j] Hj; [reflexivity|].
  cbn [lookup list_lookup]. change (list_lookup j ?l) with (l !! j).
  rewrite Hsnap by lia. rewrite Nat.iter_succ_r. reflexivity.
Qed.

Lemma free_motion_ball time_step (V : ndarray F) j :
  forall (P : ndarray F) k p v,
    P !! k = Some p -> V !! k = Some v ->
    Nat.iter j (fun Q => zip_with row_add Q ((fun v => row_scale v time_step) <$> V)) P
      !! k
    = Some (Nat.iter j (fun q => row_add q (row_scale v time_step)) p).
Proof.
  induction j as [|j IH]; intros P k p v Hp Hv; [exact Hp|].
  rewrite !Nat.iter_succ. rewrite lookup_zip_with, (IH P k p v Hp Hv), list_lookup_fmap, Hv.
  reflexivity.
Qed.

Lemma free_motion_length time_step (V : ndarray F) j (P : ndarray F) :
  length P = length V ->
  length (Nat.iter j (fun Q => zip_with row_add Q ((fun v => row_scale v time_step) <$> V)) P)
  = length P.
Proof.
  intros Hlen. induction j as [|j IH]; [reflexivity|].
  rewrite Nat.iter_succ, length_zip_with, IH, length_fmap. lia.
Qed.

(** When no ball is at or beyond the wall, one iteration of the bouncing
    loop is the free step. *)
Lemma iteration_below_wall wall_x_position time_step (P V : ndarray F) :
  length P = length V ->
  Forall (fun p => fge p.1.1 wall_x_position = false) P ->
  Bounce.iteration wall_x_position time_step (P, V)
  = (zip_with row_add P ((fun v => row_scale v time_step) <$> V), V, Ok tt).
Proof.
  intros Hlen Hbelow. rewrite (BounceFacts.iteration_balls _ _ _ _ Hlen). cbn zeta.
  f_equal. revert V Hlen. induction Hbelow as [|p P Hp _ IH]; intros [|v V] Hlen;
    try discriminate; [reflexivity|].
  injection Hlen as Hlen. specialize (IH V Hlen). injection IH as IH1 IH2.
  cbn [zip_with]. rewrite !fmap_cons. cbn [zip_with].
  unfold Bounce.bounce_ball at 1 3. cbn [fst snd]. rewrite Hp.
  f_equal; f_equal; assumption.
Qed.

Lemma bounce_is_free_below_wall wall_x_position time_step stop_time fuel :
  forall snapshots (P V : ndarray F) t,
    length P = length V ->
    Forall (Forall (fun p => fge p.1.1 wall_x_position = false))
      (CrossValues.while_value time_step stop_time fuel [] P V t).1 ->
    (Bounce.while_value wall_x_position time_step stop_time fuel snapshots (P, V) t).1.1
    = snapshots ++ (CrossValues.while_value time_step stop_time fuel [] P V t).1 /\
    (Bounce.while_value wall_x_position time_step stop_time fuel snapshots (P, V) t).2
    = (CrossValues.while_value time_step stop_time fuel [] P V t).2.
Proof.
  induction fuel as [|fuel IH]; intros snapshots P V t Hlen;
    cbn [Bounce.while_value CrossValues.while_value]; destruct (t <=? stop_time);
    cbn [fst snd]; rewrite ?app_nil_r; auto.
  rewrite (moved_equal_length _ _ _ Hlen).
  set (P' := zip_with row_add P ((fun v => row_scale v time_step) <$> V)).
  rewrite CrossValueFacts.cross_while_value_app. cbn [fst snd app].
  intros Hall. inversion Hall as [|? ? HP Hrest]; subst.
  rewrite (iteration_below_wall _ _ _ _ Hlen HP). fold P'.
  destruct (IH (snapshots ++ [P]) P' V (t + time_step)) as [H1 H2].
  { unfold P'. rewrite length_zip_with, length_fmap. lia. }
  { exact Hrest. }
  rewrite H1, H2, <- app_assoc. auto.
Qed.

End Observed.

(** ** two_balls_cross.py and two_balls_bounce.py: free motion *)

(** X1.  In two_balls_cross.py, with position and velocity arrays of equal
    length, the call does not raise, every recorded array has one row per
    ball, and ball [k] is recorded in entry [j] at its initial position with
    [velocity * time_step] added [j] times; in exact arithmetic that is
    [position + j * (velocity * time_step)]. *)
Theorem cross_motion_is_uniform :
  (forall (F : Type) (A : Arith F) (h : store F)
      (initial_positions initial_velocities : ref) (P V : ndarray F)
      fuel (time_step stop_time : F) h' r,
    h !! initial_positions = Some P ->
    h !! initial_velocities = Some V ->
    length P = length V ->
    Cross.simulate_motion fuel initial_positions initial_velocities
      time_step stop_time h = (h', r) ->
    exists l, returned_list r = Some l /\
      forall j a, l !! j = Some a ->
        exists Pj, h' !! a = Some Pj /\ length Pj = length P /\
          forall k p v, P !! k = Some p -> V !! k = Some v ->
            Pj !! k = Some (Nat.iter j (fun q => row_add q (row_scale v time_step)) p)) /\
  (forall (p v : row R) (time_step : R) (j : nat),
    Nat.iter j (fun q => row_add q (row_scale v time_step)) p
    = ((p.1.1 + INR j * (v.1.1 * time_step))%R,
       (p.1.2 + INR j * (v.1.2 * time_step))%R,
       (p.2 + INR j * (v.2 * time_step))%R)).
Proof.
  split.
  - intros F A h ip iv P V fuel dt stop h' r HP HV Hlen Hrun.
    pose proof (CrossValueFacts.cross_simulate_motion_values _ _ _ _ _ _ _ _ _ _
                  HP HV Hrun) as Ho.
    destruct (cross_snapshots dt stop fuel P V lit_zero Hlen) as ([u Hu] & _ & Hsnap).
    cbn zeta in Hu, Hsnap. rewrite Hu in Ho.
    destruct (observed_lookup _ _ _ _ Ho) as (l & Hl & Hll & Hval).
    exists l. split; [exact Hl|]. intros j a Ha.
    destruct (Hval _ _ Ha) as (x & Hx & Hj). exists x. split; [exact Hx|].
    rewrite Hsnap in Hj by (eapply lookup_lt_Some; eassumption).
    injection Hj as <-. split.
    + apply free_motion_length. exact Hlen.
    + intros k p v Hp Hv. apply free_motion_ball; assumption.
  - intros [[px py] pz] [[vx vy] vz] dt j. induction j as [|j IH].
    + unfold Nat.iter. cbn [nat_rect fst snd INR].
      match goal with |- (?a, ?b, ?c) = (?a', ?b', ?c') =>
        replace a' with a by lra; replace b' with b by lra; replace c' with c by lra
      end. reflexivity.
    + rewrite Nat.iter_succ, IH, S_INR. unfold row_add, row_scale.
      cbn [fst snd fadd fmul exact].
      match goal with |- (?a, ?b, ?c) = (?a', ?b', ?c') =>
        replace a' with a by lra; replace b' with b by lra; replace c' with c by lra
      end. reflexivity.
Qed.

Lemma cross_motion_is_uniform_witness :
  exists h' l,
    cross_main_store !! 0%nat
    = Some [ ((-1)%float, 0%float, 0%float); (1%float, 0%float, 0%float) ] /\
    cross_main_store !! 1%nat
    = Some [ (0.3%float, 0.3%float, 0%float); ((-0.3)%float, 0.3%float, 0%float) ] /\
    Cross.simulate_motion 3 0 1 0.05%float 10%float cross_main_store
    = (h', Ok (More l)) /\
    exists l', returned_list (Ok (More l)) = Some l' /\
      forall j a, l' !! j = Some a ->
        exists Pj, h' !! a = Some Pj /\ length Pj = 2%nat /\
          forall k p v,
            [ ((-1)%float, 0%float, 0%float); (1%float, 0%float, 0%float) ] !! k = Some p ->
            [ (0.3%float, 0.3%float, 0%float); ((-0.3)%float, 0.3%float, 0%float) ] !! k
            = Some v ->
            Pj !! k = Some (Nat.iter j (fun q => row_add q (row_scale v 0.05%float)) p).
Proof.
  do 2 eexists. split; [reflexivity|]. split; [reflexivity|].
  split; [vm_compute; reflexivity|].
  exact (proj1 cross_motion_is_uniform float binary64 cross_main_store 0%nat 1%nat _ _ 3%nat
           0.05%float 10%float _ _ eq_refl eq_refl eq_refl eq_refl).
Defined.

(** X2.  With arrays of equal length, as long as every ball recorded by the
    free motion of two_balls_cross.py is below the wall, the bouncing
    [simulate_motion] of two_balls_bounce.py returns the same arrays and
    ends the same way as the crossing one. *)
Theorem bounce_agrees_with_cross_below_wall (F : Type) (A : Arith F) (h : store F)
    (initial_positions initial_velocities : ref) (P V : ndarray F)
    fuel (wall_x_position time_step stop_time : F) hb rb hc rc :
  h !! initial_positions = Some P ->
  h !! initial_velocities = Some V ->
  length P = length V ->
  Bounce.simulate_motion fuel initial_positions initial_velocities
    wall_x_position time_step stop_time h = (hb, rb) ->
  Cross.simulate_motion fuel initial_positions initial_velocities
    time_step stop_time h = (hc, rc) ->
  all_below wall_x_position (observe hc rc) = true ->
  observe hb rb = observe hc rc.
Proof.
  intros HP HV Hlen Hb Hc Hbelow.
  rewrite (bounce_observed _ _ _ _ _ _ _ _ _ _ _ HP HV Hb).
  rewrite (CrossValueFacts.cross_simulate_motion_values _ _ _ _ _ _ _ _ _ _ HP HV Hc)
    in Hbelow |- *.
  destruct (cross_snapshots time_step stop_time fuel P V lit_zero Hlen)
    as ([u Hu] & _ & _).
  cbn zeta in Hu.
  destruct (bounce_is_free_below_wall wall_x_position time_step stop_time fuel
              [] P V lit_zero Hlen) as [H1 H2].
  - rewrite Hu in Hbelow.
    set (snaps := (CrossValues.while_value time_step stop_time fuel [] P V lit_zero).1)
      in *.
    assert (forallb (fun x : option (ndarray F) =>
                       match x with
                       | Some Q => forallb (fun p => negb (fge p.1.1 wall_x_position)) Q
                       | None => true
                       end) (Some <$> snaps) = true) as Hall.
    { destruct u as [[]|[]]; exact Hbelow. }
    clear Hbelow. induction snaps as [|Q snaps IH]; [constructor|].
    rewrite fmap_cons in Hall. cbn [forallb] in Hall.
    apply andb_prop in Hall as [HQ Hrest]. constructor; [|exact (IH Hrest)].
    clear IH Hrest. induction Q as [|p Q IHQ]; [constructor|].
    cbn [forallb] in HQ. apply andb_prop in HQ as [Hp HQ].
    constructor; [|exact (IHQ HQ)]. apply negb_true_iff. exact Hp.
  - rewrite H1, H2. reflexivity.
Qed.

Lemma bounce_agrees_with_cross_below_wall_witness :
  exists hb rb hc rc,
    Bounce.simulate_motion 4 0 1 0%float 0.01%float 1%float main_store = (hb, rb) /\
    Cross.simulate_motion 4 0 1 0.01%float 1%float main_store = (hc, rc) /\
    all_below 0%float (observe hc rc) = true /\
    observe hb rb = observe hc rc.
Proof.
  do 4 eexists. split; [vm_compute; reflexivity|]. split; [vm_compute; reflexivity|].
  split; [vm_compute; reflexivity|].
  exact (bounce_agrees_with_cross_below_wall float binary64 main_store 0%nat 1%nat _ _
           4%nat 0%float 0.01%float 1%float _ _ _ _
           eq_refl eq_refl eq_refl eq_refl eq_refl eq_refl).
Defined.

(** ** Shapes: when the two [simulate_motion] raise *)

Section Shapes.
Context {F : Type} `{Arith F}.
Local Open Scope arith_scope.

(** The body at an index that both arrays have succeeds and keeps both
    lengths. *)
Lemma body_value_lengths wall_x_position time_step index (P V : ndarray F) :
  (index < length P)%nat -> (index < length V)%nat ->
  exists P' V',
    Bounce.body_value wall_x_position time_step index (P, V) = (P', V', Ok tt) /\
    length P' = length P /\ length V' = length V.
Proof.
  intros HiP HiV.
  destruct (lookup_lt_is_Some_2 P index HiP) as [p Hp].
  destruct (lookup_lt_is_Some_2 V index HiV) as [v Hv].
  rewrite (BounceFacts.body_value_ball _ _ _ _ _ _ _ Hp Hv).
  do 2 eexists. split; [reflexivity|]. rewrite !length_insert. auto.
Qed.

(** The body at an index the velocities do not have raises IndexError. *)
Lemma body_value_missing wall_x_position time_step index (P V : ndarray F) :
  (index < length P)%nat -> (length V <= index)%nat ->
  (Bounce.body_value wall_x_position time_step index (P, V)).2 = Raise IndexError.
Proof.
  intros HiP HiV.
  destruct (lookup_lt_is_Some_2 P index HiP) as [p Hp].
  pose proof (lookup_ge_None_2 V index HiV) as Hv.
  unfold Bounce.body_value. cbn [fst snd]. rewrite Hp, Hv.
  destruct (p.1.1 >=? wall_x_position); [reflexivity|]. rewrite Hv. reflexivity.
Qed.

Lemma for_value_enough_rows wall_x_position time_step count :
  forall first (P V : ndarray F),
    (first + count <= length P)%nat -> (first + count <= length V)%nat ->
    exists P' V',
      Bounce.for_value wall_x_position time_step (seq first count) (P, V)
      = (P', V', Ok tt) /\
      length P' = length P /\ length V' = length V.
Proof.
  induction count as [|count IH]; intros first P V HP HV.
  - exists P, V. auto.
  - cbn [seq Bounce.for_value].
    destruct (body_value_lengths wall_x_position time_step first P V)
      as (P1 & V1 & -> & L1 & L2); [lia..|].
    destruct (IH (S first) P1 V1) as (P' & V' & -> & L3 & L4); [lia..|].
    exists P', V'. split; [reflexivity|]. lia.
Qed.

Lemma for_value_missing_rows wall_x_position time_step count :
  forall first (P V : ndarray F),
    (first <= length V)%nat -> (length V < first + count)%nat ->
    (first + count <= length P)%nat ->
    (Bounce.for_value wall_x_position time_step (seq first count) (P, V)).2
    = Raise IndexError.
Proof.
  induction count as [|count IH]; intros first P V Hlo Hhi HP; [lia|].
  cbn [seq Bounce.for_value].
  destruct (decide (first = length V)) as [->|Hne].
  - pose proof (body_value_missing wall_x_position time_step (length V) P V) as Hm.
    destruct (Bounce.body_value _ _ _ _) as [pv' [[]|e]]; cbn [snd] in Hm |- *;
      [discriminate Hm; lia | apply Hm; lia].
  - destruct (body_value_lengths wall_x_position time_step first P V)
      as (P1 & V1 & -> & L1 & L2); [lia..|].
    apply IH; lia.
Qed.

Lemma while_value_enough_rows wall_x_position time_step stop_time fuel :
  forall snapshots (P V : ndarray F) t,
    (length P <= length V)%nat ->
    exists u,
      (Bounce.while_value wall_x_position time_step stop_time fuel snapshots (P, V) t).2
      = Ok u.
Proof.
  induction fuel as [|fuel IH]; intros snapshots P V t Hlen;
    cbn [Bounce.while_value]; destruct (t <=? stop_time); cbn [snd];
    try (eexists; reflexivity).
  unfold Bounce.iteration. cbn [fst].
  destruct (for_value_enough_rows wall_x_position time_step (length P) 0 P V)
    as (P' & V' & -> & L1 & L2); [lia..|].
  apply IH. lia.
Qed.

(** Row counts that NumPy can broadcast against each other. *)
Lemma moved_compatible (P V : ndarray F) time_step :
  length P = length V \/ length P = 1%nat \/ length V = 1%nat ->
  exists P',
    CrossValues.moved P V time_step = Ok P' /\
    length P' = (if (length P =? 1)%nat then length V else length P) /\
    (length P' = length V \/ length V = 1%nat).
Proof.
  intros Hc. unfold CrossValues.moved, broadcast_add. rewrite length_fmap.
  destruct (Nat.eqb_spec (length P) (length V)) as [He|Hne].
  - eexists. split; [reflexivity|]. rewrite length_zip_with, length_fmap.
    destruct (Nat.eqb_spec (length P) 1); split; lia.
  - destruct Hc as [?|[H1|H1]]; [lia| |].
    + destruct P as [|p [|? ?]]; try discriminate.
      eexists. split; [reflexivity|]. rewrite !length_fmap. cbn. auto.
    + destruct V as [|v [|? ?]]; try discriminate.
      destruct P as [|p [|p' P]]; cbn in Hne; try lia.
      * eexists. split; reflexivity || (cbn; auto).
      * eexists. split; [reflexivity|]. rewrite length_fmap. cbn. auto.
Qed.

Lemma moved_incompatible (P V : ndarray F) time_step :
  length P <> length V -> length P <> 1%nat -> length V <> 1%nat ->
  CrossValues.moved P V time_step = Raise ValueError.
Proof.
  intros Hne HP HV. unfold CrossValues.moved, broadcast_add. rewrite length_fmap.
  destruct (Nat.eqb_spec (length P) (length V)); [lia|].
  destruct P as [|p [|? ?]]; cbn in HP; try lia;
    destruct V as [|v [|? ?]]; cbn in HV, Hne; try lia; reflexivity.
Qed.

(** With compatible row counts the crossing loop never raises; its first
    snapshot has the rows of the positions, every later one the rows of the
    broadcast sum. *)
Lemma cross_while_value_compatible time_step stop_time fuel :
  forall (P V : ndarray F) t,
    length P = length V \/ length P = 1%nat \/ length V = 1%nat ->
    let w := CrossValues.while_value time_step stop_time fuel [] P V t in
    (exists u, w.2 = Ok u) /\
    forall j Pj, w.1 !! j = Some Pj ->
      length Pj = match j with
                  | O => length P
                  | S _ => if (length P =? 1)%nat then length V else length P
                  end.
Proof.
  induction fuel as [|fuel IH]; intros P V t Hc; cbn zeta;
    cbn [CrossValues.while_value]; destruct (t <=? stop_time); cbn [fst snd];
    try (split; [eexists; reflexivity|]; intros j Pj Hj; destruct j; discriminate Hj).
  destruct (moved_compatible P V time_step Hc) as (P' & -> & HlP' & Hc').
  rewrite CrossValueFacts.cross_while_value_app. cbn [fst snd app].
  destruct (IH P' V (t + time_step)) as (Hok & Hlen).
  { destruct Hc' as [?|?]; auto. }
  cbn zeta in Hok, Hlen. split; [exact Hok|].
  intros [|j] Pj Hj.
  - injection Hj as <-. reflexivity.
  - change ((CrossValues.while_value time_step stop_time fuel [] P' V
               (t + time_step)).1 !! j = Some Pj) in Hj.
    rewrite (Hlen _ _ Hj), HlP'.
    destruct j; [reflexivity|].
    destruct (Nat.eqb_spec (length P) 1) as [H1|H1].
    + destruct (Nat.eqb_spec (length V) 1); [lia|reflexivity].
    + rewrite (proj2 (Nat.eqb_neq _ _) H1). reflexivity.
Qed.

End Shapes.

(** X3.  two_balls_bounce.py, [simulate_motion]: when the loop body runs
    at least once, the call raises IndexError if the velocities have fewer
    rows than the positions ([velocities[index]] is out of bounds at the
    first missing row), and raises nothing if they have at least as many
    (the surplus rows are never read). *)
Theorem bounce_raises_when_velocities_short (F : Type) (A : Arith F) (h : store F)
    (initial_positions initial_velocities : ref) (P V : ndarray F)
    (wall_x_position time_step stop_time : F) (fuel : nat) (h' : store F)
    (r : result (run (list ref))) :
  h !! initial_positions = Some P ->
  h !! initial_velocities = Some V ->
  fle lit_zero stop_time = true ->
  Bounce.simulate_motion (S fuel) initial_positions initial_velocities
    wall_x_position time_step stop_time h = (h', r) ->
  ((length V < length P)%nat -> r = Raise IndexError) /\
  ((length P <= length V)%nat -> exists l, returned_list r = Some l).
Proof.
  intros HP HV Hstop Hrun.
  rewrite (BounceFacts.simulate_motion_values _ _ _ _ _ _ _ _ _ HP HV) in Hrun.
  cbv zeta in Hrun.
  set (w := Bounce.while_value wall_x_position time_step stop_time (S fuel) []
              (P, V) lit_zero) in Hrun.
  assert (r = Bounce.references (length h + 2) (length w.1.1) w.2) as ->
    by congruence.
  clear Hrun. subst w. split; intros Hlen.
  - cbn [Bounce.while_value]. rewrite Hstop. unfold Bounce.iteration. cbn [fst].
    pose proof (for_value_missing_rows wall_x_position time_step (length P) 0 P V) as Hm.
    destruct (Bounce.for_value _ _ _ _) as [pv' [[]|e]]; cbn [snd] in Hm.
    + discriminate Hm; lia.
    + assert (e = IndexError) as -> by (injection Hm; [auto|lia..]). reflexivity.
  - destruct (while_value_enough_rows wall_x_position time_step stop_time (S fuel)
                [] P V lit_zero Hlen) as [u Hu].
    rewrite Hu. destruct u; eexists; reflexivity.
Qed.

(** X4.  two_balls_cross.py, [simulate_motion]: when the loop body runs at
    least once, [positions + velocities * time_step] raises ValueError
    exactly for row counts NumPy cannot broadcast (different, and neither
    is 1).  For row counts it can broadcast the call raises nothing; the
    first recorded array has the rows of the initial positions and every
    later one the rows of the broadcast sum, so one position row against
    n velocity rows records arrays of different shapes. *)
Theorem cross_raises_when_shapes_differ (F : Type) (A : Arith F) (h : store F)
    (initial_positions initial_velocities : ref) (P V : ndarray F)
    (time_step stop_time : F) (fuel : nat) (h' : store F)
    (r : result (run (list ref))) :
  h !! initial_positions = Some P ->
  h !! initial_velocities = Some V ->
  fle lit_zero stop_time = true ->
  Cross.simulate_motion (S fuel) initial_positions initial_velocities
    time_step stop_time h = (h', r) ->
  (length P <> length V -> length P <> 1%nat -> length V <> 1%nat ->
   r = Raise ValueError) /\
  (length P = length V \/ length P = 1%nat \/ length V = 1%nat ->
   exists l, returned_list r = Some l /\
     forall j a, l !! j = Some a ->
       exists Pj, h' !! a = Some Pj /\
         length Pj = match j with
                     | O => length P
                     | S _ => if (length P =? 1)%nat then length V else length P
                     end).
Proof.
  intros HP HV Hstop Hrun.
  pose proof (CrossValueFacts.cross_simulate_motion_values _ _ _ _ _ _ _ _ _ _
                HP HV Hrun) as Ho.
  split.
  - intros Hne H1 H2. cbn [CrossValues.while_value] in Ho.
    change (@fle F A lit_zero stop_time) with (fle lit_zero stop_time) in Hstop.
    rewrite Hstop, (moved_incompatible P V time_step Hne H1 H2) in Ho.
    cbn [fst snd observed] in Ho.
    destruct r as [[l|l]|e]; cbn in Ho; congruence.
  - intros Hc.
    destruct (cross_while_value_compatible time_step stop_time (S fuel) P V lit_zero Hc)
      as ([u Hu] & Hlen).
    cbn zeta in Hu, Hlen. rewrite Hu in Ho.
    destruct (observed_lookup _ _ _ _ Ho) as (l & Hl & _ & Hlook).
    exists l. split; [exact Hl|]. intros j a Ha.
    destruct (Hlook j a Ha) as (Pj & Hh & Hs). exists Pj. split; [exact Hh|].
    exact (Hlen j Pj Hs).
Qed.

(** ** When the loops of the two [simulate_motion] end *)

Section Termination.
Context {F : Type} `{Arith F}.

(** The loop ends after [n] snapshots when the clock, started at [t],
    passes the test [n] times and then fails it. *)
Lemma bounce_while_value_ends (wall_x_position time_step stop_time : F) :
  forall (n fuel : nat) snapshots (P V : ndarray F) (t : F),
    length P = length V -> (n <= fuel)%nat ->
    (forall j, (j < n)%nat ->
       fle (Nat.iter j (fun c => fadd c time_step) t) stop_time = true) ->
    fle (Nat.iter n (fun c => fadd c time_step) t) stop_time = false ->
    let w := Bounce.while_value wall_x_position time_step stop_time fuel
               snapshots (P, V) t in
    w.2 = Ok (Done tt) /\ length w.1.1 = (length snapshots + n)%nat.
Proof.
  induction n as [|n IH]; intros fuel snapshots P V t Hlen Hfuel Hin Hout; cbn zeta.
  - cbn [Nat.iter nat_rect] in Hout.
    destruct fuel; cbn [Bounce.while_value]; rewrite Hout; cbn [fst snd];
      (split; [reflexivity|lia]).
  - destruct fuel as [|fuel]; [lia|]. cbn [Bounce.while_value].
    pose proof (Hin 0%nat ltac:(lia)) as H0; cbn [Nat.iter nat_rect] in H0; rewrite H0.
    rewrite (BounceFacts.iteration_balls _ _ _ _ Hlen). cbn zeta.
    set (balls := Bounce.bounce_ball wall_x_position time_step <$> zip P V).
    destruct (IH fuel (snapshots ++ [(P, V).1]) (fst <$> balls) (snd <$> balls)
                (fadd t time_step)) as (Hok & Hl).
    { rewrite !length_fmap. reflexivity. }
    { lia. }
    { intros j Hj. specialize (Hin (S j) ltac:(lia)). rewrite Nat.iter_succ_r in Hin.
      exact Hin. }
    { rewrite Nat.iter_succ_r in Hout. exact Hout. }
    cbn zeta in Hok, Hl. split; [exact Hok|]. rewrite Hl, length_app. cbn. lia.
Qed.

(** As long as the clock passes the test, the loop is still running. *)
Lemma bounce_while_value_runs_on (wall_x_position time_step stop_time : F) :
  forall (fuel : nat) snapshots (P V : ndarray F) (t : F),
    length P = length V ->
    (forall j, (j <= fuel)%nat ->
       fle (Nat.iter j (fun c => fadd c time_step) t) stop_time = true) ->
    let w := Bounce.while_value wall_x_position time_step stop_time fuel
               snapshots (P, V) t in
    w.2 = Ok (More tt) /\ length w.1.1 = (length snapshots + fuel)%nat.
Proof.
  induction fuel as [|fuel IH]; intros snapshots P V t Hlen Hin; cbn zeta;
    cbn [Bounce.while_value]; pose proof (Hin 0%nat ltac:(lia)) as H0; cbn [Nat.iter nat_rect] in H0; rewrite H0.
  - cbn. split; [reflexivity|lia].
  - rewrite (BounceFacts.iteration_balls _ _ _ _ Hlen). cbn zeta.
    set (balls := Bounce.bounce_ball wall_x_position time_step <$> zip P V).
    destruct (IH (snapshots ++ [(P, V).1]) (fst <$> balls) (snd <$> balls)
                (fadd t time_step)) as (Hok & Hl).
    { rewrite !length_fmap. reflexivity. }
    { intros j Hj. specialize (Hin (S j) ltac:(lia)). rewrite Nat.iter_succ_r in Hin.
      exact Hin. }
    cbn zeta in Hok, Hl. split; [exact Hok|]. rewrite Hl, length_app. cbn. lia.
Qed.

Lemma cross_while_value_ends (time_step stop_time : F) :
  forall (n fuel : nat) snapshots (P V : ndarray F) (t : F),
    length P = length V -> (n <= fuel)%nat ->
    (forall j, (j < n)%nat ->
       fle (Nat.iter j (fun c => fadd c time_step) t) stop_time = true) ->
    fle (Nat.iter n (fun c => fadd c time_step) t) stop_time = false ->
    let w := CrossValues.while_value time_step stop_time fuel snapshots P V t in
    w.2 = Ok (Done tt) /\ length w.1 = (length snapshots + n)%nat.
Proof.
  induction n as [|n IH]; intros fuel snapshots P V t Hlen Hfuel Hin Hout; cbn zeta.
  - cbn [Nat.iter nat_rect] in Hout.
    destruct fuel; cbn [CrossValues.while_value]; rewrite Hout; cbn [fst snd];
      (split; [reflexivity|lia]).
  - destruct fuel as [|fuel]; [lia|]. cbn [CrossValues.while_value].
    pose proof (Hin 0%nat ltac:(lia)) as H0; cbn [Nat.iter nat_rect] in H0; rewrite H0.
    rewrite (moved_equal_length _ _ _ Hlen).
    set (P' := zip_with row_add P ((fun v => row_scale v time_step) <$> V)).
    destruct (IH fuel (snapshots ++ [P]) P' V (fadd t time_step)) as (Hok & Hl).
    { unfold P'. rewrite length_zip_with, length_fmap. lia. }
    { lia. }
    { intros j Hj. specialize (Hin (S j) ltac:(lia)). rewrite Nat.iter_succ_r in Hin.
      exact Hin. }
    { rewrite Nat.iter_succ_r in Hout. exact Hout. }
    cbn zeta in Hok, Hl. split; [exact Hok|]. rewrite Hl, length_app. cbn. lia.
Qed.

Lemma cross_while_value_runs_on (time_step stop_time : F) :
  forall (fuel : nat) snapshots (P V : ndarray F) (t : F),
    length P = length V ->
    (forall j, (j <= fuel)%nat ->
       fle (Nat.iter j (fun c => fadd c time_step) t) stop_time = true) ->
    let w := CrossValues.while_value time_step stop_time fuel snapshots P V t in
    w.2 = Ok (More tt) /\ length w.1 = (length snapshots + fuel)%nat.
Proof.
  induction fuel as [|fuel IH]; intros snapshots P V t Hlen Hin; cbn zeta;
    cbn [CrossValues.while_value]; pose proof (Hin 0%nat ltac:(lia)) as H0; cbn [Nat.iter nat_rect] in H0; rewrite H0.
  - cbn. split; [reflexivity|lia].
  - rewrite (moved_equal_length _ _ _ Hlen).
    set (P' := zip_with row_add P ((fun v => row_scale v time_step) <$> V)).
    destruct (IH (snapshots ++ [P]) P' V (fadd t time_step)) as (Hok & Hl).
    { unfold P'. rewrite length_zip_with, length_fmap. lia. }
    { intros j Hj. specialize (Hin (S j) ltac:(lia)). rewrite Nat.iter_succ_r in Hin.
      exact Hin. }
    cbn zeta in Hok, Hl. split; [exact Hok|]. rewrite Hl, length_app. cbn. lia.
Qed.

(** How a call ended and how many references it returned, read off the
    value-level loops. *)
Lemma bounce_result_of_values wall_x_position time_step stop_time fuel
    (h : store F) initial_positions initial_velocities P V :
  h !! initial_positions = Some P ->
  h !! initial_velocities = Some V ->
  let w := Bounce.while_value wall_x_position time_step stop_time fuel [] (P, V)
             lit_zero in
  exists l, length l = length w.1.1 /\
    (Bounce.simulate_motion fuel initial_positions initial_velocities
       wall_x_position time_step stop_time h).2 = carrying l w.2.
Proof.
  intros HP HV. cbn zeta.
  rewrite (BounceFacts.simulate_motion_values _ _ _ _ _ _ _ _ _ HP HV). cbn zeta.
  cbn [snd]. eexists (seq _ _). split; [apply length_seq|].
  destruct (Bounce.while_value _ _ _ _ _ _ _).2 as [[[]|[]]|e]; reflexivity.
Qed.

Lemma cross_result_of_values time_step stop_time fuel
    (h : store F) initial_positions initial_velocities P V u :
  h !! initial_positions = Some P ->
  h !! initial_velocities = Some V ->
  let w := CrossValues.while_value time_step stop_time fuel [] P V lit_zero in
  w.2 = Ok u ->
  exists l, length l = length w.1 /\
    (Cross.simulate_motion fuel initial_positions initial_velocities
       time_step stop_time h).2 = carrying l (Ok u).
Proof.
  intros HP HV. cbn zeta. intros Hu.
  destruct (Cross.simulate_motion fuel initial_positions initial_velocities
              time_step stop_time h) as [h' r] eqn:Hrun.
  pose proof (CrossValueFacts.cross_simulate_motion_values _ _ _ _ _ _ _ _ _ _
                HP HV Hrun) as Ho.
  rewrite Hu in Ho. cbn [snd].
  destruct u as [[]|[]]; destruct r as [[l|l]|e']; cbn in Ho |- *;
    try discriminate Ho; injection Ho as Ho; exists l; (split; [|reflexivity]);
    apply (f_equal length) in Ho; rewrite !length_fmap in Ho; exact Ho.
Qed.

End Termination.

(** A test that holds at every index of [seq 0 n] holds below [n]. *)
Lemma forallb_below (f : nat -> bool) (n : nat) :
  forallb f (seq 0 n) = true -> forall j, (j < n)%nat -> f j = true.
Proof.
  intros Hall j Hj. rewrite forallb_forall in Hall. apply Hall.
  apply in_seq. lia.
Qed.

(** X5.  Both [simulate_motion], any arithmetic, equal-length arrays.  The
    clock of the loop is 0.0 with [time_step] added once per iteration.
    When the clock passes the test [current_time <= stop_time] at the
    indices below [n] and fails it at [n], the call returns a list of
    exactly [n] arrays, the same for the two scripts.  As long as the clock
    passes the test, the loop is still running.  (In binary64 the clock is
    a rounded sum, not [n * time_step]: with time step 0.01 and stop time
    1.0, the inputs of [main] in two_balls_bounce.py, [n] is 100.) *)
Theorem simulate_motion_ends_when_clock_fails (F : Type) (A : Arith F) (h : store F)
    (initial_positions initial_velocities : ref) (P V : ndarray F)
    (wall_x_position time_step stop_time : F) :
  h !! initial_positions = Some P ->
  h !! initial_velocities = Some V ->
  length P = length V ->
  (forall n,
     (forall j, (j < n)%nat -> fle (clock time_step j) stop_time = true) ->
     fle (clock time_step n) stop_time = false ->
     forall fuel, (n <= fuel)%nat ->
       (exists l, length l = n /\
          (Bounce.simulate_motion fuel initial_positions initial_velocities
             wall_x_position time_step stop_time h).2 = Ok (Done l)) /\
       (exists l, length l = n /\
          (Cross.simulate_motion fuel initial_positions initial_velocities
             time_step stop_time h).2 = Ok (Done l))) /\
  (forall fuel,
     (forall j, (j <= fuel)%nat -> fle (clock time_step j) stop_time = true) ->
     (exists l, length l = fuel /\
        (Bounce.simulate_motion fuel initial_positions initial_velocities
           wall_x_position time_step stop_time h).2 = Ok (More l)) /\
     (exists l, length l = fuel /\
        (Cross.simulate_motion fuel initial_positions initial_velocities
           time_step stop_time h).2 = Ok (More l))).
Proof.
  intros HP HV Hlen. split.
  - intros n Hin Hout fuel Hfuel. split.
    + destruct (bounce_while_value_ends wall_x_position time_step stop_time
                  n fuel [] P V lit_zero Hlen Hfuel Hin Hout) as (Hok & Hl).
      cbn zeta in Hok, Hl.
      destruct (bounce_result_of_values wall_x_position time_step stop_time fuel
                  h initial_positions initial_velocities P V HP HV) as (l & Hll & Hr).
      cbn zeta in Hll, Hr. rewrite Hok in Hr. exists l. split; [|exact Hr].
      rewrite Hll, Hl. reflexivity.
    + destruct (cross_while_value_ends time_step stop_time
                  n fuel [] P V lit_zero Hlen Hfuel Hin Hout) as (Hok & Hl).
      cbn zeta in Hok, Hl.
      destruct (cross_result_of_values time_step stop_time fuel
                  h initial_positions initial_velocities P V _ HP HV Hok)
        as (l & Hll & Hr).
      exists l. split; [|exact Hr]. rewrite Hll, Hl. reflexivity.
  - intros fuel Hin. split.
    + destruct (bounce_while_value_runs_on wall_x_position time_step stop_time
                  fuel [] P V lit_zero Hlen Hin) as (Hok & Hl).
      cbn zeta in Hok, Hl.
      destruct (bounce_result_of_values wall_x_position time_step stop_time fuel
                  h initial_positions initial_velocities P V HP HV) as (l & Hll & Hr).
      cbn zeta in Hll, Hr. rewrite Hok in Hr. exists l. split; [|exact Hr].
      rewrite Hll, Hl. reflexivity.
    + destruct (cross_while_value_runs_on time_step stop_time
                  fuel [] P V lit_zero Hlen Hin) as (Hok & Hl).
      cbn zeta in Hok, Hl.
      destruct (cross_result_of_values time_step stop_time fuel
                  h initial_positions initial_velocities P V _ HP HV Hok)
        as (l & Hll & Hr).
      exists l. split; [|exact Hr]. rewrite Hll, Hl. reflexivity.
Qed.

Lemma bounce_raises_when_velocities_short_witness :
  (Bounce.simulate_motion 1 0 1 0%float 0.01%float 1%float short_velocities_store).2
  = Raise IndexError.
Proof.
  exact (proj1 (bounce_raises_when_velocities_short float binary64
                  short_velocities_store 0%nat 1%nat _ _ 0%float 0.01%float 1%float
                  0%nat _ _ eq_refl eq_refl eq_refl eq_refl)
           (le_n 2)).
Defined.

Lemma cross_raises_when_shapes_differ_witness :
  (Cross.simulate_motion 1 0 1 0.05%float 10%float mismatched_store).2
  = Raise ValueError.
Proof.
  refine (proj1 (cross_raises_when_shapes_differ float binary64
                   mismatched_store 0%nat 1%nat _ _ 0.05%float 10%float
                   0%nat _ _ eq_refl eq_refl eq_refl eq_refl) _ _ _);
    cbn; discriminate.
Defined.

Lemma simulate_motion_ends_when_clock_fails_witness :
  (clock 0.01%float 100 = 0x1.0000000000003p+0%float /\
   forall fuel, (100 <= fuel)%nat ->
     (exists l, length l = 100%nat /\
        (Bounce.simulate_motion fuel 0 1 0%float 0.01%float 1%float main_store).2
        = Ok (Done l)) /\
     (exists l, length l = 100%nat /\
        (Cross.simulate_motion fuel 0 1 0.01%float 1%float main_store).2
        = Ok (Done l))) /\
  ((exists l, length l = 5%nat /\
      (Bounce.simulate_motion 5 0 1 0%float 0%float 1%float main_store).2
      = Ok (More l)) /\
   (exists l, length l = 5%nat /\
      (Cross.simulate_motion 5 0 1 0%float 1%float main_store).2 = Ok (More l))).
Proof.
  split; [split; [vm_compute; reflexivity|]|].
  - refine (proj1 (simulate_motion_ends_when_clock_fails float binary64 main_store
                     0%nat 1%nat _ _ 0%float 0.01%float 1%float
                     eq_refl eq_refl eq_refl) 100%nat _ _).
    + apply forallb_below. vm_compute. reflexivity.
    + vm_compute. reflexivity.
  - refine (proj2 (simulate_motion_ends_when_clock_fails float binary64 main_store
                     0%nat 1%nat _ _ 0%float 0%float 1%float
                     eq_refl eq_refl eq_refl) 5%nat _).
    intros j Hj. apply (forallb_below (fun j => fle (clock 0%float j) 1%float) 6);
      [vm_compute; reflexivity|lia].
Defined.

(** ** The drawing code *)

Module ElementwiseFacts.
Section Linspace.
Local Open Scope R_scope.

Lemma linspace_negative {F : Type} `{Arith F} `{Elementary F} (start stop : F) num :
  (num < 0)%Z -> np_linspace start stop num = Raise ValueError.
Proof.
  intros Hn. unfold np_linspace. rewrite (proj2 (Z.ltb_lt _ _) Hn). reflexivity.
Qed.

Lemma linspace_length {F : Type} `{Arith F} `{Elementary F} (start stop : F) num :
  (0 <= num)%Z ->
  exists l, np_linspace start stop num = Ok l /\ length l = Z.to_nat num.
Proof.
  intros Hn. unfold np_linspace. rewrite (proj2 (Z.ltb_ge _ _) Hn).
  eexists. split; [reflexivity|].
  destruct (1 <? num)%Z; rewrite ?length_insert, length_fmap;
    destruct (0 <? num - 1)%Z; try destruct (is_zero _);
    rewrite !length_fmap, length_seq; reflexivity.
Qed.

(** In exact arithmetic the samples are evenly spaced from [start], and
    the last one is [stop]. *)
Lemma exact_linspace_lookup (start stop : R) num l i x :
  np_linspace start stop num = Ok l -> l !! i = Some x ->
  (i = 0%nat -> x = start) /\
  (i = (length l - 1)%nat -> (2 <= num)%Z -> x = stop) /\
  ((2 <= num)%Z -> x = start + INR i * ((stop - start) / (IZR num - 1))).
Proof.
  unfold np_linspace. destruct (num <? 0)%Z eqn:Hneg; [discriminate|].
  apply Z.ltb_ge in Hneg. intros [= <-].
  set (n := Z.to_nat num).
  assert (forall v : list R, length (if (1 <? num)%Z then <[(n - 1)%nat := stop]> v else v)
                             = length v) as Hlen.
  { intros v. destruct (1 <? num)%Z; rewrite ?length_insert; reflexivity. }
  destruct (Z.ltb_spec 1 num) as [H2|H2].
  - rewrite (proj2 (Z.ltb_lt 0 (num - 1)) ltac:(lia)).
    cbn [fsub fdiv fmul fadd of_int is_zero exact exact_elementary].
    assert (IZR (num - 1) = IZR num - 1) as Hd by (rewrite minus_IZR; reflexivity).
    assert (IZR num - 1 <> 0) as Hnz.
    { rewrite <- Hd. apply not_0_IZR. lia. }
    assert (INR (n - 1) = IZR num - 1) as Hlast.
    { rewrite minus_INR by (unfold n; lia). unfold n. rewrite INR_IZR_INZ, Z2Nat.id by lia.
      cbn. lra. }
    match goal with |- (<[_ := _]> ?b) !! i = Some x -> _ => set (body := b) end.
    assert (forall k, (k < n)%nat ->
              body !! k = Some (start + INR k * ((stop - start) / (IZR num - 1)))) as Hbody.
    { intros k Hk. unfold body.
      destruct (Req_dec_T ((stop - start) / IZR (num - 1)) 0) as [Hz|Hz];
        rewrite !list_lookup_fmap, lookup_seq_lt by exact Hk; cbn;
        rewrite <- INR_IZR_INZ; f_equal; rewrite Hd in *.
      - assert (stop - start = 0) as ->.
        { apply (Rmult_eq_compat_r (IZR num - 1)) in Hz. field_simplify in Hz; lra. }
        field. exact Hnz.
      - lra. }
    assert (length body = n) as Hlb.
    { unfold body. destruct (Req_dec_T _ 0); rewrite !length_fmap, length_seq; reflexivity. }
    intros Hx.
    assert (i < n)%nat as Hi.
    { apply lookup_lt_Some in Hx. rewrite length_insert, Hlb in Hx. exact Hx. }
    assert (x = start + INR i * ((stop - start) / (IZR num - 1))) as Hval.
    { destruct (decide (i = (n - 1)%nat)) as [->|Hne].
      - rewrite list_lookup_insert_eq in Hx by (rewrite Hlb; lia).
        injection Hx as <-. rewrite Hlast. field. exact Hnz.
      - rewrite list_lookup_insert_ne in Hx by congruence.
        rewrite (Hbody i Hi) in Hx. congruence. }
    split; [intros ->; rewrite Hval; cbn; lra|]. split; [|intros _; exact Hval].
    intros Hil _. rewrite length_insert, Hlb in Hil. subst i.
    rewrite Hval, Hlast. field. exact Hnz.
  - rewrite (proj2 (Z.ltb_ge 0 (num - 1)) ltac:(lia)).
    rewrite !list_lookup_fmap. intros Hx.
    destruct (seq 0 n !! i) as [k|] eqn:Hk; [|discriminate].
    assert (i < n)%nat as Hi by (apply lookup_lt_Some in Hk; rewrite length_seq in Hk; lia).
    assert (n <= 1)%nat by (unfold n; lia).
    rewrite lookup_seq_lt in Hk by exact Hi. injection Hk as <-.
    assert (i = 0%nat) as -> by lia. cbn in Hx. injection Hx as <-.
    split; [intros _; change (Z.of_nat 0) with 0%Z; lra|]. split; intros; lia.
Qed.

End Linspace.
End ElementwiseFacts.

(** ** birthday_station.py: [rotate_xy] *)

Module RotatingFacts.
Import Rotating.

Section Generic.
Context {F : Type} `{Arith F} `{Elementary F}.
Local Open Scope arith_scope.

Lemma angle_at_goes_with (angle : np_value F) n i :
  goes_with n angle -> (i < n)%nat -> exists a, angle_at angle i = Some a.
Proof.
  destruct angle as [a|l]; cbn; intros Hg Hi; [eexists; reflexivity|].
  apply lookup_lt_is_Some_2. lia.
Qed.

(** On arrays of equal length, with a scalar angle or one angle per
    element, [rotate_xy] raises nothing and works element by element. *)
Lemma rotate_xy_elements (xs ys : list F) (angle : np_value F) :
  length xs = length ys -> goes_with (length xs) angle ->
  exists xr yr,
    rotate_xy (Array1 xs) (Array1 ys) angle = Ok (Array1 xr, Array1 yr) /\
    length xr = length xs /\ length yr = length xs /\
    forall i x y a,
      xs !! i = Some x -> ys !! i = Some y -> angle_at angle i = Some a ->
      xr !! i = Some (fsub (np_cos a * x) (np_sin a * y)) /\
      yr !! i = Some (np_sin a * x + np_cos a * y).
Proof.
  intros Hlen Hg. destruct angle as [a|l]; cbn [goes_with] in Hg;
    unfold rotate_xy, ufunc1; cbn [ufunc2 and_then];
    repeat first [ rewrite length_fmap | rewrite length_zip_with | rewrite Hg
                 | rewrite <- Hlen | rewrite Nat.min_id | rewrite Nat.eqb_refl
                 | progress cbn [and_then ufunc2] ];
    (do 2 eexists; split; [reflexivity|]);
    repeat first [ rewrite length_fmap | rewrite length_zip_with | rewrite Hg
                 | rewrite <- Hlen | rewrite Nat.min_id ];
    (split; [reflexivity|]); (split; [reflexivity|]).
  - intros i x y a' Hx Hy [= <-].
    rewrite !lookup_zip_with, !list_lookup_fmap, Hx, Hy. split; reflexivity.
  - intros i x y a Hx Hy Ha. cbn [angle_at] in Ha.
    rewrite !lookup_zip_with, !list_lookup_fmap, Ha, Hx, Hy. split; reflexivity.
Qed.

Lemma angle_at_ufunc1 (f : F -> F) (angle : np_value F) i :
  angle_at (ufunc1 f angle) i = f <$> angle_at angle i.
Proof. destruct angle; cbn; [reflexivity|apply list_lookup_fmap]. Qed.

Lemma goes_with_ufunc1 (f : F -> F) (angle : np_value F) n :
  goes_with n angle -> goes_with n (ufunc1 f angle).
Proof. destruct angle; cbn; [auto|]. rewrite length_fmap. auto. Qed.

End Generic.
End RotatingFacts.

(** X6.  birthday_station.py, [rotate_xy], exact arithmetic.  On x and y
    arrays of equal length, with a scalar angle or one angle per element,
    the call raises nothing, returns arrays of the same length, keeps the
    distance of every point from the origin, and is undone by the call
    with the negated angle. *)
Theorem rotate_xy_is_a_rotation (xs ys : list R) (angle : np_value R) :
  length xs = length ys ->
  goes_with (length xs) angle ->
  exists xr yr,
    Rotating.rotate_xy (Array1 xs) (Array1 ys) angle = Ok (Array1 xr, Array1 yr) /\
    length xr = length xs /\ length yr = length xs /\
    (forall i x y x' y',
       xs !! i = Some x -> ys !! i = Some y ->
       xr !! i = Some x' -> yr !! i = Some y' ->
       (x' * x' + y' * y' = x * x + y * y)%R) /\
    Rotating.rotate_xy (Array1 xr) (Array1 yr) (ufunc1 Ropp angle)
    = Ok (Array1 xs, Array1 ys).
Proof.
  intros Hlen Hg.
  destruct (RotatingFacts.rotate_xy_elements xs ys angle Hlen Hg)
    as (xr & yr & Hrun & Hlx & Hly & Hel).
  exists xr, yr. split; [exact Hrun|]. split; [exact Hlx|]. split; [exact Hly|]. split.
  - intros i x y x' y' Hx Hy Hx' Hy'.
    destruct (RotatingFacts.angle_at_goes_with angle (length xs) i Hg) as [a Ha].
    { apply lookup_lt_Some in Hx. exact Hx. }
    destruct (Hel i x y a Hx Hy Ha) as [E1 E2].
    assert (x' = cos a * x - sin a * y)%R as -> by (cbn in E1; congruence).
    assert (y' = sin a * x + cos a * y)%R as -> by (cbn in E2; congruence).
    pose proof (sin2_cos2 a) as Hsc. unfold Rsqr in Hsc. nra.
  - destruct (RotatingFacts.rotate_xy_elements xr yr (ufunc1 Ropp angle))
      as (xb & yb & Hback & Hlxb & Hlyb & Helb).
    { lia. }
    { apply RotatingFacts.goes_with_ufunc1. rewrite Hlx. exact Hg. }
    rewrite Hback.
    assert (forall i, xb !! i = xs !! i /\ yb !! i = ys !! i) as Heq.
    { intros i. destruct (Nat.lt_ge_cases i (length xs)) as [Hi|Hi].
      - destruct (lookup_lt_is_Some_2 xs i Hi) as [x Hx].
        destruct (lookup_lt_is_Some_2 ys i ltac:(lia)) as [y Hy].
        destruct (RotatingFacts.angle_at_goes_with angle (length xs) i Hg Hi) as [a Ha].
        destruct (Hel i x y a Hx Hy Ha) as [E1 E2].
        destruct (Helb i _ _ (- a)%R E1 E2) as [B1 B2].
        { rewrite RotatingFacts.angle_at_ufunc1, Ha. reflexivity. }
        rewrite B1, B2, Hx, Hy.
        cbn [fsub fmul fadd np_sin np_cos exact exact_elementary].
        rewrite cos_neg, sin_neg.
        pose proof (sin2_cos2 a) as Hsc. unfold Rsqr in Hsc.
        split; f_equal.
        + transitivity (x * (sin a * sin a + cos a * cos a))%R; [ring|].
          rewrite Hsc. ring.
        + transitivity (y * (sin a * sin a + cos a * cos a))%R; [ring|].
          rewrite Hsc. ring.
      - rewrite !lookup_ge_None_2 by lia. auto. }
    do 3 f_equal; apply list_eq; intros i; apply Heq.
Qed.

Lemma rotate_xy_is_a_rotation_witness :
  exists xr yr,
    Rotating.rotate_xy (Array1 [1%R; 0%R]) (Array1 [0%R; 1%R]) (Scalar PI)
    = Ok (Array1 xr, Array1 yr) /\
    length xr = 2%nat /\ length yr = 2%nat /\
    (forall i x y x' y',
       [1%R; 0%R] !! i = Some x -> [0%R; 1%R] !! i = Some y ->
       xr !! i = Some x' -> yr !! i = Some y' ->
       (x' * x' + y' * y' = x * x + y * y)%R) /\
    Rotating.rotate_xy (Array1 xr) (Array1 yr) (ufunc1 Ropp (Scalar PI))
    = Ok (Array1 [1%R; 0%R], Array1 [0%R; 1%R]).
Proof.
  exact (rotate_xy_is_a_rotation [1%R; 0%R] [0%R; 1%R] (Scalar PI) eq_refl I).
Defined.

(** ** birthday_station.py: the rotating frame of [simulate] *)

Section RotatingFrame.
Import Station StationFacts.
Local Open Scope R_scope.

Lemma simulate_lengths {F : Type} `{Arith F} (angular_speed inner_radius release_height : F)
    initial_velocity time_step max_steps tr :
  simulate angular_speed inner_radius release_height initial_velocity
    time_step max_steps = Ok tr ->
  length (x_inertial tr) = length (time tr) /\
  length (y_inertial tr) = length (time tr) /\
  entry tr 0 = Some (initial_state inner_radius release_height).
Proof.
  intros Hs.
  destruct (time_step_or_default angular_speed time_step) as [dt|e] eqn:Hdt.
  - destruct (time_recorded _ _ _ _ _ _ _ _ Hdt Hs) as (_ & Hx & Hy).
    split; [exact Hx|]. split; [exact Hy|].
    rewrite (entry_recorded _ _ _ _ _ _ _ _ _ Hdt Hs). reflexivity.
  - unfold simulate in Hs. rewrite Hdt in Hs. discriminate Hs.
Qed.

Lemma entry_lookups {F : Type} (tr : trajectory F) i x y t :
  entry tr i = Some (x, y, t) ->
  x_inertial tr !! i = Some x /\ y_inertial tr !! i = Some y /\ time tr !! i = Some t.
Proof.
  unfold entry.
  destruct (x_inertial tr !! i), (y_inertial tr !! i), (time tr !! i);
    intros [= -> -> ->] || discriminate. auto.
Qed.

(** The rotating arrays of [simulate], element by element. *)
Lemma rotating_simulate_points (angular_speed inner_radius release_height : R)
    (initial_velocity : R * R) (time_step : option R) (max_steps : Z) tr :
  Station.simulate angular_speed inner_radius release_height initial_velocity
    time_step max_steps = Ok tr ->
  exists xr yr,
    Rotating.simulate angular_speed inner_radius release_height initial_velocity
      time_step max_steps
    = Ok {| Rotating.inertial := tr;
            Rotating.x_rotating := Array1 xr;
            Rotating.y_rotating := Array1 yr |} /\
    length xr = length (Station.time tr) /\
    length yr = length (Station.time tr) /\
    xr !! 0%nat = Some 0%R /\
    yr !! 0%nat = Some (- inner_radius + release_height)%R /\
    forall i x y t,
      Station.entry tr i = Some (x, y, t) ->
      exists x' y',
        xr !! i = Some x' /\ yr !! i = Some y' /\
        x' = (cos (- angular_speed * t) * x - sin (- angular_speed * t) * y)%R /\
        y' = (sin (- angular_speed * t) * x + cos (- angular_speed * t) * y)%R /\
        np_hypot x' y' = np_hypot x y.
Proof.
  intros Hs.
  destruct (simulate_lengths _ _ _ _ _ _ _ Hs) as (Hlx & Hly & H0).
  unfold Rotating.simulate. rewrite Hs. cbn [and_then ufunc2].
  destruct (RotatingFacts.rotate_xy_elements (Station.x_inertial tr)
              (Station.y_inertial tr)
              (Array1 (fmul (fneg angular_speed) <$> Station.time tr)))
    as (xr & yr & -> & Hlxr & Hlyr & Hel).
  { lia. }
  { cbn. rewrite length_fmap. lia. }
  cbn [and_then fst snd]. exists xr, yr. split; [reflexivity|].
  split; [lia|]. split; [lia|].
  assert (forall i x y t,
            Station.entry tr i = Some (x, y, t) ->
            xr !! i = Some (cos (- angular_speed * t) * x - sin (- angular_speed * t) * y)%R /\
            yr !! i = Some (sin (- angular_speed * t) * x + cos (- angular_speed * t) * y)%R)
    as Hpt.
  { intros i x y t He. destruct (entry_lookups _ _ _ _ _ He) as (Hx & Hy & Ht).
    apply (Hel i x y (- angular_speed * t)%R Hx Hy).
    cbn [angle_at]. rewrite list_lookup_fmap, Ht. reflexivity. }
  split; [|split].
  - destruct (Hpt _ _ _ _ H0) as [-> _]. f_equal.
    change (@lit_zero R exact) with 0%R.
    replace (- angular_speed * 0)%R with 0%R by ring. rewrite sin_0. ring.
  - destruct (Hpt _ _ _ _ H0) as [_ ->]. f_equal.
    change (@lit_zero R exact) with 0%R. cbn [fadd fneg exact].
    replace (- angular_speed * 0)%R with 0%R by ring. rewrite sin_0, cos_0. ring.
  - intros i x y t He. destruct (Hpt _ _ _ _ He) as [-> ->].
    do 2 eexists. split; [reflexivity|]. split; [reflexivity|].
    split; [reflexivity|]. split; [reflexivity|].
    cbn [np_hypot exact]. f_equal.
    pose proof (sin2_cos2 (- angular_speed * t)) as Hsc. unfold Rsqr in Hsc.
    set (c := cos _) in *. set (s := sin _) in *.
    transitivity ((x * x + y * y) * (s * s + c * c))%R; [ring|]. rewrite Hsc. ring.
Qed.

End RotatingFrame.

(** X7.  birthday_station.py, [simulate] with its rotating frame, exact
    arithmetic.  Whenever the loop part returns, so does the whole call;
    the arrays "x_rotating" and "y_rotating" have one element per recorded
    time, element [i] being the inertial position turned by
    [-angular_speed * time[i]]; it has the same distance from the axis as
    the inertial position, and the first rotating position is the release
    point.  When the loop part raises (a zero [angular_speed] with no
    [time_step]), the whole call raises the same exception. *)
Theorem rotating_frame_keeps_radius (angular_speed inner_radius release_height : R)
    (initial_velocity : R * R) (time_step : option R) (max_steps : Z) :
  (forall tr,
     Station.simulate angular_speed inner_radius release_height initial_velocity
       time_step max_steps = Ok tr ->
     exists xr yr,
       Rotating.simulate angular_speed inner_radius release_height initial_velocity
         time_step max_steps
       = Ok {| Rotating.inertial := tr;
               Rotating.x_rotating := Array1 xr;
               Rotating.y_rotating := Array1 yr |} /\
       length xr = length (Station.time tr) /\
       length yr = length (Station.time tr) /\
       xr !! 0%nat = Some 0%R /\
       yr !! 0%nat = Some (- inner_radius + release_height)%R /\
       forall i x y t,
         Station.entry tr i = Some (x, y, t) ->
         exists x' y',
           xr !! i = Some x' /\ yr !! i = Some y' /\
           x' = (cos (- angular_speed * t) * x - sin (- angular_speed * t) * y)%R /\
           y' = (sin (- angular_speed * t) * x + cos (- angular_speed * t) * y)%R /\
           np_hypot x' y' = np_hypot x y) /\
  (forall e,
     Station.simulate angular_speed inner_radius release_height initial_velocity
       time_step max_steps = Raise e ->
     Rotating.simulate angular_speed inner_radius release_height initial_velocity
       time_step max_steps = Raise e).
Proof.
  split; [|intros e He; unfold Rotating.simulate; rewrite He; reflexivity].
  intros tr Hs. exact (rotating_simulate_points _ _ _ _ _ _ _ Hs).
Qed.

Lemma rotating_frame_keeps_radius_witness :
  exists tr xr yr,
    Station.simulate 1%R 10%R 2%R (3%R, 0%R) (Some 1%R) 5 = Ok tr /\
    length (Station.time tr) = 3%nat /\
    Station.entry tr 1 = Some ((0 + 3 * 1)%R, (- (10) + 2 + 0 * 1)%R, (0 + 1)%R) /\
    Rotating.simulate 1%R 10%R 2%R (3%R, 0%R) (Some 1%R) 5
    = Ok {| Rotating.inertial := tr;
            Rotating.x_rotating := Array1 xr;
            Rotating.y_rotating := Array1 yr |} /\
    length xr = length (Station.time tr) /\
    length yr = length (Station.time tr) /\
    xr !! 0%nat = Some 0%R /\ yr !! 0%nat = Some (- (10) + 2)%R /\
    forall i x y t,
      Station.entry tr i = Some (x, y, t) ->
      exists x' y',
        xr !! i = Some x' /\ yr !! i = Some y' /\
        x' = (cos (- (1) * t) * x - sin (- (1) * t) * y)%R /\
        y' = (sin (- (1) * t) * x + cos (- (1) * t) * y)%R /\
        np_hypot x' y' = np_hypot x y.
Proof.
  destruct exact_station_flight_run as (tr & Hs & Hlen & He).
  destruct (proj1 (rotating_frame_keeps_radius 1%R 10%R 2%R (3%R, 0%R) (Some 1%R) 5)
              tr Hs) as (xr & yr & H).
  exists tr, xr, yr. split; [exact Hs|]. split; [exact Hlen|]. split; [exact He|].
  exact H.
Defined.

(** X8.  birthday_station.py, [station_ring_points], exact arithmetic.  A
    negative [number_of_points] raises ValueError.  Otherwise the five
    arrays have [number_of_points] elements; every inner point lies at
    distance [inner_radius] from the origin and every outer point at
    distance [inner_radius + thickness]; with at least two points the
    angles are evenly spaced by [2 pi / (number_of_points - 1)] and both
    circles are closed: their first and last points coincide, on the
    positive x axis. *)
Theorem ring_is_two_closed_circles (inner_radius thickness : R) (number_of_points : Z) :
  ((number_of_points < 0)%Z ->
   Rotating.station_ring_points inner_radius thickness number_of_points
   = Raise ValueError) /\
  ((0 <= number_of_points)%Z ->
   exists r,
     Rotating.station_ring_points inner_radius thickness number_of_points = Ok r /\
     length (Rotating.angles r) = Z.to_nat number_of_points /\
     length (Rotating.inner_x r) = Z.to_nat number_of_points /\
     length (Rotating.inner_y r) = Z.to_nat number_of_points /\
     length (Rotating.outer_x r) = Z.to_nat number_of_points /\
     length (Rotating.outer_y r) = Z.to_nat number_of_points /\
     (forall i x y,
        Rotating.inner_x r !! i = Some x -> Rotating.inner_y r !! i = Some y ->
        (x * x + y * y = inner_radius * inner_radius)%R) /\
     (forall i x y,
        Rotating.outer_x r !! i = Some x -> Rotating.outer_y r !! i = Some y ->
        (x * x + y * y = (inner_radius + thickness) * (inner_radius + thickness))%R) /\
     ((2 <= number_of_points)%Z ->
      (forall i a, Rotating.angles r !! i = Some a ->
         a = (INR i * (2 * PI / (IZR number_of_points - 1)))%R) /\
      forall i, i = 0%nat \/ i = (Z.to_nat number_of_points - 1)%nat ->
        Rotating.inner_x r !! i = Some inner_radius /\
        Rotating.inner_y r !! i = Some 0%R /\
        Rotating.outer_x r !! i = Some (inner_radius + thickness)%R /\
        Rotating.outer_y r !! i = Some 0%R)).
Proof.
  unfold Rotating.station_ring_points. split.
  - intros Hn. rewrite (ElementwiseFacts.linspace_negative _ _ _ Hn). reflexivity.
  - intros Hn.
    destruct (ElementwiseFacts.linspace_length (@lit_zero R exact)
                (fmul lit_two np_pi) number_of_points Hn) as (l & Hl & Hlen).
    rewrite Hl. cbn [and_then]. eexists. split; [reflexivity|].
    cbn [Rotating.angles Rotating.inner_x Rotating.inner_y Rotating.outer_x
         Rotating.outer_y].
    rewrite !length_fmap. do 5 (split; [exact Hlen|]).
    assert (forall c i x y,
              ((fun a => fmul c (np_cos a)) <$> l) !! i = Some x ->
              ((fun a => fmul c (np_sin a)) <$> l) !! i = Some y ->
              (x * x + y * y = c * c)%R) as Hcircle.
    { intros c i x y. rewrite !list_lookup_fmap.
      destruct (l !! i) as [a|]; [|discriminate]. cbn. intros [= <-] [= <-].
      pose proof (sin2_cos2 a) as Hsc. unfold Rsqr in Hsc.
      transitivity (c * c * (sin a * sin a + cos a * cos a))%R; [ring|].
      rewrite Hsc. ring. }
    split; [apply Hcircle|]. split; [apply Hcircle|].
    intros H2. split.
    + intros i a Ha.
      destruct (ElementwiseFacts.exact_linspace_lookup _ _ _ _ _ _ Hl Ha) as (_ & _ & Hv).
      rewrite (Hv H2). cbn [lit_zero lit_two np_pi fmul exact]. lra.
    + intros i Hi.
      assert (exists a, l !! i = Some a /\ cos a = 1%R /\ sin a = 0%R) as (a & Ha & Hc & Hs).
      { destruct (lookup_lt_is_Some_2 l i) as [a Ha]; [lia|].
        destruct (ElementwiseFacts.exact_linspace_lookup _ _ _ _ _ _ Hl Ha)
          as (Hfirst & Hlast & _).
        exists a. split; [exact Ha|]. destruct Hi as [Hi|Hi].
        - rewrite (Hfirst Hi). cbn [lit_zero exact]. split; [apply cos_0|apply sin_0].
        - rewrite (Hlast ltac:(lia) H2). cbn [lit_two np_pi fmul exact].
          split; [apply cos_2PI|apply sin_2PI]. }
      rewrite !list_lookup_fmap, Ha. cbn. rewrite Hc, Hs.
      repeat split; f_equal; ring.
Qed.

(** ** The sphere meshes *)

Module GridFacts.
Section Grids.
Context {F : Type} `{Arith F} `{Elementary F}.

Lemma grid_at_map (f : F -> F) (g : grid F) i j :
  grid_at (grid_map f g) i j = f <$> grid_at g i j.
Proof.
  unfold grid_at, grid_map. rewrite list_lookup_fmap.
  destruct (g !! i) as [r|]; cbn; [apply list_lookup_fmap|reflexivity].
Qed.

Lemma grid_at_zip (f : F -> F -> F) (a b : grid F) i j :
  grid_at (grid_zip f a b) i j
  = match grid_at a i j, grid_at b i j with
    | Some x, Some y => Some (f x y)
    | _, _ => None
    end.
Proof.
  unfold grid_at, grid_zip. rewrite lookup_zip_with.
  destruct (a !! i) as [ra|]; cbn; [|reflexivity].
  destruct (b !! i) as [rb|]; cbn; [|destruct (ra !! j); reflexivity].
  rewrite lookup_zip_with.
  destruct (ra !! j); cbn; [|reflexivity]. destruct (rb !! j); reflexivity.
Qed.

Lemma grid_at_meshgrid (a b : list F) i j :
  grid_at (np_meshgrid a b).1 i j
  = match a !! i, b !! j with Some x, Some _ => Some x | _, _ => None end /\
  grid_at (np_meshgrid a b).2 i j
  = match a !! i, b !! j with Some _, Some y => Some y | _, _ => None end.
Proof.
  unfold grid_at, np_meshgrid. cbn [fst snd]. rewrite !list_lookup_fmap.
  destruct (a !! i) as [x|]; cbn; [|auto].
  rewrite list_lookup_fmap. destruct (b !! j); cbn; auto.
Qed.

Lemma has_shape_map (f : F -> F) (g : grid F) rows columns :
  has_shape rows columns g -> has_shape rows columns (grid_map f g).
Proof.
  intros [Hr Hc]. unfold has_shape, grid_map. rewrite length_fmap. split; [exact Hr|].
  apply Forall_fmap. eapply Forall_impl; [exact Hc|].
  intros r Hl. cbn. rewrite length_fmap. exact Hl.
Qed.

Lemma has_shape_zip (f : F -> F -> F) (a b : grid F) rows columns :
  has_shape rows columns a -> has_shape rows columns b ->
  has_shape rows columns (grid_zip f a b).
Proof.
  intros [Hra Hca] [Hrb Hcb]. unfold has_shape, grid_zip.
  rewrite length_zip_with. split; [lia|].
  apply Forall_lookup. intros i r. rewrite lookup_zip_with.
  destruct (a !! i) as [ra|] eqn:Ea; cbn; [|discriminate].
  destruct (b !! i) as [rb|] eqn:Eb; cbn; [|discriminate].
  intros [= <-]. rewrite length_zip_with.
  rewrite (proj1 (Forall_lookup _ _) Hca _ _ Ea), (proj1 (Forall_lookup _ _) Hcb _ _ Eb).
  lia.
Qed.

Lemma has_shape_meshgrid (a b : list F) :
  has_shape (length a) (length b) (np_meshgrid a b).1 /\
  has_shape (length a) (length b) (np_meshgrid a b).2.
Proof.
  unfold has_shape, np_meshgrid. cbn [fst snd]. rewrite !length_fmap.
  split; (split; [reflexivity|]); apply Forall_fmap, Forall_forall; intros x _; cbn;
    rewrite ?length_fmap; reflexivity.
Qed.

(** The point (i, j) of a sphere mesh, from the two angle arrays. *)
Lemma sphere_point (center_x center_y center_z radius : F) lat lon phi theta i j :
  np_linspace lit_zero np_pi lat = Ok phi ->
  np_linspace lit_zero (fmul lit_two np_pi) lon = Ok theta ->
  exists s,
    Figure.generate_sphere_mesh center_x center_y center_z radius lat lon = Ok s /\
    has_shape (length phi) (length theta) (Figure.surface_x s) /\
    has_shape (length phi) (length theta) (Figure.surface_y s) /\
    has_shape (length phi) (length theta) (Figure.surface_z s) /\
    surface_point s i j
    = match phi !! i, theta !! j with
      | Some p, Some t =>
          Some (fadd center_x (fmul (fmul radius (np_sin p)) (np_cos t)),
                fadd center_y (fmul (fmul radius (np_sin p)) (np_sin t)),
                fadd center_z (fmul radius (np_cos p)))
      | _, _ => None
      end.
Proof.
  intros Hphi Htheta. unfold Figure.generate_sphere_mesh.
  rewrite Hphi, Htheta. cbn [and_then].
  destruct (np_meshgrid phi theta) as [phi_grid theta_grid] eqn:Hm.
  pose proof (has_shape_meshgrid phi theta) as [S1 S2].
  pose proof (grid_at_meshgrid phi theta i j) as [G1 G2].
  rewrite Hm in S1, S2, G1, G2. cbn [fst snd] in S1, S2, G1, G2.
  eexists. split; [reflexivity|].
  cbn [Figure.surface_x Figure.surface_y Figure.surface_z].
  split; [auto using has_shape_map, has_shape_zip|].
  split; [auto using has_shape_map, has_shape_zip|].
  split; [auto using has_shape_map, has_shape_zip|].
  unfold surface_point. cbn [Figure.surface_x Figure.surface_y Figure.surface_z].
  rewrite !grid_at_map, !grid_at_zip, !grid_at_map, G1, G2.
  destruct (phi !! i) as [p|]; [|reflexivity].
  destruct (theta !! j) as [t|]; reflexivity.
Qed.

End Grids.
End GridFacts.

(** In exact arithmetic every point of a sphere mesh lies on the sphere. *)
Lemma sphere_mesh_points (center_x center_y center_z radius : R) lat lon s i j p :
  Figure.generate_sphere_mesh center_x center_y center_z radius lat lon = Ok s ->
  surface_point s i j = Some p ->
  squared_distance p (center_x, center_y, center_z) = (radius * radius)%R.
Proof.
  intros Hs Hp.
  destruct (np_linspace (@lit_zero R exact) np_pi lat) as [phi|e] eqn:Hphi;
    [|unfold Figure.generate_sphere_mesh in Hs; rewrite Hphi in Hs; discriminate Hs].
  destruct (np_linspace (@lit_zero R exact) (fmul lit_two np_pi) lon) as [theta|e]
    eqn:Htheta;
    [|unfold Figure.generate_sphere_mesh in Hs; rewrite Hphi, Htheta in Hs;
      discriminate Hs].
  destruct (GridFacts.sphere_point center_x center_y center_z radius _ _ _ _ i j
              Hphi Htheta) as (s' & Hs' & _ & _ & _ & Hpt).
  assert (s' = s) as -> by congruence. rewrite Hpt in Hp.
  destruct (phi !! i) as [a|]; [|discriminate].
  destruct (theta !! j) as [b|]; [|discriminate]. injection Hp as <-.
  unfold squared_distance.
  cbn [fst snd fadd fmul np_sin np_cos exact exact_elementary].
  pose proof (sin2_cos2 a) as Ha. pose proof (sin2_cos2 b) as Hb.
  unfold Rsqr in Ha, Hb.
  transitivity (radius * radius
                * (sin a * sin a * (sin b * sin b + cos b * cos b) + cos a * cos a))%R;
    [ring|].
  rewrite Hb, Rmult_1_r.
  transitivity (radius * radius * (sin a * sin a + cos a * cos a))%R; [ring|].
  rewrite Ha. ring.
Qed.

(** X9.  [generate_sphere_mesh] of two_balls_bounce.py, two_balls_cross.py
    and ball.py, exact arithmetic.  A negative number of latitudes or
    longitudes raises ValueError.  Otherwise the three grids have one row
    per latitude and one column per longitude; every mesh point lies at
    distance [radius] from the centre; the first row is the pole
    [centre + (0, 0, radius)], with two latitudes or more the last row is
    the opposite pole; with two longitudes or more the last column repeats
    the first, so the surface is closed. *)
Theorem sphere_mesh_is_on_the_sphere (center_x center_y center_z radius : R)
    (number_of_latitudes number_of_longitudes : Z) :
  ((number_of_latitudes < 0 \/ number_of_longitudes < 0)%Z ->
   Figure.generate_sphere_mesh center_x center_y center_z radius
     number_of_latitudes number_of_longitudes = Raise ValueError) /\
  ((0 <= number_of_latitudes)%Z -> (0 <= number_of_longitudes)%Z ->
   exists s,
     Figure.generate_sphere_mesh center_x center_y center_z radius
       number_of_latitudes number_of_longitudes = Ok s /\
     has_shape (Z.to_nat number_of_latitudes) (Z.to_nat number_of_longitudes)
       (Figure.surface_x s) /\
     has_shape (Z.to_nat number_of_latitudes) (Z.to_nat number_of_longitudes)
       (Figure.surface_y s) /\
     has_shape (Z.to_nat number_of_latitudes) (Z.to_nat number_of_longitudes)
       (Figure.surface_z s) /\
     (forall i j p,
        surface_point s i j = Some p ->
        squared_distance p (center_x, center_y, center_z) = (radius * radius)%R) /\
     (forall j, (j < Z.to_nat number_of_longitudes)%nat ->
        ((1 <= number_of_latitudes)%Z ->
         surface_point s 0 j = Some (center_x, center_y, (center_z + radius)%R)) /\
        ((2 <= number_of_latitudes)%Z ->
         surface_point s (Z.to_nat number_of_latitudes - 1) j
         = Some (center_x, center_y, (center_z - radius)%R))) /\
     ((2 <= number_of_longitudes)%Z ->
      forall i, surface_point s i (Z.to_nat number_of_longitudes - 1)
                = surface_point s i 0)).
Proof.
  split.
  - intros Hneg. unfold Figure.generate_sphere_mesh.
    destruct (Z.lt_ge_cases number_of_latitudes 0) as [Hlat|Hlat].
    + rewrite (ElementwiseFacts.linspace_negative _ _ _ Hlat). reflexivity.
    + destruct (ElementwiseFacts.linspace_length (@lit_zero R exact) np_pi
                  number_of_latitudes Hlat) as (phi & -> & _).
      cbn [and_then].
      rewrite (ElementwiseFacts.linspace_negative _ _ number_of_longitudes)
        by lia.
      reflexivity.
  - intros Hlat Hlon.
    destruct (ElementwiseFacts.linspace_length (@lit_zero R exact) np_pi
                number_of_latitudes Hlat) as (phi & Hphi & Hlphi).
    destruct (ElementwiseFacts.linspace_length (@lit_zero R exact) (fmul lit_two np_pi)
                number_of_longitudes Hlon) as (theta & Htheta & Hltheta).
    destruct (GridFacts.sphere_point center_x center_y center_z radius _ _ _ _ 0 0
                Hphi Htheta) as (s & Hs & Sx & Sy & Sz & _).
    assert (forall i j,
              surface_point s i j
              = match phi !! i, theta !! j with
                | Some p, Some t =>
                    Some ((center_x + radius * sin p * cos t)%R,
                          (center_y + radius * sin p * sin t)%R,
                          (center_z + radius * cos p)%R)
                | _, _ => None
                end) as Hpt.
    { intros i j.
      destruct (GridFacts.sphere_point center_x center_y center_z radius _ _ _ _ i j
                  Hphi Htheta) as (s' & Hs' & _ & _ & _ & Hp).
      assert (s' = s) as -> by congruence. exact Hp. }
    rewrite Hlphi, Hltheta in Sx, Sy, Sz.
    exists s. split; [exact Hs|]. do 3 (split; [assumption|]). split; [|split].
    + intros i j p. rewrite Hpt.
      destruct (phi !! i) as [a|]; [|discriminate].
      destruct (theta !! j) as [b|]; [|discriminate]. intros [= <-].
      unfold squared_distance. cbn [fst snd].
      pose proof (sin2_cos2 a) as Ha. pose proof (sin2_cos2 b) as Hb.
      unfold Rsqr in Ha, Hb.
      transitivity (radius * radius
                    * (sin a * sin a * (sin b * sin b + cos b * cos b) + cos a * cos a))%R;
        [ring|].
      rewrite Hb, Rmult_1_r.
      transitivity (radius * radius * (sin a * sin a + cos a * cos a))%R; [ring|].
      rewrite Ha. ring.
    + intros j Hj.
      destruct (lookup_lt_is_Some_2 theta j ltac:(lia)) as [b Hb].
      split; intros Hn.
      * destruct (lookup_lt_is_Some_2 phi 0 ltac:(lia)) as [a Ha].
        destruct (ElementwiseFacts.exact_linspace_lookup _ _ _ _ _ _ Hphi Ha)
          as (Hfirst & _ & _).
        rewrite Hpt, Ha, Hb, (Hfirst eq_refl). cbn [lit_zero exact].
        rewrite sin_0, cos_0. do 2 f_equal; [f_equal|]; ring.
      * destruct (lookup_lt_is_Some_2 phi (Z.to_nat number_of_latitudes - 1) ltac:(lia))
          as [a Ha].
        destruct (ElementwiseFacts.exact_linspace_lookup _ _ _ _ _ _ Hphi Ha)
          as (_ & Hlast & _).
        rewrite Hpt, Ha, Hb, (Hlast ltac:(lia) Hn). cbn [np_pi exact].
        rewrite sin_PI, cos_PI. do 2 f_equal; [f_equal|]; ring.
    + intros Hn i. rewrite !Hpt.
      destruct (phi !! i) as [a|]; [|reflexivity].
      destruct (lookup_lt_is_Some_2 theta 0 ltac:(lia)) as [b0 Hb0].
      destruct (lookup_lt_is_Some_2 theta (Z.to_nat number_of_longitudes - 1) ltac:(lia))
        as [b1 Hb1].
      destruct (ElementwiseFacts.exact_linspace_lookup _ _ _ _ _ _ Htheta Hb0)
        as (Hfirst & _ & _).
      destruct (ElementwiseFacts.exact_linspace_lookup _ _ _ _ _ _ Htheta Hb1)
        as (_ & Hlast & _).
      rewrite Hb0, Hb1, (Hfirst eq_refl), (Hlast ltac:(lia) Hn).
      cbn [lit_zero lit_two np_pi fmul exact].
      rewrite sin_0, cos_0, sin_2PI, cos_2PI. reflexivity.
Qed.

(** ** two_balls_bounce.py: the wall *)

(** X10.  two_balls_bounce.py, [build_wall_box_trace], exact arithmetic.
    The eight vertices are the corners of the box of the given sizes about
    the given centre.  Each of the twelve triangles joins three corners of
    one face; but no triangle lies on the face [x = x_max] when the
    thickness is not zero, and none on the face [y = y_min] when the height
    is not zero: the mesh leaves these two faces open. *)
Theorem wall_box_leaves_two_faces_open
    (wall_center_x wall_center_y wall_center_z thickness_x height_y depth_z : R) :
  let m := Figure.build_wall_box_trace wall_center_x wall_center_y wall_center_z
             thickness_x height_y depth_z in
  (forall n, (n < 8)%nat ->
     exists p, vertex m n = Some p /\
       (Rabs (p.1.1 - wall_center_x) = Rabs thickness_x / 2)%R /\
       (Rabs (p.1.2 - wall_center_y) = Rabs height_y / 2)%R /\
       (Rabs (p.2 - wall_center_z) = Rabs depth_z / 2)%R) /\
  length (triangles m) = 12%nat /\
  Forall (fun t => exists a b c,
            triangle_corners m t = Some (a, b, c) /\
            ((a.1.1 = b.1.1 /\ b.1.1 = c.1.1) \/
             (a.1.2 = b.1.2 /\ b.1.2 = c.1.2) \/
             (a.2 = b.2 /\ b.2 = c.2))) (triangles m) /\
  (thickness_x <> 0%R ->
   Forall (fun t => forall a b c,
             triangle_corners m t = Some (a, b, c) ->
             ~ (a.1.1 = (wall_center_x + thickness_x / 2)%R /\
                b.1.1 = (wall_center_x + thickness_x / 2)%R /\
                c.1.1 = (wall_center_x + thickness_x / 2)%R)) (triangles m)) /\
  (height_y <> 0%R ->
   Forall (fun t => forall a b c,
             triangle_corners m t = Some (a, b, c) ->
             ~ (a.1.2 = (wall_center_y - height_y / 2)%R /\
                b.1.2 = (wall_center_y - height_y / 2)%R /\
                c.1.2 = (wall_center_y - height_y / 2)%R)) (triangles m)).
Proof.
  cbn zeta. split; [|split; [reflexivity|split; [|split]]].
  - intros n Hn.
    assert (forall d : R, Rabs (d / 2) = (Rabs d / 2)%R) as Hhalf.
    { intros d. unfold Rdiv. rewrite Rabs_mult, (Rabs_pos_eq (/ 2)); [reflexivity|lra]. }
    do 8 (destruct n as [|n]; [eexists; split; [reflexivity|];
      cbn [fst snd fsub fadd fdiv lit_two exact exact_elementary];
      rewrite <- !Hhalf;
      repeat split; first [ f_equal; lra
                          | rewrite <- Rabs_Ropp; f_equal; lra ] |]).
    lia.
  - repeat constructor; do 3 eexists; (split; [reflexivity|]); cbn [fst snd]; auto.
  - intros Hth. repeat constructor; intros a b c [= <- <- <-]; cbn [fst snd];
      cbn [fsub fadd fdiv lit_two exact exact_elementary]; intros (Ha & Hb & Hc);
      apply Hth; lra.
  - intros Hhy. repeat constructor; intros a b c [= <- <- <-]; cbn [fst snd];
      cbn [fsub fadd fdiv lit_two exact exact_elementary]; intros (Ha & Hb & Hc);
      apply Hhy; lra.
Qed.

(** ** The animation figures *)

Module FigureFacts.
Section Frames.
Context {F : Type} `{Arith F} `{Elementary F}.

(** With the default 24 latitudes and 48 longitudes no sphere raises. *)
Lemma frame_traces_ok (ball_radius : F) (positions : ndarray F) :
  exists traces,
    Figure.frame_traces ball_radius positions = Ok traces /\
    length traces = length positions /\
    forall k p, positions !! k = Some p ->
      exists s, traces !! k = Some s /\
        Figure.generate_sphere_mesh p.1.1 p.1.2 p.2 ball_radius 24 48 = Ok s.
Proof.
  unfold Figure.frame_traces. induction positions as [|q positions IH].
  - exists []. split; [reflexivity|]. split; [reflexivity|]. intros k p Hk.
    destruct k; discriminate Hk.
  - destruct IH as (traces & Htr & Hlen & Hk). cbn [collect].
    destruct (Figure.generate_sphere_mesh q.1.1 q.1.2 q.2 ball_radius 24 48)
      as [s|e] eqn:Hs; [|discriminate Hs].
    rewrite Htr. exists (s :: traces). split; [reflexivity|].
    split; [cbn; lia|]. intros [|k] p Hp.
    + injection Hp as <-. exists s. auto.
    + exact (Hk k p Hp).
Qed.

Lemma build_frames_ok (ball_radius : F) (positions_over_time : list (ndarray F)) :
  forall frame_index,
  exists frames,
    Figure.build_frames ball_radius frame_index positions_over_time = Ok frames /\
    length frames = length positions_over_time /\
    forall i positions, positions_over_time !! i = Some positions ->
      exists f, frames !! i = Some f /\
        Figure.frame_name f = (frame_index + i)%nat /\
        Figure.frame_traces ball_radius positions = Ok (Figure.frame_data f).
Proof.
  induction positions_over_time as [|positions rest IH]; intros frame_index.
  - exists []. split; [reflexivity|]. split; [reflexivity|]. intros i p Hi.
    destruct i; discriminate Hi.
  - destruct (frame_traces_ok ball_radius positions) as (traces & Htr & _).
    destruct (IH (S frame_index)) as (frames & Hfr & Hlen & Hi).
    cbn [Figure.build_frames]. rewrite Htr. cbn [and_then]. rewrite Hfr. cbn [and_then].
    eexists. split; [reflexivity|]. split; [cbn; lia|].
    intros [|i] p Hp.
    + injection Hp as <-. eexists. split; [reflexivity|].
      cbn [Figure.frame_name Figure.frame_data]. split; [lia|exact Htr].
    + destruct (Hi i p Hp) as (f & Hf & Hname & Hdata).
      exists f. split; [exact Hf|]. split; [lia|exact Hdata].
Qed.

End Frames.
End FigureFacts.

(** X11.  [build_animation_figure] of two_balls_bounce.py and
    two_balls_cross.py, exact arithmetic.  On an empty list both raise
    IndexError, at [frames[0]].  On any other list both return: there is
    one frame per recorded array, frame [i] is named [i] and holds one
    surface per ball, every point of the surface of ball [k] lying at
    distance [ball_radius] from the recorded position of ball [k].  The
    figure's own traces are the surfaces of frame 0, followed in
    two_balls_bounce.py by the wall box, 0.25 thick and 10 by 10, centred
    at [(wall_x_position, 0, 0)]. *)
Theorem animation_frames_follow_the_balls
    (positions_over_time : list (ndarray R)) (ball_radius wall_x_position : R) :
  (positions_over_time = [] ->
   BounceFigure.build_animation_figure positions_over_time ball_radius wall_x_position
   = Raise IndexError /\
   CrossFigure.build_animation_figure positions_over_time ball_radius
   = Raise IndexError) /\
  (positions_over_time <> [] ->
   exists frames first,
     frames !! 0%nat = Some first /\
     BounceFigure.build_animation_figure positions_over_time ball_radius wall_x_position
     = Ok {| Figure.figure_data :=
               (Figure.Surface <$> Figure.frame_data first)
               ++ [Figure.Mesh3d
                     (Figure.build_wall_box_trace wall_x_position 0%R 0%R
                        (1 / 4)%R 10%R 10%R)];
             Figure.figure_frames := frames |} /\
     CrossFigure.build_animation_figure positions_over_time ball_radius
     = Ok {| Figure.figure_data := Figure.Surface <$> Figure.frame_data first;
             Figure.figure_frames := frames |} /\
     length frames = length positions_over_time /\
     forall i positions, positions_over_time !! i = Some positions ->
       exists f, frames !! i = Some f /\
         Figure.frame_name f = i /\
         length (Figure.frame_data f) = length positions /\
         forall k p s a b q,
           positions !! k = Some p -> Figure.frame_data f !! k = Some s ->
           surface_point s a b = Some q ->
           squared_distance q p = (ball_radius * ball_radius)%R).
Proof.
  split; [intros ->; split; reflexivity|]. intros Hne.
  destruct (FigureFacts.build_frames_ok ball_radius positions_over_time 0)
    as (frames & Hfr & Hlen & Hi).
  destruct frames as [|first frames'].
  { destruct positions_over_time; [congruence|discriminate Hlen]. }
  exists (first :: frames'), first. split; [reflexivity|].
  unfold BounceFigure.build_animation_figure, CrossFigure.build_animation_figure.
  rewrite Hfr. cbn [and_then Figure.first_frame].
  split; [reflexivity|]. split; [reflexivity|]. split; [exact Hlen|].
  intros i positions Hp. destruct (Hi i positions Hp) as (f & Hf & Hname & Hdata).
  exists f. split; [exact Hf|]. split; [exact Hname|].
  destruct (FigureFacts.frame_traces_ok ball_radius positions)
    as (traces & Htr & Hlt & Hk).
  assert (traces = Figure.frame_data f) as -> by congruence.
  split; [exact Hlt|].
  intros k p s a b q Hpk Hs Hq. destruct (Hk k p Hpk) as (s' & Hs' & Hmesh).
  assert (s' = s) as -> by congruence.
  destruct p as [[px py] pz].
  exact (sphere_mesh_points px py pz ball_radius 24 48 s a b q Hmesh Hq).
Qed.

(** X12.  Both [simulate_motion], any arithmetic.  When the test
    [0.0 <= stop_time] fails (a negative stop time, or a NaN), the call
    returns the empty list whatever the other arguments are, having
    allocated only its two private copies; [build_animation_figure] then
    raises IndexError on that list in both scripts. *)
Theorem negative_stop_time_records_nothing (F : Type) (A : Arith F) (E : Elementary F)
    (h : store F) (initial_positions initial_velocities : ref) (P V : ndarray F)
    (wall_x_position time_step stop_time ball_radius : F) (fuel : nat) :
  h !! initial_positions = Some P ->
  h !! initial_velocities = Some V ->
  fle lit_zero stop_time = false ->
  (Bounce.simulate_motion fuel initial_positions initial_velocities
     wall_x_position time_step stop_time h = (h ++ [P; V], Ok (Done [])) /\
   BounceFigure.build_animation_figure [] ball_radius wall_x_position
   = Raise IndexError) /\
  (Cross.simulate_motion fuel initial_positions initial_velocities
     time_step stop_time h = (h ++ [P; V], Ok (Done [])) /\
   CrossFigure.build_animation_figure [] ball_radius = Raise IndexError).
Proof.
  intros HP HV Hstop. split; (split; [|reflexivity]).
  - rewrite (BounceFacts.simulate_motion_values _ _ _ _ _ _ _ _ _ HP HV). cbv zeta.
    assert (Bounce.while_value wall_x_position time_step stop_time fuel [] (P, V) lit_zero
            = ([], (P, V), Ok (Done tt))) as ->
      by (destruct fuel; cbn [Bounce.while_value]; rewrite Hstop; reflexivity).
    reflexivity.
  - unfold Cross.simulate_motion, bind.
    rewrite (StoreFacts.copy_value _ _ _ HP).
    rewrite (StoreFacts.copy_value (h ++ [P]) initial_velocities V)
      by (rewrite lookup_app_l by (eapply lookup_lt_Some; eassumption); exact HV).
    destruct fuel; cbn [Cross.while_loop Cross.current_time]; rewrite Hstop;
      unfold ret; cbn [Cross.positions_over_time]; rewrite <- app_assoc; reflexivity.
Qed.

Lemma negative_stop_time_records_nothing_witness :
  (Bounce.simulate_motion 5 0 1 0%R 1%R (-1)%R exact_store
   = (exact_store ++ [ [ ((-1)%R, 0%R, 0%R) ]; [ (2%R, 0%R, 0%R) ] ], Ok (Done [])) /\
   BounceFigure.build_animation_figure [] (1 / 2)%R 0%R = Raise IndexError) /\
  (Cross.simulate_motion 5 0 1 1%R (-1)%R exact_store
   = (exact_store ++ [ [ ((-1)%R, 0%R, 0%R) ]; [ (2%R, 0%R, 0%R) ] ], Ok (Done [])) /\
   CrossFigure.build_animation_figure [] (1 / 2)%R = Raise IndexError).
Proof.
  refine (negative_stop_time_records_nothing R exact exact_elementary exact_store
            0%nat 1%nat _ _ 0%R 1%R (-1)%R (1 / 2)%R 5 eq_refl eq_refl _).
  cbn. destruct (Rle_dec 0 (-1)); [lra|reflexivity].
Defined.

(** ** birthday_station.py: [build_figure] *)

Module StationFigureFacts.
Import StationFigure.

Lemma collect_ok {A B : Type} (body : A -> result B) (l : list A) :
  (forall i x, l !! i = Some x -> exists y, body x = Ok y) ->
  exists ys, collect body l = Ok ys /\ length ys = length l /\
    forall i x, l !! i = Some x -> exists y, ys !! i = Some y /\ body x = Ok y.
Proof.
  induction l as [|x l IH]; intros Hall.
  - exists []. split; [reflexivity|]. split; [reflexivity|].
    intros i x Hi. destruct i; discriminate Hi.
  - destruct (Hall 0%nat x eq_refl) as [y Hy].
    destruct IH as (ys & Hys & Hlen & Hi).
    { intros i x' Hx'. exact (Hall (S i) x' Hx'). }
    cbn [collect]. rewrite Hy, Hys. exists (y :: ys). split; [reflexivity|].
    split; [cbn; lia|]. intros [|i] x' Hx'.
    + injection Hx' as <-. exists y. auto.
    + exact (Hi i x' Hx').
Qed.

Section Generic.
Context {F : Type} `{Arith F} `{Elementary F}.
Local Open Scope arith_scope.

(** The traces at an index that every array of the run has. *)
Lemma traces_at_ok (angular_speed : F) tr xr yr (ring : Rotating.ring F) i x y t x' y' :
  length (Rotating.inner_x ring) = length (Rotating.inner_y ring) ->
  length (Rotating.outer_x ring) = length (Rotating.outer_y ring) ->
  Station.x_inertial tr !! i = Some x ->
  Station.y_inertial tr !! i = Some y ->
  Station.time tr !! i = Some t ->
  xr !! i = Some x' -> yr !! i = Some y' ->
  exists ix iy ox oy,
    Rotating.rotate_xy (Array1 (Rotating.inner_x ring)) (Array1 (Rotating.inner_y ring))
      (Scalar (angular_speed * t)) = Ok (Array1 ix, Array1 iy) /\
    Rotating.rotate_xy (Array1 (Rotating.outer_x ring)) (Array1 (Rotating.outer_y ring))
      (Scalar (angular_speed * t)) = Ok (Array1 ox, Array1 oy) /\
    traces_at angular_speed
      {| Rotating.inertial := tr;
         Rotating.x_rotating := Array1 xr;
         Rotating.y_rotating := Array1 yr |} ring i
    = Ok [ {| scatter_x := Array1 ix; scatter_y := Array1 iy |};
           {| scatter_x := Array1 ox; scatter_y := Array1 oy |};
           {| scatter_x := Array1 [x]; scatter_y := Array1 [y] |};
           {| scatter_x := Array1 (take (i + 1) (Station.x_inertial tr));
              scatter_y := Array1 (take (i + 1) (Station.y_inertial tr)) |};
           {| scatter_x := Array1 (Rotating.inner_x ring);
              scatter_y := Array1 (Rotating.inner_y ring) |};
           {| scatter_x := Array1 (Rotating.outer_x ring);
              scatter_y := Array1 (Rotating.outer_y ring) |};
           {| scatter_x := Array1 [x']; scatter_y := Array1 [y'] |};
           {| scatter_x := Array1 (take (i + 1) xr);
              scatter_y := Array1 (take (i + 1) yr) |} ].
Proof.
  intros Hin Hout Hx Hy Ht Hx' Hy'.
  destruct (RotatingFacts.rotate_xy_elements (Rotating.inner_x ring)
              (Rotating.inner_y ring) (Scalar (angular_speed * t)) Hin I)
    as (ix & iy & Hri & _).
  destruct (RotatingFacts.rotate_xy_elements (Rotating.outer_x ring)
              (Rotating.outer_y ring) (Scalar (angular_speed * t)) Hout I)
    as (ox & oy & Hro & _).
  exists ix, iy, ox, oy. split; [exact Hri|]. split; [exact Hro|].
  unfold traces_at, item, np_item, np_prefix.
  cbn [Rotating.inertial Rotating.x_rotating Rotating.y_rotating].
  rewrite Ht. cbn [and_then]. rewrite Hri. cbn [and_then]. rewrite Hro. cbn [and_then].
  rewrite Hx, Hy, Hx', Hy'. reflexivity.
Qed.

End Generic.

(** A rotation by a scalar angle keeps every point on its circle. *)
Lemma rotated_on_circle (xs ys : list R) (a c : R) ix iy :
  length xs = length ys ->
  on_circle c (zip xs ys) ->
  Rotating.rotate_xy (Array1 xs) (Array1 ys) (Scalar a) = Ok (Array1 ix, Array1 iy) ->
  length (zip ix iy) = length xs /\ on_circle c (zip ix iy).
Proof.
  intros Hlen Hc Hrot.
  destruct (RotatingFacts.rotate_xy_elements xs ys (Scalar a) Hlen I)
    as (ix' & iy' & Hrot' & Hlx & Hly & Hel).
  assert (ix' = ix /\ iy' = iy) as [-> ->] by (split; congruence).
  split; [rewrite length_zip_with; lia|].
  apply Forall_lookup. intros i [x' y'] Hi.
  rewrite lookup_zip_with in Hi.
  destruct (ix !! i) as [x1|] eqn:E1; [|discriminate].
  destruct (iy !! i) as [y1|] eqn:E2; [|discriminate].
  cbn in Hi. injection Hi as <- <-.
  destruct (lookup_lt_is_Some_2 xs i) as [x Hx];
    [apply lookup_lt_Some in E1; lia|].
  destruct (lookup_lt_is_Some_2 ys i) as [y Hy];
    [apply lookup_lt_Some in E1; lia|].
  destruct (Hel i x y a Hx Hy eq_refl) as [R1 R2].
  assert (x1 = cos a * x - sin a * y)%R as -> by (cbn in R1; congruence).
  assert (y1 = sin a * x + cos a * y)%R as -> by (cbn in R2; congruence).
  assert ((x, y).1 * (x, y).1 + (x, y).2 * (x, y).2 = c * c)%R as Hxy.
  { apply (proj1 (Forall_lookup _ _) Hc i (x, y)).
    rewrite lookup_zip_with, Hx, Hy. reflexivity. }
  cbn [fst snd] in Hxy |- *.
  pose proof (sin2_cos2 a) as Hsc. unfold Rsqr in Hsc.
  transitivity ((x * x + y * y) * (sin a * sin a + cos a * cos a))%R; [ring|].
  rewrite Hsc, Hxy. ring.
Qed.

(** The ring, in exact arithmetic: two circles of [number_of_points]
    points. *)
Lemma ring_points_ok (inner_radius thickness : R) (number_of_points : Z) :
  (0 <= number_of_points)%Z ->
  exists r,
    Rotating.station_ring_points inner_radius thickness number_of_points = Ok r /\
    length (Rotating.inner_x r) = Z.to_nat number_of_points /\
    length (Rotating.inner_y r) = Z.to_nat number_of_points /\
    length (Rotating.outer_x r) = Z.to_nat number_of_points /\
    length (Rotating.outer_y r) = Z.to_nat number_of_points /\
    on_circle inner_radius (zip (Rotating.inner_x r) (Rotating.inner_y r)) /\
    on_circle (inner_radius + thickness) (zip (Rotating.outer_x r) (Rotating.outer_y r)).
Proof.
  intros Hn. unfold Rotating.station_ring_points.
  destruct (ElementwiseFacts.linspace_length (@lit_zero R exact)
              (fmul lit_two np_pi) number_of_points Hn) as (l & Hl & Hlen).
  rewrite Hl. cbn [and_then]. eexists. split; [reflexivity|].
  cbn [Rotating.inner_x Rotating.inner_y Rotating.outer_x Rotating.outer_y].
  rewrite !length_fmap. do 4 (split; [exact Hlen|]).
  assert (forall c : R,
            on_circle c (zip ((fun a => fmul c (np_cos a)) <$> l)
                           ((fun a => fmul c (np_sin a)) <$> l))) as Hcircle.
  { intros c. apply Forall_lookup. intros i [x y].
    rewrite lookup_zip_with, !list_lookup_fmap.
    destruct (l !! i) as [a|]; [|discriminate]. cbn. intros [= <- <-].
    pose proof (sin2_cos2 a) as Hsc. unfold Rsqr in Hsc.
    transitivity (c * c * (sin a * sin a + cos a * cos a))%R; [ring|].
    rewrite Hsc. ring. }
  split; apply Hcircle.
Qed.

(** Without a [time_step] argument the loop part returns exactly when
    [angular_speed] is not zero. *)
Lemma default_step_simulate (angular_speed inner_radius release_height : R)
    (initial_velocity : R * R) (max_steps : Z) :
  (angular_speed = 0%R ->
   Station.simulate angular_speed inner_radius release_height initial_velocity
     None max_steps = Raise ZeroDivisionError) /\
  (angular_speed <> 0%R ->
   exists tr,
     Station.simulate angular_speed inner_radius release_height initial_velocity
       None max_steps = Ok tr /\
     (1 <= length (Station.time tr) <= Z.to_nat max_steps + 1)%nat /\
     forall i,
       Station.entry tr i
       = Station.recorded inner_radius release_height initial_velocity
           (1 / 1000 * 2 * PI / angular_speed)%R max_steps !! i).
Proof.
  split; intros Hw.
  - unfold Station.simulate, Station.time_step_or_default, Station.default_time_step.
    cbn [is_zero exact]. destruct (Req_dec_T angular_speed 0); [reflexivity|contradiction].
  - assert (Station.time_step_or_default angular_speed None
            = Ok (1 / 1000 * 2 * PI / angular_speed)%R) as Hdt.
    { unfold Station.time_step_or_default, Station.default_time_step.
      cbn [is_zero exact]. destruct (Req_dec_T angular_speed 0); [contradiction|].
      reflexivity. }
    pose proof (StationFacts.simulate_recorded angular_speed inner_radius release_height
                  initial_velocity None _ max_steps Hdt) as Hs.
    cbv zeta in Hs. eexists. split; [exact Hs|]. split.
    + cbn [Station.time]. rewrite length_fmap. apply StationFacts.recorded_length.
    + intros i. exact (StationFacts.entry_recorded _ _ _ _ _ _ _ _ i Hdt Hs).
Qed.

End StationFigureFacts.

(** The traces at a recorded index show the run. *)
Lemma traces_at_shows (angular_speed inner_radius release_height thickness : R)
    (initial_velocity : R * R) (time_step : option R) (max_steps : Z) tr xr yr ring i :
  Station.simulate angular_speed inner_radius release_height initial_velocity
    time_step max_steps = Ok tr ->
  Rotating.simulate angular_speed inner_radius release_height initial_velocity
    time_step max_steps
  = Ok {| Rotating.inertial := tr;
          Rotating.x_rotating := Array1 xr;
          Rotating.y_rotating := Array1 yr |} ->
  Rotating.station_ring_points inner_radius thickness 400 = Ok ring ->
  (i < length (Station.time tr))%nat ->
  exists data,
    StationFigure.traces_at angular_speed
      {| Rotating.inertial := tr;
         Rotating.x_rotating := Array1 xr;
         Rotating.y_rotating := Array1 yr |} ring i = Ok data /\
    shows_run inner_radius thickness tr i data.
Proof.
  intros Hs Hrot Hring Hi.
  destruct (simulate_lengths _ _ _ _ _ _ _ Hs) as (Hlx & Hly & _).
  destruct (rotating_simulate_points _ _ _ _ _ _ _ Hs)
    as (xr' & yr' & Hrot' & Hlxr & Hlyr & _ & _ & Hpt).
  assert (xr' = xr /\ yr' = yr) as [-> ->] by (split; congruence).
  destruct (StationFigureFacts.ring_points_ok inner_radius thickness 400 ltac:(lia))
    as (ring' & Hring' & L1 & L2 & L3 & L4 & C1 & C2).
  assert (ring' = ring) as -> by congruence.
  destruct (lookup_lt_is_Some_2 (Station.x_inertial tr) i ltac:(lia)) as [x Hx].
  destruct (lookup_lt_is_Some_2 (Station.y_inertial tr) i ltac:(lia)) as [y Hy].
  destruct (lookup_lt_is_Some_2 (Station.time tr) i Hi) as [t Ht].
  assert (Station.entry tr i = Some (x, y, t)) as He
    by (unfold Station.entry; rewrite Hx, Hy, Ht; reflexivity).
  destruct (Hpt i x y t He) as (x' & y' & Hx' & Hy' & _ & _ & Hhyp).
  destruct (StationFigureFacts.traces_at_ok angular_speed tr xr yr ring i x y t x' y'
              ltac:(lia) ltac:(lia) Hx Hy Ht Hx' Hy')
    as (ix & iy & ox & oy & Hri & Hro & Htr).
  eexists. split; [exact Htr|].
  assert (length (Rotating.inner_x ring) = length (Rotating.inner_y ring)) as Hin by lia.
  assert (length (Rotating.outer_x ring) = length (Rotating.outer_y ring)) as Hout by lia.
  destruct (StationFigureFacts.rotated_on_circle _ _ _ _ _ _ Hin C1 Hri) as [Li Ci].
  destruct (StationFigureFacts.rotated_on_circle _ _ _ _ _ _ Hout C2 Hro) as [Lo Co].
  do 8 eexists. split; [reflexivity|].
  unfold points. cbn [StationFigure.scatter_x StationFigure.scatter_y].
  rewrite Li, Lo, !length_zip_with, L1, L2, L3, L4.
  split; [reflexivity|]. split; [exact Ci|]. split; [reflexivity|]. split; [exact Co|].
  split; [reflexivity|]. split; [exact C1|]. split; [reflexivity|]. split; [exact C2|].
  split.
  { exists x, y, t, x', y'. auto. }
  rewrite Nat.add_1_r. split; [symmetry; apply zip_with_take|].
  rewrite !length_take. lia.
Qed.

(** What [build_figure] returns for a nonzero [angular_speed]. *)
Lemma build_figure_ok
    (angular_speed inner_radius release_height thickness : R) (v_init : R * R) :
  angular_speed <> 0%R ->
  exists tr fig,
    Station.simulate angular_speed inner_radius release_height v_init None 20000
    = Ok tr /\
    StationFigure.build_figure angular_speed inner_radius release_height thickness
      v_init = Ok fig /\
    length (StationFigure.figure_frames fig) = length (Station.time tr) /\
    (1 <= Z.of_nat (length (StationFigure.figure_frames fig)) <= 20001)%Z /\
    shows_run inner_radius thickness tr 0 (StationFigure.figure_data fig) /\
    (forall i f, StationFigure.figure_frames fig !! i = Some f ->
       StationFigure.frame_name f = i /\
       shows_run inner_radius thickness tr i (StationFigure.frame_data f)) /\
    StationFigure.py_range 0 (length (StationFigure.figure_frames fig))
      (Nat.max 1 (length (StationFigure.figure_frames fig) / 100))
    = Ok (StationFigure.slider_steps fig).
Proof.
  intros Hw.
  destruct (proj2 (StationFigureFacts.default_step_simulate angular_speed inner_radius
                     release_height v_init 20000) Hw) as (tr & Hs & Hn & _).
  destruct (rotating_simulate_points _ _ _ _ _ _ _ Hs)
    as (xr & yr & Hrot & _).
  destruct (StationFigureFacts.ring_points_ok inner_radius thickness 400 ltac:(lia))
    as (ring & Hring & _).
  set (sim := {| Rotating.inertial := tr;
                 Rotating.x_rotating := Array1 xr;
                 Rotating.y_rotating := Array1 yr |}) in *.
  set (body := fun frame_index : nat =>
         and_then (StationFigure.traces_at angular_speed sim ring frame_index)
           (fun data => Ok {| StationFigure.frame_data := data;
                              StationFigure.frame_name := frame_index |})).
  destruct (StationFigureFacts.collect_ok body (seq 0 (length (Station.time tr))))
    as (frames & Hfr & Hlfr & Hfi).
  { intros i k Hk. apply lookup_seq in Hk as [-> Hi]. cbn [Nat.add].
    destruct (traces_at_shows _ _ _ _ _ _ _ _ _ _ _ i Hs Hrot Hring Hi)
      as (data & Hd & _).
    unfold body. fold sim in Hd. rewrite Hd. eexists. reflexivity. }
  destruct (traces_at_shows _ _ _ _ _ _ _ _ _ _ _ 0%nat Hs Hrot Hring ltac:(lia))
    as (data0 & Hd0 & Hshow0).
  fold sim in Hd0.
  destruct (StationFigure.py_range 0 (length (Station.time tr))
              (Nat.max 1 (length (Station.time tr) / 100))) as [steps|e] eqn:Hsteps.
  2:{ unfold StationFigure.py_range in Hsteps.
      destruct (Nat.max 1 (length (Station.time tr) / 100)) eqn:Hm; [lia|].
      discriminate Hsteps. }
  exists tr, {| StationFigure.figure_data := data0;
                StationFigure.figure_frames := frames;
                StationFigure.slider_steps := steps |}.
  split; [exact Hs|]. split.
  { unfold StationFigure.build_figure. rewrite Hrot. cbn [and_then].
    rewrite Hring. cbn [and_then]. fold sim. cbn [Rotating.inertial sim].
    rewrite Hd0. cbn [and_then]. fold body. rewrite Hfr. cbn [and_then].
    rewrite Hsteps. reflexivity. }
  cbn [StationFigure.figure_frames StationFigure.figure_data].
  rewrite length_seq in Hlfr. split; [exact Hlfr|]. split; [lia|].
  split; [exact Hshow0|].
  split; [|cbn [StationFigure.slider_steps]; rewrite Hlfr; exact Hsteps].
  intros i f Hf.
  assert (i < length (Station.time tr))%nat as Hi
    by (apply lookup_lt_Some in Hf; lia).
  destruct (Hfi i i) as (f' & Hf' & Hbody); [apply lookup_seq; split; [reflexivity|lia]|].
  assert (f' = f) as -> by congruence.
  destruct (traces_at_shows _ _ _ _ _ _ _ _ _ _ _ i Hs Hrot Hring Hi)
    as (data & Hd & Hshow).
  fold sim in Hd. unfold body in Hbody. rewrite Hd in Hbody. cbn [and_then] in Hbody.
  injection Hbody as <-. split; [reflexivity|exact Hshow].
Qed.

(** X13.  birthday_station.py, [build_figure], exact arithmetic.  The
    call raises ZeroDivisionError when [angular_speed] is zero (it calls
    [simulate] without a time step) and returns otherwise.  The figure has
    one frame per recorded time, between 1 and 20001 of them, frame [i]
    named [i].  The initial traces and every frame show: the inner and
    outer circle of the ring, 400 points each at distance [inner_radius]
    and [inner_radius + thickness] from the origin, rotated in the inertial
    panel and fixed in the rotating one; the ball at the [i]-th recorded
    position and, in the rotating panel, at the same distance from the
    axis; the two trails up to index [i]. *)
Theorem build_figure_shows_the_run
    (angular_speed inner_radius release_height thickness : R) (v_init : R * R) :
  (angular_speed = 0%R ->
   StationFigure.build_figure angular_speed inner_radius release_height thickness v_init
   = Raise ZeroDivisionError) /\
  (angular_speed <> 0%R ->
   exists tr fig,
     Station.simulate angular_speed inner_radius release_height v_init None 20000
     = Ok tr /\
     StationFigure.build_figure angular_speed inner_radius release_height thickness
       v_init = Ok fig /\
     length (StationFigure.figure_frames fig) = length (Station.time tr) /\
     (1 <= Z.of_nat (length (StationFigure.figure_frames fig)) <= 20001)%Z /\
     shows_run inner_radius thickness tr 0 (StationFigure.figure_data fig) /\
     forall i f, StationFigure.figure_frames fig !! i = Some f ->
       StationFigure.frame_name f = i /\
       shows_run inner_radius thickness tr i (StationFigure.frame_data f)).
Proof.
  split; intros Hw.
  - unfold StationFigure.build_figure, Rotating.simulate.
    rewrite (proj1 (StationFigureFacts.default_step_simulate _ _ _ _ _) Hw). reflexivity.
  - destruct (build_figure_ok angular_speed inner_radius release_height thickness
                v_init Hw) as (tr & fig & Hs & Hfig & Hlen & Hn & H0 & Hfr & _).
    exists tr, fig. repeat (split; [assumption|]). exact Hfr.
Qed.

(** The number of values of [range(0, n, max(1, n // 100))]. *)
Lemma range_count_facts (n : nat) :
  (1 <= n)%nat ->
  let step := Nat.max 1 (n / 100) in
  let count := ((n - 0 + step - 1) / step)%nat in
  (1 <= step)%nat /\
  (forall i, (i < count)%nat <-> (i * step < n)%nat) /\
  (1 <= count <= 199)%nat /\ (Nat.min n 100 <= count)%nat.
Proof.
  intros Hn step count.
  assert (1 <= step)%nat as Hs by (unfold step; lia).
  assert (forall i, (i < count)%nat <-> (i * step < n)%nat) as Hi.
  { intros i. unfold count. split; intros Hlt.
    - assert (S i <= (n - 0 + step - 1) / step)%nat as Hle by lia.
      pose proof (Nat.Div0.mul_div_le (n - 0 + step - 1) step) as Hm.
      assert (step * S i <= step * ((n - 0 + step - 1) / step))%nat
        by (apply Nat.mul_le_mono_l; exact Hle).
      nia.
    - apply Nat.div_le_lower_bound with (q := S i); [lia|nia]. }
  split; [exact Hs|]. split; [exact Hi|].
  pose proof (Nat.Div0.mul_div_le n 100) as Hq.
  pose proof (Nat.mul_succ_div_gt n 100 ltac:(lia)) as Hq'.
  assert (step = 1 /\ n < 200 \/ step = n / 100 /\ 1 <= n / 100)%nat as Hcase.
  { unfold step. destruct (Nat.le_gt_cases 1 (n / 100)); [right; lia|left].
    split; lia. }
  split; [split|].
  - apply Hi. lia.
  - destruct (Nat.le_gt_cases count 199) as [|Hgt]; [assumption|exfalso].
    assert (199 < count)%nat as H199 by lia. apply Hi in H199.
    destruct Hcase as [[E ?]|[E ?]]; rewrite E in *; nia.
  - destruct (Nat.le_gt_cases (Nat.min n 100) count) as [|Hlt]; [assumption|exfalso].
    assert (~ (count < count)%nat) as Hirr by lia. apply Hirr. apply Hi.
    destruct Hcase as [[E ?]|[E ?]]; rewrite E in *; nia.
Qed.

(** X14.  birthday_station.py, [build_figure], exact arithmetic, nonzero
    [angular_speed]: the slider.  With [n] frames and
    [step = max(1, n // 100)], the slider steps name the frames
    [0, step, 2 step, ...] below [n]: every step names a frame that
    exists, the first names frame 0, there are between [min(n, 100)] and
    199 of them, and the last frame [n - 1] has a slider step exactly when
    [step] divides [n - 1]. *)
Theorem slider_steps_name_frames
    (angular_speed inner_radius release_height thickness : R) (v_init : R * R) :
  angular_speed <> 0%R ->
  exists fig,
    StationFigure.build_figure angular_speed inner_radius release_height thickness
      v_init = Ok fig /\
    let n := length (StationFigure.figure_frames fig) in
    let step := Nat.max 1 (n / 100) in
    (forall i s, StationFigure.slider_steps fig !! i = Some s ->
       s = (i * step)%nat /\ (s < n)%nat) /\
    (forall i, (i * step < n)%nat ->
       StationFigure.slider_steps fig !! i = Some (i * step)%nat) /\
    (Nat.min n 100 <= length (StationFigure.slider_steps fig) <= 199)%nat /\
    (elem_of (n - 1)%nat (StationFigure.slider_steps fig) <->
     ((n - 1) mod step = 0)%nat).
Proof.
  intros Hw.
  destruct (build_figure_ok angular_speed inner_radius release_height thickness
              v_init Hw) as (tr & fig & _ & Hfig & _ & Hn & _ & _ & Hsteps).
  exists fig. split; [exact Hfig|]. cbv zeta.
  set (n := length (StationFigure.figure_frames fig)) in *.
  destruct (range_count_facts n ltac:(lia)) as (Hs & Hi & Hcount & Hmin).
  cbv zeta in Hs, Hi, Hcount, Hmin.
  set (step := Nat.max 1 (n / 100)) in *.
  unfold StationFigure.py_range in Hsteps.
  destruct step as [|step'] eqn:Hstep; [lia|]. rewrite <- Hstep in *.
  injection Hsteps as Hsteps.
  set (count := ((n - 0 + step - 1) / step)%nat) in *.
  assert (forall i, StationFigure.slider_steps fig !! i
                    = if decide (i < count)%nat then Some (i * step)%nat else None) as Hl.
  { intros i. rewrite <- Hsteps, list_lookup_fmap.
    destruct (decide (i < count)%nat) as [Hlt|Hge].
    - rewrite lookup_seq_lt by exact Hlt. reflexivity.
    - rewrite lookup_seq_ge by lia. reflexivity. }
  assert (length (StationFigure.slider_steps fig) = count) as Hlen
    by (rewrite <- Hsteps, length_fmap, length_seq; reflexivity).
  split; [|split; [|split]].
  - intros i s. rewrite Hl. destruct (decide (i < count)%nat) as [Hlt|]; [|discriminate].
    intros [= <-]. split; [reflexivity|]. apply Hi. exact Hlt.
  - intros i Hlt. rewrite Hl. apply Hi in Hlt.
    destruct (decide (i < count)%nat); [reflexivity|contradiction].
  - rewrite Hlen. lia.
  - split.
    + intros Hin. apply list_elem_of_lookup in Hin as [i Hin]. rewrite Hl in Hin.
      destruct (decide (i < count)%nat); [|discriminate]. injection Hin as Hin.
      rewrite <- Hin. apply Nat.Div0.mod_mul.
    + intros Hmod. apply Nat.Div0.div_exact in Hmod.
      apply list_elem_of_lookup. exists ((n - 1) / step)%nat. rewrite Hl.
      assert ((n - 1) / step * step = n - 1)%nat as E by lia.
      destruct (decide ((n - 1) / step < count)%nat) as [|Hge]; [rewrite E; reflexivity|].
      exfalso. apply Hge, Hi. lia.
Qed.

Lemma slider_steps_name_frames_witness :
  exists fig,
    StationFigure.build_figure 1%R 10%R 2%R (1 / 2)%R (3%R, 0%R) = Ok fig /\
    let n := length (StationFigure.figure_frames fig) in
    let step := Nat.max 1 (n / 100) in
    (forall i s, StationFigure.slider_steps fig !! i = Some s ->
       s = (i * step)%nat /\ (s < n)%nat) /\
    (forall i, (i * step < n)%nat ->
       StationFigure.slider_steps fig !! i = Some (i * step)%nat) /\
    (Nat.min n 100 <= length (StationFigure.slider_steps fig) <= 199)%nat /\
    (elem_of (n - 1)%nat (StationFigure.slider_steps fig) <->
     ((n - 1) mod step = 0)%nat).
Proof.
  exact (slider_steps_name_frames 1%R 10%R 2%R (1 / 2)%R (3%R, 0%R) R1_neq_R0).
Defined.

(** ** birthday_station.py: the flight in exact arithmetic *)

Section Flight.
Import Station StationFacts.
Local Open Scope R_scope.

Lemma advance_unclamped (inner_radius release_height : R) velocity dt i :
  advance velocity dt (unclamped inner_radius release_height velocity dt i)
  = unclamped inner_radius release_height velocity dt (S i).
Proof.
  unfold advance, unclamped. cbn [fst snd fadd fmul exact]. rewrite S_INR.
  f_equal; [f_equal|]; ring.
Qed.

Lemma initial_unclamped (inner_radius release_height : R) velocity dt :
  initial_state inner_radius release_height
  = unclamped inner_radius release_height velocity dt 0.
Proof.
  unfold initial_state, unclamped. cbn [INR lit_zero fadd fneg exact].
  f_equal; [f_equal|]; ring.
Qed.

(** A recorded state that has a successor is on the straight line. *)
Lemma recorded_before_last (inner_radius release_height : R) velocity dt max_steps i :
  forall e e',
    recorded inner_radius release_height velocity dt max_steps !! i = Some e ->
    recorded inner_radius release_height velocity dt max_steps !! S i = Some e' ->
    e = unclamped inner_radius release_height velocity dt i.
Proof.
  induction i as [|i IH]; intros e e' He He'.
  - injection He as <-. apply initial_unclamped.
  - destruct (lookup_lt_is_Some_2
                (recorded inner_radius release_height velocity dt max_steps) i)
      as [e0 He0].
    { apply lookup_lt_Some in He. lia. }
    rewrite (IH e0 e He0 He) in He0.
    destruct (recorded_step _ _ _ _ _ _ _ _ He0 He) as [[_ ->]|(_ & _ & Hl)].
    + apply advance_unclamped.
    + apply lookup_lt_Some in He'. lia.
Qed.

(** A list of entries shorter than the number of steps allowed ends with
    the step that reached the hull. *)
Lemma entries_cut_short {F : Type} `{Arith F} (inner_radius : F) velocity dt remaining :
  forall s k,
    length (entries inner_radius velocity dt remaining s) = k ->
    (k < remaining)%nat ->
    (1 <= k)%nat /\
    exists e,
      (s :: entries inner_radius velocity dt remaining s) !! (k - 1)%nat = Some e /\
      fge (radius_of (advance velocity dt e)) inner_radius = true.
Proof.
  induction remaining as [|r IH]; intros s k Hk Hlt; [lia|].
  cbn [entries] in Hk |- *. cbv zeta in Hk |- *.
  destruct (fge (radius_of (advance velocity dt s)) inner_radius) eqn:Ht.
  - cbn in Hk. subst k. split; [lia|]. exists s. split; [reflexivity|exact Ht].
  - cbn [length] in Hk. destruct k as [|k]; [discriminate|].
    injection Hk as Hk. destruct (IH (advance velocity dt s) k Hk ltac:(lia))
      as (Hk1 & e & He & Hte).
    split; [lia|]. exists e. split; [|exact Hte].
    replace (S k - 1)%nat with (S (k - 1)) by lia. exact He.
Qed.

End Flight.

(** X15.  birthday_station.py, [simulate], exact arithmetic.  Until the
    hull is reached the ball is recorded on the straight line of its free
    flight: entry [i] is [(i vx dt, -inner_radius + release_height + i vy dt,
    i dt)] as long as that point is closer to the axis than
    [inner_radius].  The first step [i >= 1] whose point is at distance
    [inner_radius] or more is recorded projected onto the hull and is the
    last entry.  A run with fewer than [max_steps + 1] entries ended that
    way. *)
Theorem flight_is_straight_until_the_hull
    (angular_speed inner_radius release_height : R) (initial_velocity : R * R)
    (time_step : option R) (dt : R) (max_steps : Z) (tr : Station.trajectory R) :
  Station.time_step_or_default angular_speed time_step = Ok dt ->
  Station.simulate angular_speed inner_radius release_height initial_velocity
    time_step max_steps = Ok tr ->
  let line := unclamped inner_radius release_height initial_velocity dt in
  (forall i e, Station.entry tr i = Some e ->
     (forall j, (1 <= j < i)%nat -> (Station.radius_of (line j) < inner_radius)%R) /\
     (i = 0%nat -> e = line 0%nat) /\
     ((1 <= i)%nat ->
      ((Station.radius_of (line i) < inner_radius)%R /\ e = line i) \/
      ((Station.radius_of (line i) >= inner_radius)%R /\
       e = Station.clamp inner_radius (line i) /\
       length (Station.time tr) = S i))) /\
  ((length (Station.time tr) < Z.to_nat max_steps + 1)%nat ->
   (Station.radius_of (line (length (Station.time tr) - 1)%nat) >= inner_radius)%R).
Proof.
  intros Hdt Hs. cbv zeta.
  set (L := Station.recorded inner_radius release_height initial_velocity dt max_steps).
  assert (forall i, Station.entry tr i = L !! i) as Hentry
    by (intros i; exact (StationFacts.entry_recorded _ _ _ _ _ _ _ _ i Hdt Hs)).
  assert (length (Station.time tr) = length L) as Hlen.
  { destruct (StationFacts.time_recorded _ _ _ _ _ _ _ _ Hdt Hs) as (-> & _).
    apply length_fmap. }
  assert (forall i e, (1 <= i)%nat -> L !! i = Some e ->
            ((Station.radius_of
                (unclamped inner_radius release_height initial_velocity dt i)
              < inner_radius)%R /\
             e = unclamped inner_radius release_height initial_velocity dt i) \/
            ((Station.radius_of
                (unclamped inner_radius release_height initial_velocity dt i)
              >= inner_radius)%R /\
             e = Station.clamp inner_radius
                   (unclamped inner_radius release_height initial_velocity dt i) /\
             length L = S i)) as Hstep.
  { intros [|i] e Hi He; [lia|].
    destruct (lookup_lt_is_Some_2 L i) as [e0 He0].
    { apply lookup_lt_Some in He. lia. }
    rewrite (recorded_before_last _ _ _ _ _ _ _ _ He0 He) in He0.
    destruct (StationFacts.recorded_step _ _ _ _ _ _ _ _ He0 He)
      as [[Ht ->]|(Ht & -> & Hl)]; rewrite advance_unclamped in *.
    - left. split; [|reflexivity]. apply StationFacts.exact_fge_false. exact Ht.
    - right. split; [|split; [reflexivity|exact Hl]].
      apply StationFacts.exact_fge_true. exact Ht. }
  split.
  - intros i e He. rewrite Hentry in He. split; [|split].
    + intros j Hj.
      destruct (lookup_lt_is_Some_2 L j) as [ej Hej].
      { apply lookup_lt_Some in He. lia. }
      destruct (Hstep j ej ltac:(lia) Hej) as [[Hr _]|(_ & _ & Hl)]; [exact Hr|].
      apply lookup_lt_Some in He. lia.
    + intros ->. injection He as <-. apply initial_unclamped.
    + intros Hi. rewrite Hlen. exact (Hstep i e Hi He).
  - intros Hshort. rewrite Hlen in *.
    assert (1 <= length L)%nat as H1 by (unfold L, Station.recorded; cbn [length]; lia).
    destruct (entries_cut_short inner_radius initial_velocity dt (Z.to_nat max_steps)
                (Station.initial_state inner_radius release_height)
                (length L - 1)%nat) as (Hk & e & He & Ht).
    { unfold L, Station.recorded. cbn [length]. lia. }
    { lia. }
    fold L in He.
    destruct (length L) as [|[|k]] eqn:HL; [lia|cbn in Hk; lia|].
    replace (S (S k) - 1 - 1)%nat with k in He by lia.
    replace (S (S k) - 1)%nat with (S k) by lia.
    destruct (lookup_lt_is_Some_2 L (S k) ltac:(lia)) as [e' He'].
    rewrite (recorded_before_last _ _ _ _ _ _ _ _ He He') in Ht.
    rewrite advance_unclamped in Ht.
    apply StationFacts.exact_fge_true. exact Ht.
Qed.

Lemma flight_is_straight_until_the_hull_witness :
  exists tr,
    Station.simulate 1%R 10%R 2%R (3%R, 0%R) (Some 1%R) 5 = Ok tr /\
    length (Station.time tr) = 3%nat /\
    Station.entry tr 1 = Some ((0 + 3 * 1)%R, (- (10) + 2 + 0 * 1)%R, (0 + 1)%R) /\
    let line := unclamped 10%R 2%R (3%R, 0%R) 1%R in
    (forall i e, Station.entry tr i = Some e ->
       (forall j, (1 <= j < i)%nat -> (Station.radius_of (line j) < 10)%R) /\
       (i = 0%nat -> e = line 0%nat) /\
       ((1 <= i)%nat ->
        ((Station.radius_of (line i) < 10)%R /\ e = line i) \/
        ((Station.radius_of (line i) >= 10)%R /\
         e = Station.clamp 10%R (line i) /\
         length (Station.time tr) = S i))) /\
    ((length (Station.time tr) < Z.to_nat 5 + 1)%nat ->
     (Station.radius_of (line (length (Station.time tr) - 1)%nat) >= 10)%R).
Proof.
  destruct exact_station_flight_run as (tr & Hs & Hlen & He).
  exists tr. split; [exact Hs|]. split; [exact Hlen|]. split; [exact He|].
  exact (flight_is_straight_until_the_hull 1%R 10%R 2%R (3%R, 0%R) (Some 1%R) 1%R 5
           tr eq_refl Hs).
Defined.

(** ** birthday_station.py: [build_velocity_selector_figure] *)

Module SelectorFacts.
Import VelocitySelector.

Lemma key_equal_refl (k : R * R) : key_equal k k = true.
Proof.
  unfold key_equal. cbn [feq exact_equality].
  destruct (Req_dec_T k.1 k.1); [|contradiction].
  destruct (Req_dec_T k.2 k.2); [reflexivity|contradiction].
Qed.

(** A key that was inserted is found. *)
Lemma dict_get_inserted {A : Type} (d : list (R * R * A)) (k : R * R) (a : A) :
  (k, a) ∈ d -> exists a', dict_get d k = Some a'.
Proof.
  intros Hin. unfold dict_get.
  destruct (find (fun item => key_equal item.1 k) (rev d)) as [item|] eqn:Hf;
    [eexists; reflexivity|].
  pose proof (find_none _ _ Hf (k, a)) as Hnone. cbn [fst] in Hnone.
  rewrite key_equal_refl in Hnone. discriminate Hnone.
  apply in_rev. rewrite rev_involutive. apply list_elem_of_In. exact Hin.
Qed.

Lemma vx_buttons_found {A : Type} (prebuilt : list (R * R * A)) (vx_values : list R)
    (vy0 : R) :
  (forall vx, vx ∈ vx_values -> exists a, ((vx, vy0), a) ∈ prebuilt) ->
  exists buttons, vx_buttons prebuilt vx_values vy0 = Some buttons.
Proof.
  induction vx_values as [|vx rest IH]; intros Hall; [eexists; reflexivity|].
  destruct (Hall vx ltac:(left)) as [a Ha].
  destruct (dict_get_inserted prebuilt (vx, vy0) a Ha) as [a' Ha'].
  destruct IH as [buttons Hb]; [intros vx' Hvx'; apply Hall; right; exact Hvx'|].
  cbn [vx_buttons]. rewrite Ha', Hb. eexists. reflexivity.
Qed.

Lemma middle_exists {A : Type} (l : list A) :
  l <> [] -> exists x, l !! (length l / 2)%nat = Some x.
Proof.
  intros Hne. apply lookup_lt_is_Some_2.
  destruct l; [congruence|]. apply Nat.div_lt; cbn [length]; lia.
Qed.

End SelectorFacts.

(** X16.  birthday_station.py, [build_velocity_selector_figure], exact
    arithmetic.  An empty [vx_values] or [vy_values] raises IndexError.
    Otherwise, with [vx0] and [vy0] the middle elements of the two lists
    (0 and 0 for the default lists), a zero [angular_speed] raises
    ZeroDivisionError, and for any other [angular_speed] the call returns
    the figure [build_figure] builds for the initial velocity
    [(vx0, vy0)]: the figures prebuilt for all pairs of velocities do not
    reach the result, and no dictionary lookup fails. *)
Theorem selector_shows_the_middle_velocity
    (angular_speed inner_radius release_height thickness : R)
    (vx_values vy_values : option (list R)) :
  let vxs := match vx_values with
             | None => VelocitySelector.default_values
             | Some l => l
             end in
  let vys := match vy_values with
             | None => VelocitySelector.default_values
             | Some l => l
             end in
  (vxs = [] \/ vys = [] ->
   VelocitySelector.build_velocity_selector_figure angular_speed inner_radius
     release_height thickness vx_values vy_values
   = VelocitySelector.Raised IndexError) /\
  (vxs <> [] -> vys <> [] ->
   exists vx0 vy0,
     vxs !! (length vxs / 2)%nat = Some vx0 /\
     vys !! (length vys / 2)%nat = Some vy0 /\
     (vx_values = None -> vx0 = 0%R) /\ (vy_values = None -> vy0 = 0%R) /\
     VelocitySelector.build_velocity_selector_figure angular_speed inner_radius
       release_height thickness vx_values vy_values
     = match StationFigure.build_figure angular_speed inner_radius release_height
               thickness (vx0, vy0) with
       | Ok fig => VelocitySelector.Returned fig
       | Raise e => VelocitySelector.Raised e
       end /\
     (angular_speed = 0%R ->
      StationFigure.build_figure angular_speed inner_radius release_height
        thickness (vx0, vy0) = Raise ZeroDivisionError) /\
     (angular_speed <> 0%R ->
      exists fig,
        StationFigure.build_figure angular_speed inner_radius release_height
          thickness (vx0, vy0) = Ok fig)).
Proof.
  cbv zeta. unfold VelocitySelector.build_velocity_selector_figure.
  set (vxs := match vx_values with
              | None => VelocitySelector.default_values
              | Some l => l
              end).
  set (vys := match vy_values with
              | None => VelocitySelector.default_values
              | Some l => l
              end).
  split.
  - intros [Hx|Hy].
    + rewrite Hx. reflexivity.
    + destruct (vxs !! (length vxs / 2)%nat); [|reflexivity].
      rewrite Hy. reflexivity.
  - intros Hx Hy.
    destruct (SelectorFacts.middle_exists vxs Hx) as [vx0 Hvx0].
    destruct (SelectorFacts.middle_exists vys Hy) as [vy0 Hvy0].
    exists vx0, vy0. split; [exact Hvx0|]. split; [exact Hvy0|].
    split; [|split].
    { intros ->. cbn in Hvx0. injection Hvx0 as <-. reflexivity. }
    { intros ->. cbn in Hvy0. injection Hvy0 as <-. reflexivity. }
    rewrite Hvx0, Hvy0.
    destruct (Req_dec_T angular_speed 0) as [Hw|Hw].
    + assert (StationFigure.build_figure angular_speed inner_radius release_height
                thickness (vx0, vy0) = Raise ZeroDivisionError) as Hraise.
      { unfold StationFigure.build_figure, Rotating.simulate.
        rewrite (proj1 (StationFigureFacts.default_step_simulate _ _ _ _ _) Hw).
        reflexivity. }
      rewrite Hraise. split; [reflexivity|]. split; [auto|contradiction].
    + destruct (build_figure_ok angular_speed inner_radius release_height thickness
                  (vx0, vy0) Hw) as (_ & fig & _ & Hfig & _).
      rewrite Hfig. split; [|split; [contradiction|eauto]].
      set (body := fun v : R * R =>
             and_then (StationFigure.build_figure angular_speed inner_radius
                         release_height thickness v)
               (fun built => Ok (v, built))).
      destruct (StationFigureFacts.collect_ok body
                  (VelocitySelector.velocity_pairs vxs vys))
        as (prebuilt & Hpre & _ & Hitems).
      { intros i v _.
        destruct (build_figure_ok angular_speed inner_radius release_height thickness
                    v Hw) as (_ & built & _ & Hbuilt & _).
        unfold body. rewrite Hbuilt. eexists. reflexivity. }
      rewrite Hpre.
      destruct (SelectorFacts.vx_buttons_found prebuilt vxs vy0) as [buttons ->];
        [|reflexivity].
      intros vx Hvx.
      assert ((vx, vy0) ∈ VelocitySelector.velocity_pairs vxs vys) as Hpair.
      { unfold VelocitySelector.velocity_pairs. apply list_elem_of_bind.
        exists vx. split; [|exact Hvx]. apply list_elem_of_fmap.
        exists vy0. split; [reflexivity|]. eapply list_elem_of_lookup_2. exact Hvy0. }
      apply list_elem_of_lookup_1 in Hpair as [i Hi].
      destruct (Hitems i _ Hi) as (item & Hitem & Hbody).
      unfold body in Hbody.
      destruct (StationFigure.build_figure angular_speed inner_radius release_height
                  thickness (vx, vy0)) as [built|e]; [|discriminate Hbody].
      cbn [and_then] in Hbody. injection Hbody as <-.
      exists built. eapply list_elem_of_lookup_2. exact Hitem.
Qed.

(** ** two_balls_bounce.py: a ball that starts beyond the wall *)

Section Trapped.
Context {F : Type} `{Arith F}.

(** The state of ball [k] on entry to iteration [j] is the [j]-fold
    [bounce_ball] of its initial state. *)
Lemma state_at_iter (wall_x_position time_step : F) j :
  forall (P V : ndarray F) k p v,
    P !! k = Some p -> V !! k = Some v ->
    (Bounce.state_at wall_x_position time_step j (P, V)).1 !! k
    = Some (Nat.iter j (Bounce.bounce_ball wall_x_position time_step) (p, v)).1 /\
    (Bounce.state_at wall_x_position time_step j (P, V)).2 !! k
    = Some (Nat.iter j (Bounce.bounce_ball wall_x_position time_step) (p, v)).2.
Proof.
  induction j as [|j IH]; intros P V k p v Hp Hv; [cbn; auto|].
  destruct (IH P V k p v Hp Hv) as [E1 E2].
  destruct (BounceFacts.state_at_ball _ _ _ _ _ _ _ E1 E2) as [S1 S2].
  rewrite S1, S2, Nat.iter_succ.
  destruct (Nat.iter j (Bounce.bounce_ball wall_x_position time_step) (p, v)); auto.
Qed.

(** Both positions of the oscillation pass the wall test, and the second
    step brings the ball back to where it started: the x coordinate and
    the x velocity alternate for ever. *)
Lemma trapped_ball (wall_x_position time_step : F) (p v : row F) j :
  let x1 := fadd p.1.1 (fmul (fmul v.1.1 lit_minus_one) time_step) in
  fge p.1.1 wall_x_position = true ->
  fge x1 wall_x_position = true ->
  fmul (fmul v.1.1 lit_minus_one) lit_minus_one = v.1.1 ->
  fadd x1 (fmul v.1.1 time_step) = p.1.1 ->
  let s := Nat.iter j (Bounce.bounce_ball wall_x_position time_step) (p, v) in
  if Nat.even j
  then s.1.1.1 = p.1.1 /\ s.2.1.1 = v.1.1
  else s.1.1.1 = x1 /\ s.2.1.1 = fmul v.1.1 lit_minus_one.
Proof.
  intros x1 Hp Hp' Hneg Hback. cbv zeta.
  assert (forall q w : row F, fge q.1.1 wall_x_position = true ->
            (Bounce.bounce_ball wall_x_position time_step (q, w)).1.1.1
            = fadd q.1.1 (fmul (fmul w.1.1 lit_minus_one) time_step) /\
            (Bounce.bounce_ball wall_x_position time_step (q, w)).2.1.1
            = fmul w.1.1 lit_minus_one)
    as Hstep.
  { intros q w Hq. unfold Bounce.bounce_ball. cbn [fst snd]. rewrite Hq.
    split; reflexivity. }
  induction j as [|j IH]; [cbn; auto|].
  rewrite Nat.iter_succ, Nat.even_succ, <- Nat.negb_even.
  destruct (Nat.iter j (Bounce.bounce_ball wall_x_position time_step) (p, v))
    as [q w].
  cbn [fst snd] in IH. destruct (Nat.even j); cbn [negb]; destruct IH as [Hq Hw].
  - destruct (Hstep q w ltac:(rewrite Hq; exact Hp)) as [-> ->].
    rewrite Hq, Hw. auto.
  - destruct (Hstep q w ltac:(rewrite Hq; exact Hp')) as [-> ->].
    rewrite Hq, Hw, Hneg. auto.
Qed.

End Trapped.

(** X17.  two_balls_bounce.py, [simulate_motion], any arithmetic.  Take a
    ball that starts at or beyond the wall, that is still at or beyond it
    after one step with its x velocity negated, and that the next step,
    with the x velocity negated back, returns to its initial x coordinate
    (in binary64 this return is a condition on the inputs: rounding can
    break it).  Such a ball never comes back: every recorded x coordinate
    passes the wall test, and the recorded x coordinates alternate for ever
    between the initial one and the one a step later. *)
Theorem ball_beyond_the_wall_is_trapped (F : Type) (A : Arith F) (h : store F)
    (initial_positions initial_velocities : ref) (P V : ndarray F)
    (wall_x_position time_step stop_time : F) (fuel : nat)
    (h' : store F) (r : result (run (list ref))) (k : nat) (p v : row F) :
  h !! initial_positions = Some P ->
  h !! initial_velocities = Some V ->
  length P = length V ->
  P !! k = Some p -> V !! k = Some v ->
  let x1 := fadd p.1.1 (fmul (fmul v.1.1 lit_minus_one) time_step) in
  fge p.1.1 wall_x_position = true ->
  fge x1 wall_x_position = true ->
  fmul (fmul v.1.1 lit_minus_one) lit_minus_one = v.1.1 ->
  fadd x1 (fmul v.1.1 time_step) = p.1.1 ->
  Bounce.simulate_motion fuel initial_positions initial_velocities
    wall_x_position time_step stop_time h = (h', r) ->
  exists l, returned_list r = Some l /\
    forall j a, l !! j = Some a ->
      exists Pj q, h' !! a = Some Pj /\ Pj !! k = Some q /\
        fge q.1.1 wall_x_position = true /\
        q.1.1 = (if Nat.even j then p.1.1 else x1).
Proof.
  intros HP HV Hlen Hp Hv x1 Hx Hx' Hneg Hback Hrun.
  destruct (BounceFacts.simulate_motion_states _ _ _ _ _ _ _ _ _ _ _ HP HV Hlen Hrun)
    as (l & Hl & _ & Hsnap).
  exists l. split; [exact Hl|]. intros j a Ha.
  destruct (state_at_iter wall_x_position time_step j P V k p v Hp Hv) as [E _].
  eexists _, _. split; [exact (Hsnap j a Ha)|]. split; [exact E|].
  pose proof (trapped_ball wall_x_position time_step p v j Hx Hx' Hneg Hback) as Ht.
  cbv zeta in Ht.
  destruct (Nat.even j); destruct Ht as [-> _]; split; (assumption || reflexivity).
Qed.

Lemma ball_beyond_the_wall_is_trapped_witness :
  exists h' l,
    Bounce.simulate_motion 5 0 1 0%float 1%float 3%float trapped_store
    = (h', Ok (Done l)) /\
    length l = 4%nat /\
    forall j a, l !! j = Some a ->
      exists Pj q, h' !! a = Some Pj /\ Pj !! 0%nat = Some q /\
        fge q.1.1 0%float = true /\
        q.1.1 = (if Nat.even j then 1%float else 0.5%float).
Proof.
  eexists _, _. split; [vm_compute; reflexivity|]. split; [reflexivity|].
  destruct (ball_beyond_the_wall_is_trapped float binary64 trapped_store 0%nat 1%nat
              _ _ 0%float 1%float 3%float 5 _ _ 0%nat
              (1%float, 0%float, 0%float) (0.5%float, 0%float, 0%float)
              eq_refl eq_refl eq_refl eq_refl eq_refl
              eq_refl eq_refl eq_refl eq_refl eq_refl) as (l & Hl & Hall).
  injection Hl as <-. exact Hall.
Defined.

(** In binary64 the return to the initial x coordinate can fail.  A ball
    on the wall at x = 0.3 with x velocity -0.6 and time step 1 is recorded
    at 0.3, 0.8999999999999999 and then at 0.29999999999999993, below the
    wall, and leaves
    for good. *)
Lemma rounding_frees_the_ball :
  exists h' l,
    Bounce.simulate_motion 7 0 1 0.3%float 1%float 5%float
      [ [ (0.3%float, 0%float, 0%float) ]; [ ((-0.6)%float, 0%float, 0%float) ] ]
    = (h', Ok (Done l)) /\
    (forall a P, l !! 0%nat = Some a -> h' !! a = Some P ->
       (fun q => q.1.1) <$> P = [0.3%float]) /\
    (forall a P, l !! 1%nat = Some a -> h' !! a = Some P ->
       (fun q => q.1.1) <$> P = [0x1.cccccccccccccp-1%float]) /\
    (forall a P, l !! 2%nat = Some a -> h' !! a = Some P ->
       (fun q => q.1.1) <$> P = [0x1.3333333333332p-2%float]) /\
    (forall a P, l !! 3%nat = Some a -> h' !! a = Some P ->
       exists x, (fun q => q.1.1) <$> P = [x] /\ PrimFloat.ltb x 0%float = true) /\
    PrimFloat.ltb 0x1.3333333333332p-2%float 0.3%float = true.
Proof.
  eexists _, _. split; [vm_compute; reflexivity|].
  repeat split.
  - intros a P [= <-] [= <-]. reflexivity.
  - intros a P [= <-] [= <-]. vm_compute. reflexivity.
  - intros a P [= <-] [= <-]. vm_compute. reflexivity.
  - intros a P [= <-] [= <-]. eexists. split; vm_compute; reflexivity.
Qed.

(** ** birthday_station.py: what [simulate] returns or raises *)

(** X18.  birthday_station.py, [simulate], any arithmetic.  The only
    exception is ZeroDivisionError, raised exactly when no [time_step] is
    given and [angular_speed == 0].  Otherwise the three inertial arrays
    have the same length, between 1 and [max_steps + 1]; they start with
    the release point [(0, -inner_radius + release_height)] at time 0; and
    with [max_steps <= 0] they hold nothing else. *)
Theorem simulate_shape_and_exception (F : Type) (A : Arith F)
    (angular_speed inner_radius release_height : F) (initial_velocity : F * F)
    (time_step : option F) (max_steps : Z) :
  match Station.simulate angular_speed inner_radius release_height initial_velocity
          time_step max_steps with
  | Raise e =>
      e = ZeroDivisionError /\ time_step = None /\ is_zero angular_speed = true
  | Ok tr =>
      (time_step = None -> is_zero angular_speed = false) /\
      length (Station.x_inertial tr) = length (Station.time tr) /\
      length (Station.y_inertial tr) = length (Station.time tr) /\
      (1 <= length (Station.time tr) <= Z.to_nat max_steps + 1)%nat /\
      Station.entry tr 0 = Some (Station.initial_state inner_radius release_height) /\
      ((max_steps <= 0)%Z -> length (Station.time tr) = 1%nat)
  end.
Proof.
  destruct (Station.simulate angular_speed inner_radius release_height initial_velocity
              time_step max_steps) as [tr|e] eqn:Hs.
  - destruct (simulate_lengths _ _ _ _ _ _ _ Hs) as (Hlx & Hly & H0).
    destruct (Station.time_step_or_default angular_speed time_step) as [dt|e] eqn:Hdt;
      [|unfold Station.simulate in Hs; rewrite Hdt in Hs; discriminate Hs].
    destruct (StationFacts.time_recorded _ _ _ _ _ _ _ _ Hdt Hs) as (Ht & _).
    pose proof (StationFacts.recorded_length inner_radius release_height
                  initial_velocity dt max_steps) as Hl.
    split.
    { intros ->. unfold Station.time_step_or_default, Station.default_time_step in Hdt.
      destruct (is_zero angular_speed); [discriminate Hdt|reflexivity]. }
    split; [exact Hlx|]. split; [exact Hly|]. rewrite Ht, length_fmap.
    split; [exact Hl|]. split; [exact H0|].
    intros Hmax. unfold Station.recorded.
    replace (Z.to_nat max_steps) with 0%nat by lia. reflexivity.
  - unfold Station.simulate in Hs.
    destruct (Station.time_step_or_default angular_speed time_step) as [dt|e'] eqn:Hdt.
    + destruct initial_velocity. discriminate Hs.
    + injection Hs as <-.
      unfold Station.time_step_or_default, Station.default_time_step in Hdt.
      destruct time_step as [ts|]; [discriminate Hdt|].
      destruct (is_zero angular_speed); [|discriminate Hdt].
      injection Hdt as <-. auto.
Qed.

(** ** Instances of the statements about the drawing code *)

Lemma ring_is_two_closed_circles_witness :
  exists r,
    Rotating.station_ring_points 10%R (1 / 2)%R 400 = Ok r /\
    length (Rotating.angles r) = Z.to_nat 400 /\
    length (Rotating.inner_x r) = Z.to_nat 400 /\
    length (Rotating.inner_y r) = Z.to_nat 400 /\
    length (Rotating.outer_x r) = Z.to_nat 400 /\
    length (Rotating.outer_y r) = Z.to_nat 400 /\
    (forall i x y,
       Rotating.inner_x r !! i = Some x -> Rotating.inner_y r !! i = Some y ->
       (x * x + y * y = 10 * 10)%R) /\
    (forall i x y,
       Rotating.outer_x r !! i = Some x -> Rotating.outer_y r !! i = Some y ->
       (x * x + y * y = (10 + 1 / 2) * (10 + 1 / 2))%R) /\
    ((2 <= 400)%Z ->
     (forall i a, Rotating.angles r !! i = Some a ->
        a = (INR i * (2 * PI / (IZR 400 - 1)))%R) /\
     forall i, i = 0%nat \/ i = (Z.to_nat 400 - 1)%nat ->
       Rotating.inner_x r !! i = Some 10%R /\
       Rotating.inner_y r !! i = Some 0%R /\
       Rotating.outer_x r !! i = Some (10 + 1 / 2)%R /\
       Rotating.outer_y r !! i = Some 0%R).
Proof.
  refine (proj2 (ring_is_two_closed_circles 10%R (1 / 2)%R 400) _). discriminate.
Defined.

Lemma sphere_mesh_is_on_the_sphere_witness :
  exists s,
    Figure.generate_sphere_mesh 0%R 0%R 0%R 1%R 24 48 = Ok s /\
    has_shape (Z.to_nat 24) (Z.to_nat 48) (Figure.surface_x s) /\
    has_shape (Z.to_nat 24) (Z.to_nat 48) (Figure.surface_y s) /\
    has_shape (Z.to_nat 24) (Z.to_nat 48) (Figure.surface_z s) /\
    (forall i j p,
       surface_point s i j = Some p ->
       squared_distance p (0%R, 0%R, 0%R) = (1 * 1)%R) /\
    (forall j, (j < Z.to_nat 48)%nat ->
       ((1 <= 24)%Z -> surface_point s 0 j = Some (0%R, 0%R, (0 + 1)%R)) /\
       ((2 <= 24)%Z ->
        surface_point s (Z.to_nat 24 - 1) j = Some (0%R, 0%R, (0 - 1)%R))) /\
    ((2 <= 48)%Z ->
     forall i, surface_point s i (Z.to_nat 48 - 1) = surface_point s i 0).
Proof.
  refine (proj2 (sphere_mesh_is_on_the_sphere 0%R 0%R 0%R 1%R 24 48) _ _);
    discriminate.
Defined.

Lemma build_figure_shows_the_run_witness :
  exists tr fig,
    Station.simulate 1%R 10%R 2%R (3%R, 0%R) None 20000 = Ok tr /\
    StationFigure.build_figure 1%R 10%R 2%R (1 / 2)%R (3%R, 0%R) = Ok fig /\
    length (StationFigure.figure_frames fig) = length (Station.time tr) /\
    (1 <= Z.of_nat (length (StationFigure.figure_frames fig)) <= 20001)%Z /\
    shows_run 10%R (1 / 2)%R tr 0 (StationFigure.figure_data fig) /\
    forall i f, StationFigure.figure_frames fig !! i = Some f ->
      StationFigure.frame_name f = i /\
      shows_run 10%R (1 / 2)%R tr i (StationFigure.frame_data f).
Proof.
  exact (proj2 (build_figure_shows_the_run 1%R 10%R 2%R (1 / 2)%R (3%R, 0%R))
           R1_neq_R0).
Defined.

(** ** birthday_station.py: a thrown ball reaches the hull *)

(** A point of the free flight far enough along is not inside the hull. *)
Lemma line_leaves_the_hull (inner_radius release_height : R) velocity dt n :
  (Rabs (release_height - inner_radius) < inner_radius)%R ->
  (4 * (inner_radius * inner_radius)
   <= (INR n * dt) * (INR n * dt)
      * (velocity.1 * velocity.1 + velocity.2 * velocity.2))%R ->
  (Station.radius_of (unclamped inner_radius release_height velocity dt n)
   >= inner_radius)%R.
Proof.
  intros Hin Hfar.
  set (s := unclamped inner_radius release_height velocity dt n).
  destruct (Rge_dec (Station.radius_of s) inner_radius) as [|Hlt]; [assumption|].
  exfalso. apply Rnot_ge_lt in Hlt.
  pose proof (StationFacts.exact_radius_nonneg s) as H0.
  pose proof (StationFacts.exact_radius_sqr s) as Hsq.
  assert (s.1.1 * s.1.1 + s.1.2 * s.1.2 < inner_radius * inner_radius)%R as Hs
    by (rewrite <- Hsq; nra).
  unfold s, unclamped in Hs. cbn [fst snd] in Hs.
  assert ((release_height - inner_radius) * (release_height - inner_radius)
          < inner_radius * inner_radius)%R as Hy0.
  { apply Rabs_def2 in Hin. nra. }
  set (a := (INR n * (velocity.1 * dt))%R) in *.
  set (b := (INR n * (velocity.2 * dt))%R) in *.
  set (y0 := (release_height - inner_radius)%R) in *.
  replace (- inner_radius + release_height + b)%R with (y0 + b)%R in Hs
    by (unfold y0; ring).
  assert ((INR n * dt) * (INR n * dt)
          * (velocity.1 * velocity.1 + velocity.2 * velocity.2)
          = a * a + b * b)%R as E by (unfold a, b; ring).
  rewrite E in Hfar.
  assert (b * b <= 2 * ((y0 + b) * (y0 + b)) + 2 * (y0 * y0))%R by nra.
  nra.
Qed.

(** X19.  birthday_station.py, [simulate], exact arithmetic.  Released
    strictly inside the hull, a ball whose free flight would cover at least
    [2 * inner_radius] within [max_steps] steps
    ([max_steps * time_step * speed >= 2 * inner_radius]) reaches the hull:
    the last recorded position lies exactly on the circle of radius
    [inner_radius], after at least one step. *)
Theorem thrown_ball_reaches_the_hull
    (angular_speed inner_radius release_height : R) (initial_velocity : R * R)
    (time_step : option R) (dt : R) (max_steps : Z) (tr : Station.trajectory R) :
  Station.time_step_or_default angular_speed time_step = Ok dt ->
  Station.simulate angular_speed inner_radius release_height initial_velocity
    time_step max_steps = Ok tr ->
  (Rabs (release_height - inner_radius) < inner_radius)%R ->
  (4 * (inner_radius * inner_radius)
   <= (INR (Z.to_nat max_steps) * dt) * (INR (Z.to_nat max_steps) * dt)
      * (initial_velocity.1 * initial_velocity.1
         + initial_velocity.2 * initial_velocity.2))%R ->
  exists i e,
    (1 <= i)%nat /\ length (Station.time tr) = S i /\
    Station.entry tr i = Some e /\ Station.radius_of e = inner_radius.
Proof.
  intros Hdt Hs Hin Hfar.
  set (L := Station.recorded inner_radius release_height initial_velocity dt max_steps).
  assert (forall i, Station.entry tr i = L !! i) as Hentry
    by (intros i; exact (StationFacts.entry_recorded _ _ _ _ _ _ _ _ i Hdt Hs)).
  assert (length (Station.time tr) = length L) as Hlen.
  { destruct (StationFacts.time_recorded _ _ _ _ _ _ _ _ Hdt Hs) as (-> & _).
    apply length_fmap. }
  pose proof (StationFacts.recorded_length inner_radius release_height
                initial_velocity dt max_steps) as Hbound. fold L in Hbound.
  assert (0 < inner_radius)%R as HR
    by (pose proof (Rabs_pos (release_height - inner_radius)); lra).
  assert (1 <= Z.to_nat max_steps)%nat as Hmax.
  { destruct (Z.to_nat max_steps); [|lia]. cbn [INR] in Hfar. nra. }
  (* the last entry is not the first: a lone first entry means no step was allowed *)
  assert (2 <= length L)%nat as H2.
  { unfold L, Station.recorded. cbn [length].
    destruct (Z.to_nat max_steps) as [|k]; [lia|]. cbn [Station.entries]. cbv zeta.
    destruct (fge _ _); cbn [length]; lia. }
  destruct (length L) as [|[|k]] eqn:HL; [lia|lia|].
  destruct (lookup_lt_is_Some_2 L (S k) ltac:(lia)) as [e He].
  destruct (lookup_lt_is_Some_2 L k ltac:(lia)) as [e0 He0].
  exists (S k), e. split; [lia|]. split; [lia|]. split; [rewrite Hentry; exact He|].
  rewrite (recorded_before_last _ _ _ _ _ _ _ _ He0 He) in He0.
  destruct (StationFacts.recorded_step _ _ _ _ _ _ _ _ He0 He)
    as [[Ht ->]|(Ht & -> & _)]; rewrite advance_unclamped in *.
  - (* not clamped: then the run used all its steps, and the line has left the hull *)
    exfalso. apply StationFacts.exact_fge_false in Ht.
    destruct (Nat.eq_dec (S k) (Z.to_nat max_steps)) as [E|E].
    + rewrite E in Ht.
      pose proof (line_leaves_the_hull inner_radius release_height initial_velocity dt
                    (Z.to_nat max_steps) Hin Hfar). lra.
    + destruct (entries_cut_short inner_radius initial_velocity dt (Z.to_nat max_steps)
                  (Station.initial_state inner_radius release_height) (S k))
        as (_ & e1 & He1 & Ht1).
      { assert (length L = S (S k)) as HL' by exact HL.
        unfold L, Station.recorded in HL'. cbn [length] in HL'. lia. }
      { lia. }
      fold L in He1. replace (S k - 1)%nat with k in He1 by lia.
      rewrite (recorded_before_last _ _ _ _ _ _ _ _ He1 He) in Ht1.
      rewrite advance_unclamped in Ht1.
      apply StationFacts.exact_fge_true in Ht1. lra.
  - apply StationFacts.exact_clamp_radius; [exact HR|].
    apply StationFacts.exact_fge_true. exact Ht.
Qed.

Lemma thrown_ball_reaches_the_hull_witness :
  exists tr,
    Station.simulate 1%R 10%R 2%R (20%R, 0%R) (Some 1%R) 1 = Ok tr /\
    exists i e,
      (1 <= i)%nat /\ length (Station.time tr) = S i /\
      Station.entry tr i = Some e /\ Station.radius_of e = 10%R.
Proof.
  eexists. split; [reflexivity|].
  refine (thrown_ball_reaches_the_hull 1%R 10%R 2%R (20%R, 0%R) (Some 1%R) 1%R 1 _
            eq_refl eq_refl _ _).
  - apply Rabs_def1; lra.
  - change (Z.to_nat 1) with 1%nat. cbn [INR fst snd]. lra.
Defined.
